(** * pyhopper.search: a shallow embedding of the search scheduler

    The development follows [src/pyhopper/search.py]: the tree of
    parameters and its traversals, [register_int] and [register_float],
    [Search.__setitem__], the manual queue, the processing of candidate
    results, the search loop of [Search.run] and the checkpoint protocol
    ([Search.save], [Search.load]).

    Conventions.
    - Python floats that are not NaN are rationals ([Q]); NaN never occurs
      as a number: the code itself tests the [is_nan] flag of a result.
    - A Python [dict] is an association list in insertion order (the order
      in which [items()] iterates, which decides the order in which the
      mutation bitmask is consumed).
    - A raised exception is the [Raise] case of [result]; a function that
      mutates [self] before raising returns the mutated object next to it.
    - Random draws are functions of an entropy argument ([nat]). *)

From Stdlib Require Import ZArith QArith Qround Lia Lqa Bool Ascii.
From stdpp Require Import gmap strings list.

Set Warnings "-register-all".
Local Open Scope Z_scope.

(** ** Python values *)

Inductive scalar : Type :=
| SNone
| SBool (b : bool)
| SInt (z : Z)
| SFloat (q : Q)
| SStr (s : string).

(** Candidate trees: same shape as the search space, leaves are values. *)
Inductive pyval : Type :=
| VAtom (a : scalar)
| VList (l : list pyval)
| VDict (d : list (string * pyval)).

Definition VNone : pyval := VAtom SNone.

(** The messages of the exceptions raised in [search.py], with the values
    their f-strings interpolate, and of the configuration errors of the
    bounds, the budget and the direction. *)
Inductive message : Type :=
| MsgGuessTreeMismatch (candidate : pyval) (keys : list string)
| MsgGuessNotRegistered (k : string)
| MsgPowerOfUnsupported (power_of : Z)
| MsgRemoteException
| MsgNaN
| MsgNoParameters
| MsgPrunerMismatchSave
| MsgPrunerMismatchLoad
| MsgCouldNotParseFile (checkpoint_path : string) (detail : string)
| MsgBounds
| MsgBudget
| MsgDirection.

Inductive exn : Type :=
| ValueError (m : message)
| KeyError (k : string)
| IndexError
| TypeError
| AttributeError (attr : string)
| RecursionError
| FileNotFoundError (path : string).

Inductive result (A : Type) : Type :=
| Ok (a : A)
| Raise (e : exn).
Arguments Ok {A} a.
Arguments Raise {A} e.

Definition bind {A B} (r : result A) (k : A -> result B) : result B :=
  match r with
  | Ok a => k a
  | Raise e => Raise e
  end.

Notation "x <-- r ;; k" := (bind r (fun x => k))
  (at level 100, r at next level, right associativity).

Definition is_ok {A} (r : result A) : bool :=
  match r with Ok _ => true | Raise _ => false end.

(** ** Parameters and the search-space tree *)

(** Modelled from the spec: the classes of [pyhopper/parameters.py] are not
    part of [search.py]; a Parameter object is what section 4.1 requires of every
    variant: an initial value, [sample()] and [mutate(reference, temperature)].
    The last argument of the two draws is the entropy of the call. *)
Record PyParameter : Type := mkParameter {
  initial_value : pyval;
  sample : nat -> pyval;
  mutate : pyval -> Q -> nat -> pyval
}.

(** A node of the registered tree: [isinstance(node, Parameter)],
    [isinstance(node, dict)], [isinstance(node, list)], or anything else
    (a constant, [None] included). *)
Inductive node : Type :=
| NParam (p : PyParameter)
| NDict (d : list (string * node))
| NList (l : list node)
| NConst (a : scalar).

(** [node is None] *)
Definition is_None (n : node) : bool :=
  match n with NConst SNone => true | _ => false end.

(** [d[k]] and [k in d.keys()] on dictionaries *)
Fixpoint dict_get {A} (d : list (string * A)) (k : string) : option A :=
  match d with
  | [] => None
  | (k', v) :: rest => if String.eqb k' k then Some v else dict_get rest k
  end.

Definition key_in {A} (k : string) (d : list (string * A)) : bool :=
  match dict_get d k with Some _ => true | None => false end.

Definition getitem {A} (d : list (string * A)) (k : string) : result A :=
  match dict_get d k with Some v => Ok v | None => Raise (KeyError k) end.

(** [Search._get_initial_solution] *)
Fixpoint _get_initial_solution (param : node) : pyval :=
  match param with
  | NParam p => initial_value p
  | NDict d =>
      VDict ((fix items (d : list (string * node)) : list (string * pyval) :=
                match d with
                | [] => []
                | (k, v) :: rest => (k, _get_initial_solution v) :: items rest
                end) d)
  | NList l =>
      VList ((fix elems (l : list node) : list pyval :=
                match l with
                | [] => []
                | v :: rest => _get_initial_solution v :: elems rest
                end) l)
  | NConst a => VAtom a
  end.

(** [Search._count_free_parameters_rec] *)
Fixpoint _count_free_parameters_rec (nd : node) : nat :=
  match nd with
  | NParam _ => 1%nat
  | NDict d =>
      (fix items (d : list (string * node)) : nat :=
         match d with
         | [] => 0%nat
         | (_, v) :: rest => (_count_free_parameters_rec v + items rest)%nat
         end) d
  | NList l =>
      (fix elems (l : list node) : nat :=
         match l with
         | [] => 0%nat
         | v :: rest => (_count_free_parameters_rec v + elems rest)%nat
         end) l
  | NConst _ => 0%nat
  end.

(** ** The manual queue: [Search._enqueue_rec] *)

(** [len(x)] and [x[i]] for the candidate handed to the list branch. *)
Definition py_len (x : pyval) : result nat :=
  match x with
  | VList l => Ok (length l)
  | VDict d => Ok (length d)
  | VAtom (SStr s) => Ok (String.length s)
  | VAtom _ => Raise TypeError
  end.

Definition py_index (x : pyval) (i : nat) : result pyval :=
  match x with
  | VList l => match l !! i with Some v => Ok v | None => Raise IndexError end
  | VDict _ => Raise (KeyError (* of the integer [i] *) "")
  | VAtom (SStr s) =>
      match String.get i s with
      | Some c => Ok (VAtom (SStr (String c EmptyString)))
      | None => Raise IndexError
      end
  | VAtom _ => Raise TypeError
  end.

Section EnqueueLoops.
(** the recursive call [self._enqueue_rec] *)
Variable f : pyval -> pyval -> result pyval.

(** [for k, v in node_best.items(): ...] building the candidate dict;
    [node_best[k]] is [v] *)
Fixpoint enqueue_items (dc : list (string * pyval)) (d : list (string * pyval))
  : result (list (string * pyval)) :=
  match d with
  | [] => Ok []
  | (k, v) :: rest =>
      match dict_get dc k with
      | Some c =>
          r <-- f v c ;;
          rs <-- enqueue_items dc rest ;;
          Ok ((k, r) :: rs)
      | None =>
          rs <-- enqueue_items dc rest ;;
          Ok ((k, v) :: rs)
      end
  end.

(** [for i in range(len(node_best)): ...] building the candidate list *)
Fixpoint enqueue_elems (node_candidate : pyval) (l : list pyval) (i : nat)
  : result (list pyval) :=
  match l with
  | [] => Ok []
  | b :: rest =>
      n <-- py_len node_candidate ;;
      if (i <? n)%nat then
        c <-- py_index node_candidate i ;;
        r <-- f b c ;;
        rs <-- enqueue_elems node_candidate rest (S i) ;;
        Ok (r :: rs)
      else
        rs <-- enqueue_elems node_candidate rest (S i) ;;
        Ok (b :: rs)
  end.
End EnqueueLoops.

Fixpoint _enqueue_rec (node_best node_candidate : pyval) : result pyval :=
  match node_best with
  | VDict db =>
      match node_candidate with
      | VDict dc =>
          match List.find (fun k => negb (key_in k db)) (map fst dc) with
          | Some k => Raise (ValueError (MsgGuessNotRegistered k))
          | None =>
              candidate <-- enqueue_items _enqueue_rec dc db ;;
              Ok (VDict candidate)
          end
      | _ => Raise (ValueError (MsgGuessTreeMismatch node_candidate (map fst db)))
      end
  | VList lb =>
      candidate <-- enqueue_elems _enqueue_rec node_candidate lb 0%nat ;;
      Ok (VList candidate)
  | VAtom _ => Ok node_candidate
  end.

(** ** Evaluation cache *)

Definition scalar_eqb (a b : scalar) : bool :=
  match a, b with
  | SNone, SNone => true
  | SBool x, SBool y => Bool.eqb x y
  | SInt x, SInt y => Z.eqb x y
  | SFloat x, SFloat y => Qeq_bool x y
  | SStr x, SStr y => String.eqb x y
  | _, _ => false
  end.

(** Equality of fingerprints: leaf by leaf. *)
Fixpoint pyval_eqb (a b : pyval) : bool :=
  match a, b with
  | VAtom x, VAtom y => scalar_eqb x y
  | VList l1, VList l2 =>
      (fix elems (l1 l2 : list pyval) : bool :=
         match l1, l2 with
         | [], [] => true
         | x :: r1, y :: r2 => pyval_eqb x y && elems r1 r2
         | _, _ => false
         end) l1 l2
  | VDict d1, VDict d2 =>
      (fix items (d1 d2 : list (string * pyval)) : bool :=
         match d1, d2 with
         | [], [] => true
         | (k1, x) :: r1, (k2, y) :: r2 =>
             String.eqb k1 k2 && pyval_eqb x y && items r1 r2
         | _, _ => false
         end) d1 d2
  | _, _ => false
  end.

(** Modelled from the spec: [pyhopper/cache.py] is not part of [search.py].
    Section 4.3: committed fingerprints with their values, a staged set of
    fingerprints in flight, membership across both, and a switch that
    disables the membership test while the cache keeps tracking. *)
Record EvaluationCache : Type := mkCache {
  cache_enabled : bool;
  cache_committed : list (pyval * Q);
  cache_staged : list pyval
}.

Module Cache.
Definition empty : EvaluationCache := mkCache true [] [].

Definition set_enable (c : EvaluationCache) (b : bool) : EvaluationCache :=
  mkCache b (cache_committed c) (cache_staged c).

Definition stage (c : EvaluationCache) (x : pyval) : EvaluationCache :=
  mkCache (cache_enabled c) (cache_committed c) (x :: cache_staged c).

Definition commit (c : EvaluationCache) (x : pyval) (v : Q) : EvaluationCache :=
  mkCache (cache_enabled c) ((x, v) :: cache_committed c)
          (List.filter (fun y => negb (pyval_eqb x y)) (cache_staged c)).

Definition forget (c : EvaluationCache) (x : pyval) : EvaluationCache :=
  mkCache (cache_enabled c)
          (List.filter (fun e => negb (pyval_eqb x (fst e))) (cache_committed c))
          (List.filter (fun y => negb (pyval_eqb x y)) (cache_staged c)).

Definition clear (c : EvaluationCache) : EvaluationCache :=
  mkCache (cache_enabled c) [] [].

(** membership of the stored fingerprints, whatever the switch says *)
Definition known (c : EvaluationCache) (x : pyval) : bool :=
  existsb (fun e => pyval_eqb x (fst e)) (cache_committed c)
  || existsb (pyval_eqb x) (cache_staged c).

(** [candidate in cache] *)
Definition contains (c : EvaluationCache) (x : pyval) : bool :=
  cache_enabled c && known c x.
End Cache.

(** ** Candidate results, observers, run context *)

Inductive CandidateType : Type :=
| INIT | MANUALLY_ADDED | RANDOM_SEEDING | LOCAL_SAMPLING.

(** [utils.ParamInfo] without its time stamps. *)
Record ParamInfo : Type := mkParamInfo {
  info_type : CandidateType;
  info_is_pruned : bool;
  info_is_nan : bool
}.

(** Section 3, candidate result: a value, an error indicator, a NaN
    indicator, a pruned indicator and the intermediate estimates. *)
Record CandidateResult : Type := mkCandidateResult {
  value : Q;
  error : option string;
  is_nan : bool;
  was_pruned : bool;
  intermediate_results : option (list Q)
}.

(** The observers of a run: the built-in history recorder and the
    callbacks of the caller. *)
Inductive callback : Type :=
| CbHistory
| CbUser (id : nat).

(** What the search does to the outside: observer hooks in call order,
    printing, and the teardown of the worker pool. *)
Inductive event : Type :=
| OnSearchStart (c : callback)
| OnEvaluateStart (c : callback) (candidate : pyval) (info : ParamInfo)
| OnEvaluateEnd (c : callback) (candidate : pyval) (v : Q) (info : ParamInfo)
| OnEvaluatePruned (c : callback) (candidate : pyval) (info : ParamInfo)
| OnEvaluateNan (c : callback) (candidate : pyval) (info : ParamInfo)
| OnNewBest (c : callback) (solution : pyval) (v : Q) (info : ParamInfo)
| OnSearchEnd (c : callback)
| Printed (text : string)
| PoolShutdown
| SigtermChildren.

(** Modelled from the spec: the Pruner interface of section 6, [append] of
    the intermediate estimates with the pruned flag; [pruner_id] is the
    identity of the object ([!=] on pruners compares objects). *)
Record Pruner : Type := mkPruner {
  pruner_id : nat;
  pruner_log : list (option (list Q) * bool)
}.

Definition pruner_append (p : Pruner) (ir : option (list Q)) (pruned : bool) : Pruner :=
  mkPruner (pruner_id p) (pruner_log p ++ [(ir, pruned)]).

(** Modelled from the spec: the worker pool of section 4.4, as far as
    [search.py] looks at it when it tears the pool down. *)
Record TaskManager : Type := mkTaskManager {
  n_jobs : nat;
  is_shutdown : bool
}.

(** [np.clip(x, 0, 1)] *)
Definition clip01 (x : Q) : Q :=
  if Qle_bool x 0 then 0%Q else if Qle_bool 1 x then 1%Q else x.

(** Python's [max(a, b)]: the first argument unless the second is larger. *)
Definition py_max (a b : Q) : Q := if Qlt_le_dec a b then b else a.

(** Modelled from the spec: [pyhopper/run_context.py] is not part of
    [search.py]. Sections 3 and 4.2: the schedule holds the elapsed step
    count and the configured budget; it reports that time is up when the
    elapsed steps meet the configured steps or on an interrupt, never in
    endless mode; the seeding phase lasts until its budget of steps is
    used up; the temperature is interpolated linearly from the start to
    the end value in the fraction of the budget consumed and clipped to
    the unit interval. Wall-clock budgets are left out. *)
Record ScheduledRun : Type := mkScheduledRun {
  sched_step : nat;
  sched_max_steps : option nat;
  sched_seeding_budget : Q;
  sched_start_temperature : Q;
  sched_end_temperature : Q;
  sched_interrupted : bool
}.

Module Schedule.
Definition is_timeout (s : ScheduledRun) : bool :=
  sched_interrupted s
  || match sched_max_steps s with
     | Some m => (m <=? sched_step s)%nat
     | None => false
     end.

Definition increment_step (s : ScheduledRun) : ScheduledRun :=
  mkScheduledRun (S (sched_step s)) (sched_max_steps s) (sched_seeding_budget s)
    (sched_start_temperature s) (sched_end_temperature s) (sched_interrupted s).

Definition is_in_seeding_mode (s : ScheduledRun) : bool :=
  negb (Qle_bool (sched_seeding_budget s) (inject_Z (Z.of_nat (sched_step s)))).

Definition progress (s : ScheduledRun) : Q :=
  match sched_max_steps s with
  | Some (S m) => inject_Z (Z.of_nat (sched_step s)) / inject_Z (Z.of_nat (S m))
  | _ => 0
  end.

Definition temperature (s : ScheduledRun) : Q :=
  clip01 (sched_start_temperature s
          + (sched_end_temperature s - sched_start_temperature s) * progress s).
End Schedule.

(** Modelled from the spec: the run context of section 3, with the fields
    [search.py] reads. The schedule object of [run] is the one the context
    holds. *)
Record RunContext : Type := mkRunContext {
  direction : string;
  pruner : option Pruner;
  ignore_nans : bool;
  schedule : ScheduledRun;
  callbacks : list callback;
  task_executor : option TaskManager;
  terminate : bool
}.

Definition ctx_set_pruner (p : option Pruner) (c : RunContext) : RunContext :=
  mkRunContext (direction c) p (ignore_nans c) (schedule c) (callbacks c)
    (task_executor c) (terminate c).
Definition ctx_set_schedule (s : ScheduledRun) (c : RunContext) : RunContext :=
  mkRunContext (direction c) (pruner c) (ignore_nans c) s (callbacks c)
    (task_executor c) (terminate c).
Definition ctx_set_task_executor (t : option TaskManager) (c : RunContext) : RunContext :=
  mkRunContext (direction c) (pruner c) (ignore_nans c) (schedule c) (callbacks c)
    t (terminate c).
Definition ctx_set_terminate (b : bool) (c : RunContext) : RunContext :=
  mkRunContext (direction c) (pruner c) (ignore_nans c) (schedule c) (callbacks c)
    (task_executor c) b.

(** Modelled from the spec: the history recorder of [pyhopper/callbacks]:
    the evaluated candidates with their objective values, in order. *)
Definition History : Type := list (pyval * Q).

(** ** The Search object *)

(** The attributes set in [Search.__init__]; [trace] is the record of the
    effects on the outside, oldest first. *)
Record Search : Type := mkSearch {
  _params : node;
  _best_solution : pyval;
  _free_param_count : nat;
  _best_f : option Q;
  _f_cache : EvaluationCache;
  _run_context : option RunContext;
  _manually_queued_candidates : list pyval;
  _history : History;
  _checkpoint_path : option string;
  _caught_exception : bool;
  trace : list event
}.

Definition set_best (sol : pyval) (f : option Q) (s : Search) : Search :=
  mkSearch (_params s) sol (_free_param_count s) f (_f_cache s) (_run_context s)
    (_manually_queued_candidates s) (_history s) (_checkpoint_path s)
    (_caught_exception s) (trace s).
Definition set_f_cache (c : EvaluationCache) (s : Search) : Search :=
  mkSearch (_params s) (_best_solution s) (_free_param_count s) (_best_f s) c
    (_run_context s) (_manually_queued_candidates s) (_history s)
    (_checkpoint_path s) (_caught_exception s) (trace s).
Definition set_run_context (c : option RunContext) (s : Search) : Search :=
  mkSearch (_params s) (_best_solution s) (_free_param_count s) (_best_f s)
    (_f_cache s) c (_manually_queued_candidates s) (_history s)
    (_checkpoint_path s) (_caught_exception s) (trace s).
Definition set_queue (q : list pyval) (s : Search) : Search :=
  mkSearch (_params s) (_best_solution s) (_free_param_count s) (_best_f s)
    (_f_cache s) (_run_context s) q (_history s) (_checkpoint_path s)
    (_caught_exception s) (trace s).
Definition set_history (h : History) (s : Search) : Search :=
  mkSearch (_params s) (_best_solution s) (_free_param_count s) (_best_f s)
    (_f_cache s) (_run_context s) (_manually_queued_candidates s) h
    (_checkpoint_path s) (_caught_exception s) (trace s).
Definition set_caught_exception (b : bool) (s : Search) : Search :=
  mkSearch (_params s) (_best_solution s) (_free_param_count s) (_best_f s)
    (_f_cache s) (_run_context s) (_manually_queued_candidates s) (_history s)
    (_checkpoint_path s) b (trace s).
Definition emit (evs : list event) (s : Search) : Search :=
  mkSearch (_params s) (_best_solution s) (_free_param_count s) (_best_f s)
    (_f_cache s) (_run_context s) (_manually_queued_candidates s) (_history s)
    (_checkpoint_path s) (_caught_exception s) (trace s ++ evs).

(** [Search.__init__] on the merged dictionary of parameters *)
Definition Search_init (parameters : node) : Search :=
  mkSearch parameters (_get_initial_solution parameters)
    (_count_free_parameters_rec parameters) None Cache.empty None [] [] None
    false [].

(** the properties [manual_queue_count] and [free_param_count] *)
Definition manual_queue_count (self : Search) : nat :=
  length (_manually_queued_candidates self).
Definition free_param_count (self : Search) : nat := _free_param_count self.

(** [Search.enqueue] *)
Definition enqueue (self : Search) (candidate : pyval) : result Search :=
  added_candidate <-- _enqueue_rec (_best_solution self) candidate ;;
  Ok (set_queue (_manually_queued_candidates self ++ [added_candidate]) self).

(** ** Tree traversals that draw candidates *)

(** Python's [round] on a float: to the nearest integer, ties to even. *)
Definition py_round (x : Q) : Z :=
  let f := Qfloor x in
  match Qcompare (x - inject_Z f) (1 # 2) with
  | Lt => f
  | Gt => f + 1
  | Eq => if Z.even f then f else f + 1
  end.

(** [bitmask.pop()]: the last element, removed from the list. *)
Definition pop (bitmask : list bool) : result (bool * list bool) :=
  match last bitmask with
  | Some b => Ok (b, removelast bitmask)
  | None => Raise IndexError
  end.

(** [best_node[k]] for a string key *)
Definition py_getitem (x : pyval) (k : string) : result pyval :=
  match x with
  | VDict d => getitem d k
  | _ => Raise TypeError
  end.

(** The comprehensions [{k: f(v) for k, v in node.items()}] and
    [[f(v) for v in node]] of [sample_solution]. *)
Fixpoint sample_items (f : node -> result pyval) (d : list (string * node))
  : result (list (string * pyval)) :=
  match d with
  | [] => Ok []
  | (k, v) :: rest =>
      x <-- f v ;;
      xs <-- sample_items f rest ;;
      Ok ((k, x) :: xs)
  end.

Fixpoint sample_elems (f : node -> result pyval) (l : list node)
  : result (list pyval) :=
  match l with
  | [] => Ok []
  | v :: rest =>
      x <-- f v ;;
      xs <-- sample_elems f rest ;;
      Ok (x :: xs)
  end.

(** [Search.sample_solution]. [depth] is the number of nested calls the
    interpreter still allows; the default [node=None] is [NConst SNone]. *)
Fixpoint sample_solution (depth : nat) (self : Search) (rnd : nat) (nd : node)
  : result pyval :=
  match depth with
  | O => Raise RecursionError
  | S depth =>
      let nd := if is_None nd then _params self else nd in
      match nd with
      | NParam p => Ok (sample p rnd)
      | NDict d =>
          r <-- sample_items (sample_solution depth self rnd) d ;;
          Ok (VDict r)
      | NList l =>
          r <-- sample_elems (sample_solution depth self rnd) l ;;
          Ok (VList r)
      | NConst a => Ok (VAtom a)
      end
  end.

(** The comprehensions of [mutate_from_best]: each element is the call
    [f(node[k], best_node[k])]; the bitmask and the count of mutations are
    handed from one call to the next. *)
Fixpoint mutate_items
    (f : node -> pyval -> list bool -> nat -> result (pyval * list bool * nat))
    (best_node : pyval) (d : list (string * node)) (mask : list bool) (calls : nat)
  : result (list (string * pyval) * list bool * nat) :=
  match d with
  | [] => Ok ([], mask, calls)
  | (k, v) :: rest =>
      bk <-- py_getitem best_node k ;;
      x <-- f v bk mask calls ;;
      let '(x, mask, calls) := x in
      xs <-- mutate_items f best_node rest mask calls ;;
      let '(xs, mask, calls) := xs in
      Ok ((k, x) :: xs, mask, calls)
  end.

Fixpoint mutate_elems
    (f : node -> pyval -> list bool -> nat -> result (pyval * list bool * nat))
    (best_node : pyval) (l : list node) (i : nat) (mask : list bool) (calls : nat)
  : result (list pyval * list bool * nat) :=
  match l with
  | [] => Ok ([], mask, calls)
  | v :: rest =>
      bi <-- py_index best_node i ;;
      x <-- f v bi mask calls ;;
      let '(x, mask, calls) := x in
      xs <-- mutate_elems f best_node rest (S i) mask calls ;;
      let '(xs, mask, calls) := xs in
      Ok (x :: xs, mask, calls)
  end.

(** [amount_to_mutate] and the mask before it is shuffled. The product
    is the exact one; the double product of the code can fall on the
    other side of a tie of [round], one parameter more or less. *)
Definition amount_to_mutate (temperature : Q) (n : nat) : Z :=
  Z.max (py_round (temperature * inject_Z (Z.of_nat n))) 1.

Definition fresh_bitmask (temperature : Q) (n : nat) : list bool :=
  map (fun i => Z.of_nat i <? amount_to_mutate temperature n) (seq 0 n).

Section Mutation.
(** [np.random.default_rng().shuffle]: the permutation drawn by a call *)
Variable shuffle : nat -> list bool -> list bool.

(** [Search.mutate_from_best]. The bitmask is one list object shared by
    the calls below a root call and consumed by [pop]: it is threaded
    through, next to the number of calls of [Parameter.mutate] made so
    far. A call whose [node] is [None] starts over at the root with a
    mask of its own and leaves the mask of its caller alone. *)
Fixpoint mutate_from_best (depth : nat) (self : Search) (rnd : nat)
    (temperature : Q) (nd : node) (best_node : pyval)
    (bitmask : list bool) (calls : nat) {struct depth}
  : result (pyval * list bool * nat) :=
  match depth with
  | O => Raise RecursionError
  | S depth =>
      let root := is_None nd in
      let temperature := if root then clip01 temperature else temperature in
      let nd := if root then _params self else nd in
      let best_node := if root then _best_solution self else best_node in
      let mask :=
        if root
        then shuffle rnd (fresh_bitmask temperature (free_param_count self))
        else bitmask in
      r <-- match nd with
            | NParam p =>
                pb <-- pop mask ;;
                let '(b, mask) := pb in
                if b
                then Ok (mutate p best_node temperature rnd, mask, S calls)
                else Ok (best_node, mask, calls)
            | NDict d =>
                r <-- mutate_items (mutate_from_best depth self rnd temperature)
                        best_node d mask calls ;;
                let '(r, mask, calls) := r in
                Ok (VDict r, mask, calls)
            | NList l =>
                r <-- mutate_elems (mutate_from_best depth self rnd temperature)
                        best_node l 0%nat mask calls ;;
                let '(r, mask, calls) := r in
                Ok (VList r, mask, calls)
            | NConst a => Ok (VAtom a, mask, calls)
            end ;;
      let '(v, mask, calls) := r in
      Ok (v, if root then bitmask else mask, calls)
  end.
End Mutation.

(** ** Processing a candidate result *)

Definition Qltb (a b : Q) : bool := negb (Qle_bool b a).

(** [for c in self._run_context.callbacks: c.hook(...)] *)
Definition notify (ctx : RunContext) (hook : callback -> event) (self : Search) : Search :=
  emit (map hook (callbacks ctx)) self.

(** the history recorder keeps what [on_evaluate_end] hands to it *)
Definition record_history (ctx : RunContext) (candidate : pyval) (v : Q)
    (self : Search) : Search :=
  if existsb (fun c => match c with CbHistory => true | _ => false end) (callbacks ctx)
  then set_history (_history self ++ [(candidate, v)]) self
  else self.

(** [Search._shutdown_worker_processes] *)
Definition _shutdown_worker_processes (self : Search) : Search * result unit :=
  match _run_context self with
  | None => (self, Raise (AttributeError "task_executor"))
  | Some ctx =>
      match task_executor ctx with
      | Some te =>
          let te := mkTaskManager (n_jobs te) true in
          let self := set_run_context (Some (ctx_set_task_executor (Some te) ctx)) self in
          (emit [PoolShutdown; SigtermChildren] self, Ok tt)
      | None => (self, Ok tt)
      end
  end.

(** the test that guards "new best solution" *)
Definition improves (best_f : option Q) (dir : string) (v : Q) : bool :=
  match best_f with
  | None => true
  | Some bf =>
      (String.eqb dir "max" && Qltb bf v) || (String.eqb dir "min" && Qltb v bf)
  end.

(** [Search._async_result_ready]: the object after the call and whether the
    call returned or raised. *)
Definition _async_result_ready (self : Search) (candidate : pyval)
    (param_info : ParamInfo) (candidate_result : CandidateResult)
  : Search * result unit :=
  match error candidate_result with
  | Some err =>
      if negb (_caught_exception self) then
        let self := set_caught_exception true self in
        let '(self, r) := _shutdown_worker_processes self in
        match r with
        | Raise e => (self, Raise e)
        | Ok _ =>
            let self :=
              emit [Printed "Remote process caught exception in objective function: ";
                    Printed "======================================================";
                    Printed err;
                    Printed "======================================================"]
                   self in
            (self, Raise (ValueError MsgRemoteException))
        end
      else (self, Ok tt)
  | None =>
      match _run_context self with
      | None =>
          (* [self._run_context.ignore_nans] is looked at for a NaN only;
             otherwise the candidate is committed before
             [self._run_context.pruner] fails *)
          if is_nan candidate_result then (self, Raise (AttributeError "ignore_nans"))
          else
            (set_f_cache (Cache.commit (_f_cache self) candidate
                            (value candidate_result)) self,
             Raise (AttributeError "pruner"))
      | Some ctx =>
          if is_nan candidate_result && negb (ignore_nans ctx) then
            (self, Raise (ValueError MsgNaN))
          else
            let self :=
              set_f_cache (Cache.commit (_f_cache self) candidate
                             (value candidate_result)) self in
            let ctx :=
              match pruner ctx with
              | Some p =>
                  if negb (is_nan candidate_result) then
                    ctx_set_pruner
                      (Some (pruner_append p (intermediate_results candidate_result)
                               (was_pruned candidate_result))) ctx
                  else ctx
              | None => ctx
              end in
            let self := set_run_context (Some ctx) self in
            if was_pruned candidate_result then
              let param_info :=
                mkParamInfo (info_type param_info) true (info_is_nan param_info) in
              (notify ctx (fun c => OnEvaluatePruned c candidate param_info) self, Ok tt)
            else if is_nan candidate_result then
              let param_info :=
                mkParamInfo (info_type param_info) (info_is_pruned param_info) true in
              (notify ctx (fun c => OnEvaluateNan c candidate param_info) self, Ok tt)
            else
              let v := value candidate_result in
              let self :=
                record_history ctx candidate v
                  (notify ctx (fun c => OnEvaluateEnd c candidate v param_info) self) in
              if improves (_best_f self) (direction ctx) v then
                let self := set_best candidate (Some v) self in
                (notify ctx (fun c => OnNewBest c candidate v param_info) self, Ok tt)
              else (self, Ok tt)
      end
  end.

(** The loop over [iterate_done_tasks()] in [_wait_for_one_free_executor]
    and [_wait_for_all_running_jobs]: the finished tasks the pool hands
    over are processed in order; an exception leaves the loop. *)
Fixpoint drain (self : Search) (done : list (pyval * ParamInfo * CandidateResult))
  : Search * result unit :=
  match done with
  | [] => (self, Ok tt)
  | (candidate, param_info, candidate_result) :: rest =>
      let '(self, r) := _async_result_ready self candidate param_info candidate_result in
      match r with
      | Ok _ => drain self rest
      | Raise e => (self, Raise e)
      end
  end.

(** Results handed to [_async_result_ready] one call after the other, by a
    caller that goes on after an exception (the teardown of a pool that
    still delivers results); the exceptions raised are collected. *)
Fixpoint deliver (self : Search) (done : list (pyval * ParamInfo * CandidateResult))
  : Search * list exn :=
  match done with
  | [] => (self, [])
  | (candidate, param_info, candidate_result) :: rest =>
      let '(self, r) := _async_result_ready self candidate param_info candidate_result in
      let '(self', es) := deliver self rest in
      (self', match r with Ok _ => es | Raise e => e :: es end)
  end.

(** ** The search loop: [Search.run] *)

(** The arguments of [run] that the model follows. [n_jobs] stays at its
    default 1 (evaluation inline, no worker pool), [timeout],
    [seeding_timeout] and [checkpoint_path] stay [None]. *)
Record RunArgs : Type := mkRunArgs {
  arg_direction : string;
  arg_steps : option nat;
  arg_endless_mode : bool;
  arg_seeding_steps : option nat;
  arg_seeding_ratio : option Q;
  arg_pruner : option Pruner;
  arg_ignore_nans : bool;
  arg_enable_rejection_cache : bool;
  arg_callbacks : list callback;
  arg_start_temperature : Q;
  arg_end_temperature : Q;
  arg_keep_history : bool
}.

(** the defaults in the signature of [run], with a budget of [steps] *)
Definition default_args (steps : nat) : RunArgs :=
  mkRunArgs "maximize" (Some steps) false None (Some (1 # 4)) None false true []
    1 0 true.

(** Modelled from the spec: the constructor of the schedule. Section 4.2:
    exactly one budget is given, anything else is a configuration error;
    the seeding budget is a step count or a ratio of the total budget. *)
Definition ScheduledRun_init (a : RunArgs) : result ScheduledRun :=
  match arg_steps a, arg_endless_mode a with
  | Some _, true | None, false => Raise (ValueError MsgBudget)
  | steps, _ =>
      let budget :=
        match arg_seeding_steps a, arg_seeding_ratio a, steps with
        | Some k, _, _ => inject_Z (Z.of_nat k)
        | None, Some r, Some m => (r * inject_Z (Z.of_nat m))%Q
        | _, _, _ => 0%Q
        end in
      Ok (mkScheduledRun 0 steps budget (arg_start_temperature a)
            (arg_end_temperature a) false)
  end.

(** Modelled from the spec: the run context keeps the direction as ["max"]
    or ["min"], the two values [_async_result_ready] compares it with; the
    docstring of [run] admits 'min', 'minimize', 'max' and 'maximize'. *)
Definition canonical_direction (d : string) : result string :=
  if String.eqb d "max" || String.eqb d "maximize" then Ok "max"
  else if String.eqb d "min" || String.eqb d "minimize" then Ok "min"
  else Raise (ValueError MsgDirection).

Section Run.
Variable shuffle : nat -> list bool -> list bool.
(** the recursion limit of the interpreter *)
Variable depth : nat.
(** [execute(objective_function, candidate, pruner, kwargs)] *)
Variable objective_function : pyval -> CandidateResult.

(** [Search._submit_candidate]. With a worker pool the candidate is
    handed to the pool and its result comes back through [drain]. *)
Definition _submit_candidate (self : Search) (candidate_type : CandidateType)
    (candidate : pyval) : Search * result unit :=
  match _run_context self with
  | None => (self, Raise (AttributeError "callbacks"))
  | Some ctx =>
      let param_info := mkParamInfo candidate_type false false in
      let self := notify ctx (fun c => OnEvaluateStart c candidate param_info) self in
      let self := set_f_cache (Cache.stage (_f_cache self) candidate) self in
      match task_executor ctx with
      | None =>
          _async_result_ready self candidate param_info (objective_function candidate)
      | Some _ => (self, Ok tt)
      end
  end.

(** the duplicate branch of the loop *)
Definition reject_temperature (current_temperature : Q) : Q :=
  py_max (current_temperature * (105 # 100)) 1.

(** the choice of the next candidate, first part of the loop body *)
Definition next_candidate (self : Search) (ctx : RunContext)
    (current_temperature : Q) (rnd : nat)
  : result (Search * pyval * CandidateType) :=
  match _manually_queued_candidates self with
  | candidate :: rest => Ok (set_queue rest self, candidate, MANUALLY_ADDED)
  | [] =>
      if Schedule.is_in_seeding_mode (schedule ctx) then
        candidate <-- sample_solution depth self rnd (NConst SNone) ;;
        Ok (self, candidate, RANDOM_SEEDING)
      else
        r <-- mutate_from_best shuffle depth self rnd current_temperature
                (NConst SNone) VNone [] 0 ;;
        Ok (self, fst (fst r), LOCAL_SAMPLING)
  end.

Definition step_schedule (self : Search) : Search :=
  match _run_context self with
  | Some ctx =>
      set_run_context
        (Some (ctx_set_schedule (Schedule.increment_step (schedule ctx)) ctx)) self
  | None => self
  end.

(** The [while] loop of [run]. [fuel] bounds the iterations followed;
    [None] says the loop is still running when the fuel is used up. The
    entropy of iteration [i] is [rnd + i]. *)
Fixpoint search_loop (fuel : nat) (self : Search) (current_temperature : Q)
    (rnd : nat) : option (Search * result unit) :=
  match _run_context self with
  | None => Some (self, Raise (AttributeError "run_history"))
  | Some ctx =>
      if Schedule.is_timeout (schedule ctx) then Some (self, Ok tt)
      else
        match fuel with
        | O => None
        | S fuel =>
            if (free_param_count self =? 0)%nat && (manual_queue_count self =? 0)%nat
            then Some (self, Raise (ValueError MsgNoParameters))
            else
              match next_candidate self ctx current_temperature rnd with
              | Raise e => Some (self, Raise e)
              | Ok (self, candidate, candidate_type) =>
                  if negb (Cache.contains (_f_cache self) candidate) then
                    let '(self, r) := _submit_candidate self candidate_type candidate in
                    match r with
                    | Raise e => Some (self, Raise e)
                    | Ok _ =>
                        let current_temperature :=
                          match _run_context self with
                          | Some ctx => Schedule.temperature (schedule ctx)
                          | None => current_temperature
                          end in
                        search_loop fuel (step_schedule self) current_temperature (S rnd)
                    end
                  else
                    search_loop fuel (step_schedule self)
                      (reject_temperature current_temperature) (S rnd)
              end
        end
  end.

(** [Search.run] *)
Definition run (self : Search) (a : RunArgs) (fuel rnd : nat)
  : option (Search * result pyval) :=
  let self := set_caught_exception false self in
  match ScheduledRun_init a, canonical_direction (arg_direction a) with
  | Raise e, _ | _, Raise e => Some (self, Raise e)
  | Ok sched, Ok dir =>
      let callbacks :=
        arg_callbacks a ++ (if arg_keep_history a then [CbHistory] else []) in
      let ctx := mkRunContext dir (arg_pruner a) (arg_ignore_nans a) sched
                   callbacks None false in
      let self := set_run_context (Some ctx) self in
      let self :=
        set_f_cache (Cache.set_enable (_f_cache self) (arg_enable_rejection_cache a))
          self in
      let self := notify ctx OnSearchStart self in
      let '(self, r) :=
        match _best_f self with
        | None =>
            if (manual_queue_count self =? 0)%nat then
              let '(self, r) := _submit_candidate self INIT (_best_solution self) in
              match r with
              | Ok _ => (step_schedule self, Ok tt)
              | Raise e => (self, Raise e)
              end
            else (self, Ok tt)
        | Some _ => (self, Ok tt)
        end in
      match r with
      | Raise e => Some (self, Raise e)
      | Ok _ =>
          let current_temperature :=
            match _run_context self with
            | Some ctx => Schedule.temperature (schedule ctx)
            | None => 0%Q
            end in
          match search_loop fuel self current_temperature rnd with
          | None => None
          | Some (self, Raise e) => Some (self, Raise e)
          | Some (self, Ok _) =>
              let self :=
                match _run_context self with
                | Some ctx =>
                    notify ctx OnSearchEnd
                      (set_run_context (Some (ctx_set_terminate true ctx)) self)
                | None => self
                end in
              let self := set_run_context None self in
              Some (self, Ok (_best_solution self))
          end
      end
  end.
End Run.

(** ** Checkpoints: [Search.save] and [Search.load] *)

(** The values a checkpoint record holds under its keys. *)
Inductive ckpt_value : Type :=
| CkNone
| CkRunContext (dir : string) (sched : ScheduledRun)
| CkCache (c : EvaluationCache)
| CkHistory (h : History)
| CkFloat (f : Q)
| CkSolution (v : pyval)
| CkPruner (log : list (option (list Q) * bool)).

(** Modelled from the spec: [store_dict], [load_dict] and
    [convert_to_checkpoint_path] of [pyhopper/utils.py] and the
    [state_dict]/[load_state_dict] pairs of the cache, the history, the run
    context and the pruner are not part of [search.py]. Sections 4.6 and 6:
    a checkpoint file is a persisted record that carries the state of its
    owners without loss; a path that names a file is used as it is. *)
Abbreviation filesystem := (gmap string (gmap string ckpt_value)).

Definition convert_to_checkpoint_path (checkpoint_path : string) : string :=
  checkpoint_path.

Definition store_dict (fs : filesystem) (checkpoint_path : string)
    (state_dict : gmap string ckpt_value) : filesystem :=
  <[checkpoint_path := state_dict]> fs.

Definition load_dict (fs : filesystem) (checkpoint_path : string)
  : result (gmap string ckpt_value) :=
  match fs !! checkpoint_path with
  | Some d => Ok d
  | None => Raise (FileNotFoundError checkpoint_path)
  end.

Definition RunContext_state_dict (ctx : RunContext) : ckpt_value :=
  CkRunContext (direction ctx) (schedule ctx).

Definition RunContext_load_state_dict (ctx : RunContext) (v : ckpt_value)
  : result RunContext :=
  match v with
  | CkRunContext dir sched =>
      Ok (mkRunContext dir (pruner ctx) (ignore_nans ctx) sched (callbacks ctx)
            (task_executor ctx) (terminate ctx))
  | _ => Raise TypeError
  end.

Definition best_f_state (f : option Q) : ckpt_value :=
  match f with Some q => CkFloat q | None => CkNone end.

(** [pruner != self._run_context.pruner] compares the two objects *)
Definition same_pruner (p q : Pruner) : bool := (pruner_id p =? pruner_id q)%nat.

(** the record [save] builds: [state_dict] after its assignments *)
Definition state_dict_of (self : Search) (pruner_used : option Pruner)
  : gmap string ckpt_value :=
  let state_dict : gmap string ckpt_value := ∅ in
  let state_dict :=
    <["run_context" :=
        match _run_context self with
        | None => CkNone
        | Some ctx => if terminate ctx then CkNone else RunContext_state_dict ctx
        end]> state_dict in
  let state_dict := <["cache" := CkCache (_f_cache self)]> state_dict in
  let state_dict := <["best_f" := best_f_state (_best_f self)]> state_dict in
  let state_dict := <["history" := CkHistory (_history self)]> state_dict in
  let state_dict :=
    match pruner_used with
    | Some p => <["pruner" := CkPruner (pruner_log p)]> state_dict
    | None => state_dict
    end in
  <["best_solution" := CkSolution (_best_solution self)]> state_dict.

(** [Search.save]: the file system after the call and the path written *)
Definition save (self : Search) (fs : filesystem) (checkpoint_path : string)
    (pruner_arg : option Pruner) : result (filesystem * string) :=
  pruner_used <--
    match _run_context self with
    | Some ctx =>
        match pruner ctx with
        | Some cp =>
            match pruner_arg with
            | Some p =>
                if negb (same_pruner p cp)
                then Raise (ValueError MsgPrunerMismatchSave) else Ok (Some cp)
            | None => Ok (Some cp)
            end
        | None => Ok pruner_arg
        end
    | None => Ok pruner_arg
    end ;;
  let state_dict := state_dict_of self pruner_used in
  let checkpoint_path := convert_to_checkpoint_path checkpoint_path in
  Ok (store_dict fs checkpoint_path state_dict, checkpoint_path).

(** [state_dict[key]] *)
Definition sd_get (state_dict : gmap string ckpt_value) (key : string)
  : result ckpt_value :=
  match state_dict !! key with
  | Some v => Ok v
  | None => Raise (KeyError key)
  end.

(** The body of the [try] block of [Search.load]: the assignments happen
    one after the other, so what was restored before an exception stays
    restored. The second component is the pruner object handed to [load].
    A value of another kind than [save] writes under a key is refused by
    the [load_state_dict] that receives it (a TypeError). *)
Definition load_body (self : Search) (state_dict : gmap string ckpt_value)
    (pruner_arg : option Pruner) : Search * option Pruner * result unit :=
  match sd_get state_dict "run_context" with
  | Raise e => (self, pruner_arg, Raise e)
  | Ok rc =>
  match
    match rc with
    | CkNone => Ok self
    | _ =>
        match _run_context self with
        | None => Raise (AttributeError "load_state_dict")
        | Some ctx =>
            ctx <-- RunContext_load_state_dict ctx rc ;;
            Ok (set_run_context (Some ctx) self)
        end
    end
  with
  | Raise e => (self, pruner_arg, Raise e)
  | Ok self =>
  match sd_get state_dict "cache" with
  | Raise e => (self, pruner_arg, Raise e)
  | Ok (CkCache c) =>
  let self := set_f_cache c self in
  match sd_get state_dict "history" with
  | Raise e => (self, pruner_arg, Raise e)
  | Ok (CkHistory h) =>
  let self := set_history h self in
  match sd_get state_dict "best_f" with
  | Raise e => (self, pruner_arg, Raise e)
  | Ok bf =>
  match
    match bf with
    | CkFloat q => Ok (Some q)
    | CkNone => Ok None
    | _ => Raise TypeError
    end
  with
  | Raise e => (self, pruner_arg, Raise e)
  | Ok bf =>
  let self := set_best (_best_solution self) bf self in
  match sd_get state_dict "best_solution" with
  | Raise e => (self, pruner_arg, Raise e)
  | Ok (CkSolution sol) =>
  let self := set_best sol (_best_f self) self in
  match state_dict !! "pruner" with
  | None => (self, pruner_arg, Ok tt)
  | Some ps =>
      match _run_context self with
      | Some ctx =>
          match pruner ctx with
          | Some cp =>
              match pruner_arg with
              | Some p =>
                  if negb (same_pruner p cp) then
                    (self, pruner_arg, Raise (ValueError MsgPrunerMismatchLoad))
                  else
                    match ps with
                    | CkPruner log =>
                        (set_run_context
                           (Some (ctx_set_pruner (Some (mkPruner (pruner_id cp) log)) ctx))
                           self,
                         Some (mkPruner (pruner_id p) log), Ok tt)
                    | _ => (self, pruner_arg, Raise TypeError)
                    end
              | None =>
                  match ps with
                  | CkPruner log =>
                      (set_run_context
                         (Some (ctx_set_pruner (Some (mkPruner (pruner_id cp) log)) ctx))
                         self,
                       pruner_arg, Ok tt)
                  | _ => (self, pruner_arg, Raise TypeError)
                  end
              end
          | None =>
              match pruner_arg, ps with
              | Some p, CkPruner log => (self, Some (mkPruner (pruner_id p) log), Ok tt)
              | Some _, _ => (self, pruner_arg, Raise TypeError)
              | None, _ => (self, pruner_arg, Ok tt)
              end
          end
      | None =>
          match pruner_arg, ps with
          | Some p, CkPruner log => (self, Some (mkPruner (pruner_id p) log), Ok tt)
          | Some _, _ => (self, pruner_arg, Raise TypeError)
          | None, _ => (self, pruner_arg, Ok tt)
          end
      end
  end
  | Ok _ => (self, pruner_arg, Raise TypeError)
  end end end
  | Ok _ => (self, pruner_arg, Raise TypeError)
  end
  | Ok _ => (self, pruner_arg, Raise TypeError)
  end end end.

(** [str(e)] of a [KeyError]: the key in quotes *)
Definition str_KeyError (k : string) : string := "'" +:+ k +:+ "'".

(** [Search.load]: [except KeyError] turns a missing key into the error
    that names the file; any other exception passes. *)
Definition load (self : Search) (fs : filesystem) (checkpoint_path : string)
    (pruner_arg : option Pruner) : Search * option Pruner * result unit :=
  match load_dict fs checkpoint_path with
  | Raise e => (self, pruner_arg, Raise e)
  | Ok state_dict =>
      let '(self, pruner_arg, r) := load_body self state_dict pruner_arg in
      match r with
      | Raise (KeyError k) =>
          (self, pruner_arg,
           Raise (ValueError (MsgCouldNotParseFile checkpoint_path (str_KeyError k))))
      | _ => (self, pruner_arg, r)
      end
  end.

(** ** [register_int] *)

(** [np.iinfo(np.int32).min] and [np.iinfo(np.int32).max] *)
Definition int32_min : Z := - 2 ^ 31.
Definition int32_max : Z := 2 ^ 31 - 1.

(** The arguments of the constructor call [IntParameter(param_shape, lb,
    ub, init, multiple_of, mutation_fn, seeding_fn)], for scalar bounds.
    [mutation_fn] "gets called with the value of the current best solution
    and returns a mutated value"; [seeding_fn] is called without arguments
    (here: with the entropy of the call). *)
Record IntParameter : Type := mkIntParameter {
  ip_shape : option (list nat);
  ip_lb : option Z;
  ip_ub : option Z;
  ip_init : option Z;
  ip_multiple_of : option Z;
  ip_mutation_fn : option (Z -> Z);
  ip_seeding_fn : option (nat -> Z)
}.

(** [PowerOfIntParameter(shape, lb, ub, init, power_of, multiple_of,
    mutation_fn, seeding_fn)] *)
Record PowerOfIntParameter : Type := mkPowerOfIntParameter {
  pp_shape : option (list nat);
  pp_lb : option Z;
  pp_ub : option Z;
  pp_init : option Z;
  pp_power_of : Z;
  pp_multiple_of : option Z;
  pp_mutation_fn : option (Z -> Z);
  pp_seeding_fn : option (nat -> Z)
}.

Inductive registered_int : Type :=
| IsInt (p : IntParameter)
| IsPowerOfInt (p : PowerOfIntParameter).

Definition bounds_of (r : registered_int) : option Z * option Z :=
  match r with
  | IsInt p => (ip_lb p, ip_ub p)
  | IsPowerOfInt p => (pp_lb p, pp_ub p)
  end.

(** Modelled from the spec: [sanitize_bounds] of [pyhopper/utils.py] is not
    part of [search.py]. The docstring of [register_int]: a lone [lb] is
    used as upper bound with a lower bound of 0; section 4.1: bounds must be
    well-formed, lower at most upper where both are given, anything else
    is a configuration error (also the pair 0, [lb] of a lone negative
    [lb]). *)
Definition sanitize_bounds (lb ub : option Z) : result (option Z * option Z) :=
  match lb, ub with
  | Some l, None => if l <? 0 then Raise (ValueError MsgBounds) else Ok (Some 0, Some l)
  | Some l, Some u => if u <? l then Raise (ValueError MsgBounds) else Ok (Some l, Some u)
  | None, _ => Ok (lb, ub)
  end.

(** Modelled from the spec: [infer_shape] of [pyhopper/utils.py]; scalar
    bounds and a scalar initial value have no array shape. *)
Definition infer_shape (shape : option (list nat)) (init lb ub : option Z)
  : option (list nat) := None.

Section RegisterInt.
(** The constructors [IntParameter(...)] and [PowerOfIntParameter(...)]
    of [pyhopper/parameters.py] validate their arguments and may raise;
    the validation is not part of [search.py] and is taken as it comes:
    [register_int] is followed for any behaviour of it. Its arguments
    here: [lb], [ub], [init], ([power_of],) [multiple_of]. *)
Variable IntParameter_check :
  option Z -> option Z -> option Z -> option Z -> result unit.
Variable PowerOfIntParameter_check :
  option Z -> option Z -> option Z -> Z -> option Z -> result unit.

Definition register_int (lb ub init multiple_of power_of : option Z)
    (shape : option (list nat)) (seeding_fn : option (nat -> Z))
    (mutation_fn : option (Z -> Z)) : result registered_int :=
  let '(lb, ub) :=
    match lb, ub with
    | None, None => (Some int32_min, Some int32_max)
    | _, _ => (lb, ub)
    end in
  b <-- sanitize_bounds lb ub ;;
  let '(lb, ub) := b in
  let param_shape :=
    match shape with
    | None => infer_shape shape init lb ub
    | Some _ => shape
    end in
  match power_of with
  | Some power_of =>
      if negb ((power_of =? 1) || (power_of =? 2)) then
        Raise (ValueError (MsgPowerOfUnsupported power_of))
      else
        _ <-- PowerOfIntParameter_check lb ub init power_of multiple_of ;;
        Ok (IsPowerOfInt
              (mkPowerOfIntParameter shape lb ub init power_of multiple_of
                 mutation_fn seeding_fn))
  | None =>
      _ <-- IntParameter_check lb ub init multiple_of ;;
      Ok (IsInt (mkIntParameter param_shape lb ub init multiple_of mutation_fn
                   seeding_fn))
  end.
End RegisterInt.

(** [np.clip(v, lb, ub)] with optional bounds *)
Definition clip_to_bounds (lb ub : option Z) (v : Z) : Z :=
  let v := match lb with Some l => Z.max l v | None => v end in
  match ub with Some u => Z.min u v | None => v end.

Section IntSampling.
(** the built-in strategies of an integer parameter: a draw for given
    bounds, and a draw near a reference value at a temperature; those of
    a power-of parameter get the power as well *)
Variable default_sample : option Z -> option Z -> nat -> Z.
Variable default_mutate : option Z -> option Z -> Z -> Q -> nat -> Z.
Variable power_sample : Z -> option Z -> option Z -> nat -> Z.
Variable power_mutate : Z -> option Z -> option Z -> Z -> Q -> nat -> Z.

(** Modelled from the spec: [IntParameter.sample] and
    [IntParameter.mutate] of [pyhopper/parameters.py] are not part of
    [search.py]. Section 3 and the docstring of [register_int]: a
    [seeding_fn] or [mutation_fn] given by the caller overwrites the
    built-in strategy; sections 3 and 4.1: the bounds are an attribute of
    the parameter and [sample()] returns a value respecting them, so the
    value of either strategy is brought into the bounds. *)
Definition IntParameter_sample (p : IntParameter) (rnd : nat) : Z :=
  clip_to_bounds (ip_lb p) (ip_ub p)
    match ip_seeding_fn p with
    | Some f => f rnd
    | None => default_sample (ip_lb p) (ip_ub p) rnd
    end.

Definition IntParameter_mutate (p : IntParameter) (v : Z) (temperature : Q)
    (rnd : nat) : Z :=
  clip_to_bounds (ip_lb p) (ip_ub p)
    match ip_mutation_fn p with
    | Some f => f v
    | None => default_mutate (ip_lb p) (ip_ub p) v temperature rnd
    end.

(** Modelled from the spec: [PowerOfIntParameter.sample] and
    [PowerOfIntParameter.mutate], not part of [search.py] either. Section
    4.1: the specialization still satisfies the generic contract of
    [sample] and [mutate]. *)
Definition PowerOfIntParameter_sample (p : PowerOfIntParameter) (rnd : nat) : Z :=
  clip_to_bounds (pp_lb p) (pp_ub p)
    match pp_seeding_fn p with
    | Some f => f rnd
    | None => power_sample (pp_power_of p) (pp_lb p) (pp_ub p) rnd
    end.

Definition PowerOfIntParameter_mutate (p : PowerOfIntParameter) (v : Z)
    (temperature : Q) (rnd : nat) : Z :=
  clip_to_bounds (pp_lb p) (pp_ub p)
    match pp_mutation_fn p with
    | Some f => f v
    | None => power_mutate (pp_power_of p) (pp_lb p) (pp_ub p) v temperature rnd
    end.

(** [sample()] and [mutate(v, temperature)] of the parameter
    [register_int] returned *)
Definition registered_sample (r : registered_int) (rnd : nat) : Z :=
  match r with
  | IsInt p => IntParameter_sample p rnd
  | IsPowerOfInt p => PowerOfIntParameter_sample p rnd
  end.

Definition registered_mutate (r : registered_int) (v : Z) (temperature : Q)
    (rnd : nat) : Z :=
  match r with
  | IsInt p => IntParameter_mutate p v temperature rnd
  | IsPowerOfInt p => PowerOfIntParameter_mutate p v temperature rnd
  end.
End IntSampling.

(** a value respects optional bounds *)
Definition within (lb ub : option Z) (v : Z) : Prop :=
  (forall l, lb = Some l -> l <= v) /\ (forall u, ub = Some u -> v <= u).

(** ** Definitions used in the statements *)

(** the context after the pruner was told about a result *)
Definition ctx_told (ctx : RunContext) (cr : CandidateResult) : RunContext :=
  match pruner ctx with
  | Some p =>
      if negb (is_nan cr) then
        ctx_set_pruner
          (Some (pruner_append p (intermediate_results cr) (was_pruned cr))) ctx
      else ctx
  | None => ctx
  end.

Definition is_remote_abort (e : exn) : bool :=
  match e with ValueError MsgRemoteException => true | _ => false end.

Definition is_teardown (ev : event) : bool :=
  match ev with PoolShutdown => true | _ => false end.

(** the number of fatal aborts among the exceptions raised *)
Definition aborts (es : list exn) : nat := length (List.filter is_remote_abort es).

(** the number of times the worker pool was torn down *)
Definition teardowns (s : Search) : nat := length (List.filter is_teardown (trace s)).

Definition shut (te : TaskManager) : TaskManager := mkTaskManager (n_jobs te) true.

(** A small search space and a run in progress, for the examples. *)
Definition demo_param : PyParameter :=
  mkParameter (VAtom (SInt 3))
    (fun rnd => VAtom (SInt (Z.of_nat rnd)))
    (fun v t rnd => VAtom (SInt (100 + Z.of_nat rnd))).

Definition demo_space : node :=
  NDict [("x", NParam demo_param); ("c", NConst (SInt 7))].

Definition demo_schedule : ScheduledRun := mkScheduledRun 0 (Some 5%nat) 0 1 0 false.

Definition demo_ctx : RunContext :=
  mkRunContext "max" None true demo_schedule [CbUser 0] None false.

Definition demo_search : Search :=
  set_run_context (Some demo_ctx) (Search_init demo_space).

Definition demo_info : ParamInfo := mkParamInfo LOCAL_SAMPLING false false.

Definition demo_candidate : pyval :=
  VDict [("x", VAtom (SInt 4)); ("c", VAtom (SInt 7))].

Definition constant_objective (v : Q) (candidate : pyval) : CandidateResult :=
  mkCandidateResult v None false false None.

(** the object in the middle of a run, after the baseline was evaluated *)
Definition demo_mid_run : Search :=
  fst (_submit_candidate (constant_objective 3) demo_search INIT
         (_best_solution demo_search)).

(** a result that is flagged both NaN and pruned *)
Definition demo_nan_pruned : CandidateResult := mkCandidateResult 0 None true true None.

(** the hook a NaN-tolerating run calls for a result *)
Definition nan_hook (cr : CandidateResult) (candidate : pyval) (info : ParamInfo)
    (c : callback) : event :=
  if was_pruned cr
  then OnEvaluatePruned c candidate (mkParamInfo (info_type info) true (info_is_nan info))
  else OnEvaluateNan c candidate (mkParamInfo (info_type info) (info_is_pruned info) true).

Definition is_nan_hook (ev : event) : bool :=
  match ev with OnEvaluateNan _ _ _ => true | _ => false end.

(** the required keys of a checkpoint record *)
Definition required_keys : list string :=
  ["run_context"; "cache"; "history"; "best_f"; "best_solution"].

(** every value that is present under a key has the type [save] gives it *)
Definition well_typed (state_dict : gmap string ckpt_value) : Prop :=
  (forall v, state_dict !! "run_context" = Some v ->
     v = CkNone \/ exists d s, v = CkRunContext d s)
  /\ (forall v, state_dict !! "cache" = Some v -> exists c, v = CkCache c)
  /\ (forall v, state_dict !! "history" = Some v -> exists h, v = CkHistory h)
  /\ (forall v, state_dict !! "best_f" = Some v -> v = CkNone \/ exists q, v = CkFloat q)
  /\ (forall v, state_dict !! "best_solution" = Some v -> exists s, v = CkSolution s)
  /\ (forall v, state_dict !! "pruner" = Some v -> exists l, v = CkPruner l).

(** a checkpoint written in the middle of a run, with its cache entry lost *)
Definition demo_record_without_cache : gmap string ckpt_value :=
  <["run_context" := CkRunContext "max" demo_schedule]>
    (<["history" := CkHistory []]>
       (<["best_f" := CkFloat 3]>
          (<["best_solution" := CkSolution demo_candidate]> ∅))).

Definition demo_fs : filesystem := <["run.ckpt" := demo_record_without_cache]> ∅.

(** [register_int(seeding_fn=lambda: 2**31)]: no bounds, a seeding
    strategy of the caller *)
Definition demo_seeded_int : IntParameter :=
  mkIntParameter None (Some int32_min) (Some int32_max) None None None
    (Some (fun _ => 2 ^ 31)).

(** constructors that accept their arguments *)
Definition lenient_int_check (lb ub init multiple_of : option Z) : result unit :=
  Ok tt.

Definition lenient_check (lb ub init : option Z) (power_of : Z)
    (multiple_of : option Z) : result unit := Ok tt.

(** a built-in draw: the lower bound *)
Definition lowest_draw (lb ub : option Z) (rnd : nat) : Z :=
  match lb with Some l => l | None => 0 end.

(** a result that carries an error, and one that is NaN only *)
Definition demo_error : CandidateResult :=
  mkCandidateResult 0 (Some "ZeroDivisionError") false false None.

Definition demo_nan : CandidateResult := mkCandidateResult 0 None true false None.

(** a search space with a constant [None], as in [Search(x=..., k=None)] *)
Definition demo_space_none : node :=
  NDict [("x", NParam demo_param); ("k", NConst SNone)].

(** the shuffle that leaves the mask as it is *)
Definition no_shuffle (rnd : nat) (mask : list bool) : list bool := mask.

(** the number of set bits of a mask *)
Definition count_true (bits : list bool) : nat := length (List.filter id bits).

Fixpoint forallb_i {A} (f : nat -> A -> bool) (i : nat) (l : list A) : bool :=
  match l with
  | [] => true
  | x :: rest => f i x && forallb_i f (S i) rest
  end.

(** no constant [None] in the tree *)
Fixpoint none_free (nd : node) : bool :=
  match nd with
  | NConst SNone => false
  | NDict d => forallb (fun kv => none_free (snd kv)) d
  | NList l => forallb none_free l
  | _ => true
  end.

(** the nesting depth of the tree: the calls a traversal nests *)
Fixpoint height (nd : node) : nat :=
  match nd with
  | NDict d => S (foldr (fun kv h => Nat.max (height (snd kv)) h) 0%nat d)
  | NList l => S (foldr (fun v h => Nat.max (height v) h) 0%nat l)
  | _ => 1%nat
  end.

(** the best solution has an entry wherever the tree has a child *)
Fixpoint shape_ok (nd : node) (best : pyval) : bool :=
  match nd with
  | NDict d =>
      forallb (fun kv => match py_getitem best (fst kv) with
                         | Ok bk => shape_ok (snd kv) bk
                         | Raise _ => false
                         end) d
  | NList l =>
      forallb_i (fun i v => match py_index best i with
                            | Ok bi => shape_ok v bi
                            | Raise _ => false
                            end) 0 l
  | _ => true
  end.

(** the candidate has the shape of the tree and the constants of the
    tree at their places *)
Fixpoint constants_kept (nd : node) (v : pyval) : Prop :=
  match nd with
  | NParam _ => True
  | NConst a => v = VAtom a
  | NDict d =>
      match v with
      | VDict vs =>
          (fix items (d : list (string * node)) (vs : list (string * pyval)) : Prop :=
             match d, vs with
             | [], [] => True
             | (k, c) :: d', (k', x) :: vs' =>
                 k' = k /\ constants_kept c x /\ items d' vs'
             | _, _ => False
             end) d vs
      | _ => False
      end
  | NList l =>
      match v with
      | VList vs =>
          (fix elems (l : list node) (vs : list pyval) : Prop :=
             match l, vs with
             | [], [] => True
             | c :: l', x :: vs' => constants_kept c x /\ elems l' vs'
             | _, _ => False
             end) l vs
      | _ => False
      end
  end.

(** what a call has to do for a child so that the comprehension goes
    through: consume the bits of the child from the end of the mask, call
    [mutate] once per set bit, keep the constants *)
Definition consumes
    (f : node -> pyval -> list bool -> nat -> result (pyval * list bool * nat))
    (nd : node) : Prop :=
  forall bk pre bits calls,
    shape_ok nd bk = true -> length bits = _count_free_parameters_rec nd ->
    exists v, f nd bk (pre ++ bits) calls = Ok (v, pre, (calls + count_true bits)%nat)
              /\ constants_kept nd v.

(** the number of evaluations carried out so far: every evaluation that
    returns commits its candidate to the cache, once *)
Definition evaluations (self : Search) : nat := length (cache_committed (_f_cache self)).

(** What holds at the head of the loop of a run with a budget of
    [max] steps on a constant objective, after [k] steps. *)
Definition loop_inv (params : node) (v : Q) (en : bool) (max k : nat)
    (self : Search) : Prop :=
  _params self = params
  /\ _free_param_count self = _count_free_parameters_rec params
  /\ _best_solution self = _get_initial_solution params
  /\ _best_f self = Some v
  /\ _manually_queued_candidates self = []
  /\ (1 <= evaluations self <= k)%nat
  /\ cache_enabled (_f_cache self) = en
  /\ (en = false -> evaluations self = k)
  /\ exists ctx,
       _run_context self = Some ctx /\ task_executor ctx = None
       /\ sched_max_steps (schedule ctx) = Some max
       /\ sched_step (schedule ctx) = k
       /\ sched_interrupted (schedule ctx) = false.

(** An entry of the queued candidate next to the entry of the best
    solution it comes from: the same key; the value of the best solution
    where the guess has no entry, the merge of the two where it has. *)
Definition filled_from_best (dc : list (string * pyval)) (kb kx : string * pyval)
  : Prop :=
  fst kx = fst kb
  /\ match dict_get dc (fst kb) with
     | None => snd kx = snd kb
     | Some c => _enqueue_rec (snd kb) c = Ok (snd kx)
     end.

Definition is_manual_start (ev : event) : bool :=
  match ev with
  | OnEvaluateStart _ _ info =>
      match info_type info with MANUALLY_ADDED => true | _ => false end
  | _ => false
  end.

Definition is_drawn_start (ev : event) : bool :=
  match ev with
  | OnEvaluateStart _ _ info =>
      match info_type info with
      | RANDOM_SEEDING | LOCAL_SAMPLING => true
      | _ => false
      end
  | _ => false
  end.

(** [run] up to the call of [on_search_start], and its end after the loop *)
Definition run_prepared (self : Search) (a : RunArgs) (sched : ScheduledRun)
    (dir : string) : Search :=
  let ctx := mkRunContext dir (arg_pruner a) (arg_ignore_nans a) sched
               (arg_callbacks a ++ (if arg_keep_history a then [CbHistory] else []))
               None false in
  let self := set_run_context (Some ctx) (set_caught_exception false self) in
  let self :=
    set_f_cache (Cache.set_enable (_f_cache self) (arg_enable_rejection_cache a)) self in
  notify ctx OnSearchStart self.

Definition run_finished (self : Search) : Search :=
  set_run_context None
    match _run_context self with
    | Some ctx => notify ctx OnSearchEnd
                    (set_run_context (Some (ctx_set_terminate true ctx)) self)
    | None => self
    end.

(** a first run of one step, then [enqueue({"x": 3})], then a run of two
    steps *)
Definition demo_after_first_run : option (Search * result pyval) :=
  run no_shuffle 10 (constant_objective 3) (Search_init demo_space) (default_args 1) 5 0.

Definition demo_enqueued : result Search :=
  match demo_after_first_run with
  | Some (s, _) => enqueue s (VDict [("x", VAtom (SInt 3))])
  | None => Raise RecursionError
  end.

Definition demo_after_second_run : option (Search * result pyval) :=
  match demo_enqueued with
  | Ok s => run no_shuffle 10 (constant_objective 3) s (default_args 2) 5 1
  | Raise e => None
  end.

(** the keys of every dict of the tree are distinct, as they are in a
    Python dict *)
Fixpoint distinct (ks : list string) : bool :=
  match ks with
  | [] => true
  | k :: rest => negb (existsb (String.eqb k) rest) && distinct rest
  end.

Fixpoint keys_unique (nd : node) : bool :=
  match nd with
  | NDict d => distinct (map fst d) && forallb (fun kv => keys_unique (snd kv)) d
  | NList l => forallb keys_unique l
  | _ => true
  end.

(** ** Definitions for further properties *)

(** the candidate whose parameters hold the draws of [sample()] and whose
    constants are those of the tree *)
Fixpoint sampled (rnd : nat) (nd : node) : pyval :=
  match nd with
  | NParam p => sample p rnd
  | NDict d => VDict (map (fun kv => (fst kv, sampled rnd (snd kv))) d)
  | NList l => VList (map (sampled rnd) l)
  | NConst a => VAtom a
  end.

(** the nesting depth of a candidate, and distinct keys in all its dicts *)
Fixpoint pyval_height (v : pyval) : nat :=
  match v with
  | VAtom _ => 1%nat
  | VList l => S (foldr (fun x h => Nat.max (pyval_height x) h) 0%nat l)
  | VDict d => S (foldr (fun kx h => Nat.max (pyval_height (snd kx)) h) 0%nat d)
  end.

Fixpoint pyval_keys_unique (v : pyval) : bool :=
  match v with
  | VAtom _ => true
  | VList l => forallb pyval_keys_unique l
  | VDict d =>
      distinct (map fst d) && forallb (fun kx => pyval_keys_unique (snd kx)) d
  end.

(** [d[key] = value] on a dict: the value of a key that is there is
    replaced at its place, a new key is appended *)
Fixpoint dict_set {A} (d : list (string * A)) (k : string) (v : A)
  : list (string * A) :=
  match d with
  | [] => [(k, v)]
  | (k', v') :: rest =>
      if String.eqb k' k then (k', v) :: rest else (k', v') :: dict_set rest k v
  end.

Definition set_params (nd : node) (s : Search) : Search :=
  mkSearch nd (_best_solution s) (_free_param_count s) (_best_f s) (_f_cache s)
    (_run_context s) (_manually_queued_candidates s) (_history s)
    (_checkpoint_path s) (_caught_exception s) (trace s).
Definition set_free_param_count (n : nat) (s : Search) : Search :=
  mkSearch (_params s) (_best_solution s) n (_best_f s) (_f_cache s)
    (_run_context s) (_manually_queued_candidates s) (_history s)
    (_checkpoint_path s) (_caught_exception s) (trace s).

(** [Search._count_free_parameters] *)
Definition _count_free_parameters (self : Search) : nat :=
  _count_free_parameters_rec (_params self).

(** [Search.__setitem__]: the object after the call and whether the call
    returned or raised *)
Definition __setitem__ (self : Search) (key : string) (value : node)
  : Search * result unit :=
  match _params self with
  | NDict d =>
      let self := set_params (NDict (dict_set d key value)) self in
      let self := set_free_param_count (_count_free_parameters self) self in
      match _best_f self with
      | None =>
          match _best_solution self with
          | VDict db =>
              (set_best (VDict (dict_set db key (_get_initial_solution value)))
                 (_best_f self) self, Ok tt)
          | _ => (self, Raise TypeError)
          end
      | Some _ => (self, Ok tt)
      end
  | _ => (self, Raise TypeError)
  end.

(** [a] is at least as good as [b] in the direction of the run *)
Definition no_worse (dir : string) (a b : Q) : Prop :=
  (dir = "max" -> (b <= a)%Q) /\ (dir = "min" -> (a <= b)%Q).

(** ** [register_float] *)

(** The ValueErrors of [register_float], by their message: [log] (or
    [precision]) together with [fmt]; a format string that [int] does not
    parse, with the string the message shows and [str(e)]; logarithmic mode
    without bounds; logarithmic mode with a bound that is not positive.
    [ErrBounds] is whatever [sanitize_bounds] raises. *)
Inductive float_error : Type :=
| ErrBounds (e : exn)
| ErrLogAndFmt
| ErrFormat (fmt : string) (detail : string)
| ErrLogWithoutBounds
| ErrLogNotPositive.

(** The arguments of the constructor calls [FloatParameter(param_shape, lb,
    ub, init, precision, mutation_fn, seeding_fn)] and
    [LogSpaceFloatParameter(...)], for scalar bounds. *)
Record FloatParameter : Type := mkFloatParameter {
  fp_shape : option (list nat);
  fp_lb : option Q;
  fp_ub : option Q;
  fp_init : option Q;
  fp_precision : option Z;
  fp_mutation_fn : option (Q -> Q);
  fp_seeding_fn : option (nat -> Q)
}.

Inductive registered_float : Type :=
| IsFloat (p : FloatParameter)
| IsLogSpaceFloat (p : FloatParameter).

Definition float_param (r : registered_float) : FloatParameter :=
  match r with IsFloat p | IsLogSpaceFloat p => p end.

(** [x is not None] *)
Definition not_None {A} (x : option A) : bool :=
  match x with Some _ => true | None => false end.

(** the truth value of [log] in [if log and ...]: [None] and [False] are
    false *)
Definition truthy (log : option bool) : bool :=
  match log with Some b => b | None => false end.

(** [s.endswith(c)] and [s.replace(c, '')] for a one-character [c] *)
Fixpoint endswith (s : string) (c : Ascii.ascii) : bool :=
  match s with
  | EmptyString => false
  | String c' EmptyString => Ascii.eqb c' c
  | String _ rest => endswith rest c
  end.

Fixpoint remove_char (c : Ascii.ascii) (s : string) : string :=
  match s with
  | EmptyString => EmptyString
  | String c' rest =>
      if Ascii.eqb c' c then remove_char c rest else String c' (remove_char c rest)
  end.

(** [fmt.replace(':', '').replace('.', '').replace('g', '').replace('f', '')] *)
Definition strip_format (fmt : string) : string :=
  remove_char "f"%char
    (remove_char "g"%char (remove_char "."%char (remove_char ":"%char fmt))).

Section RegisterFloat.
(** [sanitize_bounds] and [infer_shape] of [pyhopper/utils.py] on float
    bounds, and Python's [int] on a string (the value, or [str(e)] of its
    ValueError): [register_float] is followed for any behaviour of the
    three. *)
Variable sanitize_float_bounds : option Q -> option Q -> result (option Q * option Q).
Variable infer_float_shape : option Q -> option Q -> option Q -> option (list nat).
Variable py_int : string -> string + Z.

Definition register_float (lb ub : option Q) (fmt : option string) (init : option Q)
    (log : option bool) (precision : option Z) (shape : option (list nat))
    (mutation_fn : option (Q -> Q)) (seeding_fn : option (nat -> Q))
  : float_error + registered_float :=
  match sanitize_float_bounds lb ub with
  | Raise e => inl (ErrBounds e)
  | Ok (lb, ub) =>
  if not_None log && not_None fmt then inl ErrLogAndFmt
  else if not_None precision && not_None fmt then inl ErrLogAndFmt
  else
  match
    match fmt with
    | Some fmt =>
        let log := if endswith fmt "g"%char then Some true else log in
        let fmt := strip_format fmt in
        match py_int fmt with
        | inr n => inr (log, Some n)
        | inl detail => inl (ErrFormat fmt detail)
        end
    | None => inr (log, precision)
    end
  with
  | inl e => inl e
  | inr (log, precision) =>
  if truthy log && (negb (not_None lb) || negb (not_None ub)) then
    inl ErrLogWithoutBounds
  else if truthy log
          && match lb, ub with
             | Some l, Some u => Qle_bool l 0 || Qle_bool u 0
             | _, _ => false
             end then
    inl ErrLogNotPositive
  else
    let param_shape :=
      match shape with
      | None => infer_float_shape init lb ub
      | Some _ => shape
      end in
    if truthy log then
      inr (IsLogSpaceFloat
             (mkFloatParameter param_shape lb ub init precision mutation_fn seeding_fn))
    else
      inr (IsFloat
             (mkFloatParameter param_shape lb ub init precision mutation_fn seeding_fn))
  end
  end.
End RegisterFloat.

(** Further objects for the examples: a Search object that has a best
    value, a checkpoint record without [best_f], bounds that pass as they
    are, and a search space of constants. *)
Definition demo_evaluated : Search :=
  set_best demo_candidate (Some 3%Q) (Search_init demo_space).

Definition demo_record_without_best_f : gmap string ckpt_value :=
  <["run_context" := CkNone]>
    (<["cache" := CkCache Cache.empty]> (<["history" := CkHistory []]> ∅)).

Definition demo_fs_without_best_f : filesystem :=
  <["run.ckpt" := demo_record_without_best_f]> ∅.

Definition bounds_as_given (lb ub : option Q) : result (option Q * option Q) :=
  Ok (lb, ub).

Definition no_shape (init lb ub : option Q) : option (list nat) := None.

Definition int_is_one (s : string) : string + Z := inr 1.

Definition demo_log_float : FloatParameter :=
  mkFloatParameter None (Some (1 # 10)) (Some 10%Q) None None None None.

Definition demo_constants : node := NDict [("c", NConst (SInt 7))].

Definition demo_results : list (pyval * ParamInfo * CandidateResult) :=
  [(demo_candidate, demo_info, constant_objective 5 demo_candidate);
   (demo_candidate, demo_info, demo_nan_pruned);
   (demo_candidate, demo_info, constant_objective 1 demo_candidate)].

Definition demo_pruned : CandidateResult := mkCandidateResult 100 None false true None.

(** The candidate that a list of bits describes, one bit per parameter in
    the order in which the traversal meets them: a parameter whose bit is
    set has the value of [mutate] for the entry of the best solution at
    its place, any other parameter has that entry itself; the constants
    are those of the tree. *)
Section MaskedLoops.
Variable rec : node -> pyval -> list bool -> pyval.

Fixpoint masked_items (best : pyval) (d : list (string * node)) (bits : list bool)
  : list (string * pyval) :=
  match d with
  | [] => []
  | (k, c) :: rest =>
      (k, rec c match py_getitem best k with Ok bk => bk | Raise _ => VNone end
            (take (_count_free_parameters_rec c) bits))
      :: masked_items best rest (drop (_count_free_parameters_rec c) bits)
  end.

Fixpoint masked_elems (best : pyval) (l : list node) (i : nat) (bits : list bool)
  : list pyval :=
  match l with
  | [] => []
  | c :: rest =>
      rec c match py_index best i with Ok bi => bi | Raise _ => VNone end
        (take (_count_free_parameters_rec c) bits)
      :: masked_elems best rest (S i) (drop (_count_free_parameters_rec c) bits)
  end.
End MaskedLoops.

Fixpoint masked (t : Q) (rnd : nat) (nd : node) (best : pyval) (bits : list bool)
    {struct nd} : pyval :=
  match nd with
  | NParam p =>
      match bits with
      | true :: _ => mutate p best t rnd
      | _ => best
      end
  | NDict d => VDict (masked_items (masked t rnd) best d bits)
  | NList l => VList (masked_elems (masked t rnd) best l 0 bits)
  | NConst a => VAtom a
  end.

(** what a call does for a child: it consumes the bits of the child from
    the end of the mask and returns the candidate these bits describe *)
Definition consumes_masked (t : Q) (rnd : nat)
    (f : node -> pyval -> list bool -> nat -> result (pyval * list bool * nat))
    (nd : node) : Prop :=
  forall bk pre bits calls,
    shape_ok nd bk = true -> length bits = _count_free_parameters_rec nd ->
    f nd bk (pre ++ bits) calls
    = Ok (masked t rnd nd bk (rev bits), pre, (calls + count_true bits)%nat).

(** a search space with three parameters and a constant *)
Definition demo_space3 : node :=
  NDict [("x", NParam demo_param); ("y", NParam demo_param);
         ("c", NConst (SInt 7)); ("z", NParam demo_param)].

(** * Properties *)

(** ** The duplicate branch of the loop *)

Lemma Qltb_lt a b : Qltb a b = true <-> (a < b)%Q.
Proof.
  unfold Qltb. rewrite negb_true_iff, <- not_true_iff_false, Qle_bool_iff.
  split; [apply Qnot_le_lt | apply Qlt_not_le].
Qed.

Lemma Qltb_irrefl_eq a b : (a == b)%Q -> Qltb a b = false /\ Qltb b a = false.
Proof.
  intros E. split; apply not_true_iff_false; rewrite Qltb_lt; rewrite E;
    apply Qlt_irrefl.
Qed.

Lemma py_max_ge_r a b : (b <= py_max a b)%Q.
Proof.
  unfold py_max. destruct (Qlt_le_dec a b); [apply Qle_refl | assumption].
Qed.

Lemma py_max_ge_l a b : (a <= py_max a b)%Q.
Proof.
  unfold py_max. destruct (Qlt_le_dec a b); [now apply Qlt_le_weak | apply Qle_refl].
Qed.

(** C1. After a duplicate the loop computes
    [max(current_temperature * 1.05, 1)]: one is a floor of the new
    temperature, not a cap. From a temperature of 1 a single rejection
    gives 1.05, above 1; after any rejection the temperature is at least 1,
    whatever it was before (0.5 becomes 1, not 0.525); and from 1 on every
    further rejection multiplies it by 1.05. *)
Theorem reject_temperature_floor_not_cap :
  (reject_temperature 1 == 105 # 100)%Q
  /\ (1 < reject_temperature 1)%Q
  /\ (reject_temperature (1 # 2) == 1)%Q
  /\ (forall t, 1 <= reject_temperature t)%Q
  /\ (forall t, 1 <= t -> reject_temperature t == t * (105 # 100))%Q.
Proof.
  split; [reflexivity|]. split; [reflexivity|]. split; [reflexivity|].
  split.
  - intros t. apply py_max_ge_r.
  - intros t Ht. unfold reject_temperature, py_max.
    destruct (Qlt_le_dec (t * (105 # 100)) 1) as [Hlt|Hle]; [|reflexivity].
    exfalso. apply (Qlt_irrefl 1).
    apply Qle_lt_trans with (t * (105 # 100))%Q; [|exact Hlt].
    apply Qle_trans with (1 * (105 # 100))%Q; [discriminate|].
    apply Qmult_le_compat_r; [exact Ht | discriminate].
Qed.

(** ** Updating the best solution *)

Lemma improves_spec best_f dir v :
  improves best_f dir v = true <->
  best_f = None
  \/ exists bf, best_f = Some bf
       /\ ((dir = "max" /\ (bf < v)%Q) \/ (dir = "min" /\ (v < bf)%Q)).
Proof.
  unfold improves. destruct best_f as [bf|].
  - rewrite orb_true_iff, !andb_true_iff, !String.eqb_eq, !Qltb_lt. split.
    + intros H. right. exists bf. split; [reflexivity | exact H].
    + intros [H | (bf' & E & H)]; [discriminate | congruence].
  - split; [now left | reflexivity].
Qed.

Lemma improves_tie bf dir v : (v == bf)%Q -> improves (Some bf) dir v = false.
Proof.
  intros E. unfold improves. destruct (Qltb_irrefl_eq v bf E) as [H1 H2].
  rewrite H1, H2, !andb_false_r. reflexivity.
Qed.

Lemma best_after_record_history ctx c v s :
  _best_solution (record_history ctx c v s) = _best_solution s
  /\ _best_f (record_history ctx c v s) = _best_f s.
Proof. unfold record_history. destruct (existsb _ _); split; reflexivity. Qed.

Lemma ctx_told_same ctx cr :
  direction (ctx_told ctx cr) = direction ctx
  /\ callbacks (ctx_told ctx cr) = callbacks ctx
  /\ task_executor (ctx_told ctx cr) = task_executor ctx
  /\ schedule (ctx_told ctx cr) = schedule ctx.
Proof.
  unfold ctx_told. destruct (pruner ctx); [destruct (negb _)|]; repeat split.
Qed.

(** What [_async_result_ready] does with an admissible result. *)
Lemma async_admissible self ctx candidate info cr :
  _run_context self = Some ctx ->
  error cr = None -> is_nan cr = false -> was_pruned cr = false ->
  let s1 :=
    record_history (ctx_told ctx cr) candidate (value cr)
      (notify (ctx_told ctx cr) (fun c => OnEvaluateEnd c candidate (value cr) info)
         (set_run_context (Some (ctx_told ctx cr))
            (set_f_cache (Cache.commit (_f_cache self) candidate (value cr)) self))) in
  _async_result_ready self candidate info cr =
    if improves (_best_f self) (direction ctx) (value cr)
    then (notify (ctx_told ctx cr) (fun c => OnNewBest c candidate (value cr) info)
            (set_best candidate (Some (value cr)) s1), Ok tt)
    else (s1, Ok tt).
Proof.
  intros Hctx He Hn Hp s1. unfold _async_result_ready.
  rewrite He, Hctx. fold (ctx_told ctx cr). rewrite Hn, Hp. cbn [andb negb].
  fold s1.
  assert (Hf : _best_f s1 = _best_f self).
  { subst s1. unfold record_history. destruct (existsb _ _); reflexivity. }
  rewrite Hf, (proj1 (ctx_told_same ctx cr)). reflexivity.
Qed.

(** C3. For an admissible result (no error, not NaN, not pruned) the best
    solution and the best value are replaced by the candidate and its
    value exactly when there is no best value yet, or the direction is
    "max" and the value is strictly greater than the best, or the
    direction is "min" and it is strictly less; otherwise both stay as
    they are, in particular for a value equal to the best. *)
Theorem async_result_ready_replaces_best_iff_strictly_better
    self ctx candidate info cr :
  _run_context self = Some ctx ->
  error cr = None -> is_nan cr = false -> was_pruned cr = false ->
  let self' := fst (_async_result_ready self candidate info cr) in
  let better :=
    _best_f self = None
    \/ exists bf, _best_f self = Some bf
         /\ ((direction ctx = "max" /\ (bf < value cr)%Q)
             \/ (direction ctx = "min" /\ (value cr < bf)%Q)) in
  snd (_async_result_ready self candidate info cr) = Ok tt
  /\ (better -> _best_solution self' = candidate /\ _best_f self' = Some (value cr))
  /\ (~ better ->
      _best_solution self' = _best_solution self /\ _best_f self' = _best_f self)
  /\ (forall bf, _best_f self = Some bf -> (value cr == bf)%Q ->
      _best_solution self' = _best_solution self /\ _best_f self' = _best_f self).
Proof.
  intros Hctx He Hn Hp self' better.
  pose proof (async_admissible self ctx candidate info cr Hctx He Hn Hp) as Heq.
  cbv zeta in Heq. subst self'. rewrite Heq.
  pose proof (improves_spec (_best_f self) (direction ctx) (value cr)) as Hi.
  fold better in Hi.
  destruct (improves (_best_f self) (direction ctx) (value cr)) eqn:E.
  - split; [reflexivity|]. split; [intros _; split; reflexivity|].
    split.
    + intros Hnb. exfalso. apply Hnb, Hi. reflexivity.
    + intros bf Hbf Hv. rewrite Hbf in E.
      rewrite (improves_tie bf (direction ctx) (value cr) Hv) in E. discriminate.
  - split; [reflexivity|]. split.
    + intros Hb. apply Hi in Hb. discriminate.
    + split; intros; cbn [fst]; unfold record_history;
        destruct (existsb _ _); split; reflexivity.
Qed.

(** ** Error results *)

Lemma async_error_first self ctx candidate info cr err :
  _run_context self = Some ctx -> error cr = Some err ->
  _caught_exception self = false ->
  exists self',
    _async_result_ready self candidate info cr
      = (self', Raise (ValueError MsgRemoteException))
    /\ _caught_exception self' = true
    /\ _run_context self' = Some (ctx_set_task_executor (shut <$> task_executor ctx) ctx)
    /\ teardowns self' = (teardowns self + match task_executor ctx with Some _ => 1 | None => 0 end)%nat
    /\ _best_f self' = _best_f self /\ _best_solution self' = _best_solution self.
Proof.
  intros Hctx He Hc. unfold _async_result_ready, _shutdown_worker_processes.
  rewrite He, Hc. cbn [negb]. cbn. rewrite Hctx.
  destruct (task_executor ctx) as [te|] eqn:Hte.
  - eexists. split; [reflexivity|]. cbn. split; [reflexivity|].
    split; [reflexivity|]. split; [|split; reflexivity].
    unfold teardowns. cbn. rewrite !List.filter_app, !length_app. cbn.
    lia.
  - eexists. split; [reflexivity|]. cbn. split; [reflexivity|].
    split.
    + cbn. rewrite Hctx. f_equal. destruct ctx; cbn in *; subst; reflexivity.
    + split; [|split; reflexivity].
      unfold teardowns. cbn. rewrite List.filter_app, length_app. cbn.
      lia.
Qed.

Lemma async_error_later self candidate info cr err :
  error cr = Some err -> _caught_exception self = true ->
  _async_result_ready self candidate info cr = (self, Ok tt).
Proof.
  intros He Hc. unfold _async_result_ready. rewrite He, Hc. reflexivity.
Qed.

Lemma teardowns_emit evs s :
  forallb (fun ev => negb (is_teardown ev)) evs = true ->
  teardowns (emit evs s) = teardowns s.
Proof.
  intros H. unfold teardowns. cbn. rewrite List.filter_app, length_app.
  replace (List.filter is_teardown evs) with (@nil event); [cbn; lia|].
  induction evs as [|ev evs IH]; [reflexivity|].
  cbn in H. apply andb_true_iff in H as [H1 H2]. cbn.
  apply negb_true_iff in H1. rewrite H1. now apply IH.
Qed.

Lemma teardowns_notify ctx hook s :
  (forall c, is_teardown (hook c) = false) ->
  teardowns (notify ctx hook s) = teardowns s.
Proof.
  intros H. unfold notify. apply teardowns_emit.
  induction (callbacks ctx) as [|c cs IH]; [reflexivity|].
  cbn. now rewrite H, IH.
Qed.

Lemma teardowns_set_best a b s : teardowns (set_best a b s) = teardowns s.
Proof. reflexivity. Qed.
Lemma teardowns_set_history h s : teardowns (set_history h s) = teardowns s.
Proof. reflexivity. Qed.
Lemma teardowns_set_run_context c s : teardowns (set_run_context c s) = teardowns s.
Proof. reflexivity. Qed.
Lemma teardowns_set_f_cache c s : teardowns (set_f_cache c s) = teardowns s.
Proof. reflexivity. Qed.

Create Rewrite HintDb teardown.
#[local] Hint Rewrite teardowns_set_best teardowns_set_history
  teardowns_set_run_context teardowns_set_f_cache : teardown.
#[local] Hint Rewrite teardowns_notify using reflexivity : teardown.

(** A result without error changes neither the caught-exception state nor
    the number of teardowns, keeps the run context in place and never
    raises the fatal abort. *)
Lemma async_no_error self ctx candidate info cr :
  _run_context self = Some ctx -> error cr = None ->
  let out := _async_result_ready self candidate info cr in
  _caught_exception (fst out) = _caught_exception self
  /\ teardowns (fst out) = teardowns self
  /\ (exists ctx', _run_context (fst out) = Some ctx')
  /\ (forall e, snd out = Raise e -> is_remote_abort e = false).
Proof.
  intros Hctx He. cbv zeta. unfold _async_result_ready. rewrite He, Hctx.
  fold (ctx_told ctx cr).
  destruct (is_nan cr && negb (ignore_nans ctx)).
  { cbn. repeat split; eauto. intros e [= <-]. reflexivity. }
  destruct (was_pruned cr).
  { cbn [fst snd]. repeat split; eauto.
    - now autorewrite with teardown.
    - intros e [=]. }
  destruct (is_nan cr).
  { cbn [fst snd]. repeat split; eauto.
    - now autorewrite with teardown.
    - intros e [=]. }
  match goal with |- context [improves ?a ?b ?c] => destruct (improves a b c) end;
    cbn [fst snd]; unfold record_history; destruct (existsb _ _);
    repeat split; eauto; try (intros e [=]);
    autorewrite with teardown; reflexivity.
Qed.

Lemma deliver_cons self candidate info cr rest :
  deliver self ((candidate, info, cr) :: rest) =
    let out := _async_result_ready self candidate info cr in
    (fst (deliver (fst out) rest),
     match snd out with
     | Ok _ => snd (deliver (fst out) rest)
     | Raise e => e :: snd (deliver (fst out) rest)
     end).
Proof.
  cbn [deliver]. destruct (_async_result_ready self candidate info cr) as [s r].
  cbn [fst snd]. destruct (deliver s rest). reflexivity.
Qed.

(** However many results are delivered afterwards, and whether or not the
    caller goes on after an exception: once the caught-exception state is
    set there is no abort and no teardown; before, there is at most one. *)
Lemma deliver_at_most_once done :
  forall self ctx, _run_context self = Some ctx ->
  let out := deliver self done in
  (_caught_exception self = true ->
     aborts (snd out) = 0%nat /\ teardowns (fst out) = teardowns self)
  /\ (aborts (snd out) <= 1)%nat
  /\ (teardowns (fst out) <= teardowns self + 1)%nat.
Proof.
  induction done as [|[[candidate info] cr] rest IH]; intros self ctx Hctx.
  { cbn. repeat split; lia. }
  cbv zeta. rewrite deliver_cons. cbv zeta. cbn [fst snd].
  destruct (error cr) as [err|] eqn:He.
  - destruct (_caught_exception self) eqn:Hc.
    + rewrite (async_error_later self candidate info cr err He Hc). cbn [fst snd].
      destruct (IH self ctx Hctx) as (H1 & H2 & H3). cbv zeta in *.
      specialize (H1 Hc). repeat split; try tauto; lia.
    + destruct (async_error_first self ctx candidate info cr err Hctx He Hc)
        as (s' & Heq & Hc' & Hctx' & Ht & _).
      rewrite Heq. cbn [fst snd].
      destruct (IH s' _ Hctx') as (H1 & _). cbv zeta in H1.
      destruct (H1 Hc') as [Ha Htd].
      split; [discriminate|]. unfold aborts in *. cbn.
      rewrite Htd, Ht. destruct (task_executor ctx); split; lia.
  - pose proof (async_no_error self ctx candidate info cr Hctx He) as H.
    cbv zeta in H. destruct H as (Hc & Ht & [ctx' Hctx'] & Hr).
    destruct (IH _ ctx' Hctx') as (H1 & H2 & H3). cbv zeta in *.
    assert (Ha : aborts
                   match snd (_async_result_ready self candidate info cr) with
                   | Ok _ => snd (deliver (fst (_async_result_ready self candidate info cr)) rest)
                   | Raise e => e :: snd (deliver (fst (_async_result_ready self candidate info cr)) rest)
                   end
                 = aborts (snd (deliver (fst (_async_result_ready self candidate info cr)) rest))).
    { destruct (snd (_async_result_ready self candidate info cr)) as [|e] eqn:Er;
        [reflexivity|].
      unfold aborts. cbn. now rewrite (Hr e eq_refl). }
    rewrite Ha, <- Ht. rewrite Hc in H1. repeat split; try tauto; lia.
Qed.

(** C5. Within a run, the first result that carries an error sets the
    caught-exception state, shuts the worker pool down (when there is one)
    and raises the fatal error; a result with an error that arrives while
    the state is set returns without raising and without touching the
    object; so over any sequence of delivered results the fatal abort is
    raised at most once and the pool is torn down at most once. *)
Theorem error_result_aborts_once self ctx candidate info cr err :
  _run_context self = Some ctx -> error cr = Some err ->
  (_caught_exception self = false ->
     exists self',
       _async_result_ready self candidate info cr
         = (self', Raise (ValueError MsgRemoteException))
       /\ _caught_exception self' = true
       /\ _run_context self'
          = Some (ctx_set_task_executor (shut <$> task_executor ctx) ctx)
       /\ teardowns self' = (teardowns self + match task_executor ctx with Some _ => 1 | None => 0 end)%nat)
  /\ (_caught_exception self = true ->
      _async_result_ready self candidate info cr = (self, Ok tt))
  /\ (forall done,
      (aborts (snd (deliver self ((candidate, info, cr) :: done))) <= 1)%nat
      /\ (teardowns (fst (deliver self ((candidate, info, cr) :: done)))
          <= teardowns self + 1)%nat).
Proof.
  intros Hctx He. split; [|split].
  - intros Hc.
    destruct (async_error_first self ctx candidate info cr err Hctx He Hc)
      as (s' & H1 & H2 & H3 & H4 & _).
    exists s'. repeat split; assumption.
  - intros Hc. now apply async_error_later with err.
  - intros done.
    destruct (deliver_at_most_once ((candidate, info, cr) :: done) self ctx Hctx)
      as (_ & H2 & H3).
    split; assumption.
Qed.

(** ** NaN results *)

(** A result flagged NaN and pruned, in a run that ignores NaNs: the
    observers hear [on_evaluate_pruned], not [on_evaluate_nan]. *)
Lemma nan_and_pruned_is_reported_as_pruned :
  is_nan demo_nan_pruned = true /\ error demo_nan_pruned = None
  /\ ignore_nans demo_ctx = true
  /\ trace (fst (_async_result_ready demo_search demo_candidate demo_info demo_nan_pruned))
     = [OnEvaluatePruned (CbUser 0) demo_candidate (mkParamInfo LOCAL_SAMPLING true false)]
  /\ existsb is_nan_hook
       (trace (fst (_async_result_ready demo_search demo_candidate demo_info
                      demo_nan_pruned))) = false.
Proof. repeat split. Qed.

(** C6. A result with the NaN indicator and no error: when NaNs
    are not ignored the call raises the fatal error and leaves the object
    as it was; when they are ignored the candidate is committed to the
    cache, the pruner is not told, the best solution and the best value
    stay, and the call returns after notifying every observer, through
    [on_evaluate_nan] unless the result is also flagged pruned, in which
    case through [on_evaluate_pruned]. *)
Theorem nan_result_fatal_or_ignored self ctx candidate info cr :
  _run_context self = Some ctx -> error cr = None -> is_nan cr = true ->
  let out := _async_result_ready self candidate info cr in
  (ignore_nans ctx = false -> out = (self, Raise (ValueError MsgNaN)))
  /\ (ignore_nans ctx = true ->
      snd out = Ok tt
      /\ _best_solution (fst out) = _best_solution self
      /\ _best_f (fst out) = _best_f self
      /\ _f_cache (fst out) = Cache.commit (_f_cache self) candidate (value cr)
      /\ _run_context (fst out) = Some ctx
      /\ trace (fst out)
         = trace self ++ map (nan_hook cr candidate info) (callbacks ctx)).
Proof.
  intros Hctx He Hn out. subst out. unfold _async_result_ready.
  rewrite He, Hctx. fold (ctx_told ctx cr). rewrite Hn.
  assert (Ht : ctx_told ctx cr = ctx).
  { unfold ctx_told. rewrite Hn. now destruct (pruner ctx). }
  rewrite Ht. split; intros Hi; rewrite Hi; cbn [andb negb]; [reflexivity|].
  unfold nan_hook. destruct (was_pruned cr); cbn [fst snd];
    repeat split; reflexivity.
Qed.

(** ** Checkpoints *)

Lemma load_dict_store_dict fs path d : load_dict (store_dict fs path d) path = Ok d.
Proof. unfold load_dict, store_dict. now rewrite lookup_insert_eq. Qed.

(** C9. A record with a run-context entry and no
    cache entry, loaded by a Search object that is not inside a run:
    [self._run_context] is [None], the call of [load_state_dict] on it
    raises an AttributeError inside the [try] block, and [except KeyError]
    does not catch it: no error that names the file, nothing restored. *)
Theorem load_missing_key_outside_run_attribute_error :
  demo_record_without_cache !! "cache" = None
  /\ load (Search_init demo_space) demo_fs "run.ckpt" None
     = (Search_init demo_space, None, Raise (AttributeError "load_state_dict")).
Proof. split; vm_compute; reflexivity. Qed.

Lemma state_dict_of_lookup self pu :
  let d := state_dict_of self pu in
  d !! "run_context"
    = Some match _run_context self with
           | None => CkNone
           | Some ctx => if terminate ctx then CkNone else RunContext_state_dict ctx
           end
  /\ d !! "cache" = Some (CkCache (_f_cache self))
  /\ d !! "history" = Some (CkHistory (_history self))
  /\ d !! "best_f" = Some (best_f_state (_best_f self))
  /\ d !! "best_solution" = Some (CkSolution (_best_solution self))
  /\ d !! "pruner" = (fun p => CkPruner (pruner_log p)) <$> pu.
Proof.
  unfold state_dict_of. destruct pu; cbn; repeat split; by simplify_map_eq.
Qed.

(** The round trip where it works: the saved object is outside a run or
    its run has terminated (no run-context entry is written), or the
    loading object is inside a run (it has a run context to restore
    into). *)
Lemma save_load_round_trip self fs path fresh :
  match _run_context self with
  | None => True
  | Some ctx => terminate ctx = true \/ is_Some (_run_context fresh)
  end ->
  exists fs',
    save self fs path None = Ok (fs', path)
    /\ snd (load fresh fs' path None) = Ok tt
    /\ _best_f (fst (fst (load fresh fs' path None))) = _best_f self
    /\ _best_solution (fst (fst (load fresh fs' path None))) = _best_solution self
    /\ _history (fst (fst (load fresh fs' path None))) = _history self
    /\ _f_cache (fst (fst (load fresh fs' path None))) = _f_cache self.
Proof.
  intros H.
  set (pu := match _run_context self with
             | Some ctx => match pruner ctx with Some cp => Some cp | None => None end
             | None => None
             end).
  assert (Hs : save self fs path None
               = Ok (store_dict fs path (state_dict_of self pu), path)).
  { unfold save, pu. destruct (_run_context self) as [ctx|]; [destruct (pruner ctx)|];
      reflexivity. }
  exists (store_dict fs path (state_dict_of self pu)). split; [exact Hs|].
  destruct (state_dict_of_lookup self pu) as (L1 & L2 & L3 & L4 & L5 & L6).
  cbv zeta in *.
  unfold load. rewrite load_dict_store_dict. unfold load_body, sd_get.
  rewrite L1, L2, L3, L4, L5, L6.
  assert (Hbf : match best_f_state (_best_f self) with
                | CkFloat q => Ok (Some q) | CkNone => Ok None | _ => Raise TypeError
                end = Ok (_best_f self)).
  { destruct (_best_f self); reflexivity. }
  clear Hs L1 L2 L3 L4 L5 L6.
  destruct (_run_context self) as [ctx|] eqn:Hctx.
  - destruct (terminate ctx) eqn:Ht.
    + rewrite Hbf. cbn.
      destruct pu; cbn; [destruct (_run_context fresh) as [c|]; [destruct (pruner c)|]|];
        cbn; repeat split; reflexivity.
    + destruct H as [H|[c Hc]]; [discriminate|].
      cbn [RunContext_state_dict]. rewrite Hc. cbn [RunContext_load_state_dict bind].
      rewrite Hbf. cbn.
      destruct pu; cbn; [destruct (pruner c)|]; cbn; repeat split; reflexivity.
  - rewrite Hbf. cbn.
    destruct pu; cbn; [destruct (_run_context fresh) as [c|]; [destruct (pruner c)|]|];
      cbn; repeat split; reflexivity.
Qed.

(** C8. A Search object in the middle of a run (its
    run context is in place and not terminated, the baseline is evaluated,
    best value 3) is saved; [load] of that file on a fresh Search object
    with the same search space raises an AttributeError at the run-context
    entry, before anything is restored: the best value of the fresh object
    is still [None] and its cache and history are empty. *)
Theorem save_mid_run_load_fresh_restores_nothing :
  exists fs,
    save demo_mid_run ∅ "run.ckpt" None = Ok (fs, "run.ckpt")
    /\ (exists ctx, _run_context demo_mid_run = Some ctx /\ terminate ctx = false)
    /\ _best_f demo_mid_run = Some 3%Q
    /\ Cache.known (_f_cache demo_mid_run) (_best_solution demo_mid_run) = true
    /\ load (Search_init demo_space) fs "run.ckpt" None
       = (Search_init demo_space, None, Raise (AttributeError "load_state_dict"))
    /\ _best_f (Search_init demo_space) = None
    /\ Cache.known (_f_cache (Search_init demo_space)) (_best_solution demo_mid_run)
       = false
    /\ _history (Search_init demo_space) = [].
Proof.
  exists (store_dict ∅ "run.ckpt" (state_dict_of demo_mid_run None)).
  split; [reflexivity|].
  split; [exists demo_ctx; split; reflexivity|].
  split; [reflexivity|]. split; [reflexivity|].
  split; [|repeat split].
  unfold load. rewrite load_dict_store_dict. unfold load_body, sd_get.
  destruct (state_dict_of_lookup demo_mid_run None) as (L1 & _).
  cbv zeta in L1. rewrite L1.
  change (_run_context demo_mid_run) with (Some demo_ctx).
  reflexivity.
Qed.

(** Where the wrapping works: the loading object is inside a run, or the
    record has no run-context state to restore. The first required key
    that is missing is reported in the error that names the file. *)
Lemma load_missing_key_wrapped self fs path sd pr :
  fs !! path = Some sd -> well_typed sd ->
  (exists k, In k required_keys /\ sd !! k = None) ->
  is_Some (_run_context self) \/ sd !! "run_context" = Some CkNone
    \/ sd !! "run_context" = None ->
  exists k,
    In k required_keys /\ sd !! k = None
    /\ snd (load self fs path pr)
       = Raise (ValueError (MsgCouldNotParseFile path (str_KeyError k))).
Proof.
  intros Hfs (T1 & T2 & T3 & T4 & T5 & _) (k0 & Hk0 & Hmiss) Hrc.
  unfold load, load_dict. rewrite Hfs. unfold load_body, sd_get.
  destruct (sd !! "run_context") as [rc|] eqn:E1;
    [|exists "run_context"; cbn; auto 10].
  assert (Hstep1 : exists self1,
             match rc with
             | CkNone => Ok self
             | _ => match _run_context self with
                    | None => Raise (AttributeError "load_state_dict")
                    | Some ctx =>
                        ctx <-- RunContext_load_state_dict ctx rc ;;
                        Ok (set_run_context (Some ctx) self)
                    end
             end = Ok self1).
  { destruct (T1 rc eq_refl) as [->|(d & s & ->)]; [eauto|].
    destruct Hrc as [[c Hc]|[Hrc|Hrc]]; [|discriminate..].
    rewrite Hc. cbn. eauto. }
  destruct Hstep1 as [self1 ->].
  destruct (sd !! "cache") as [v2|] eqn:E2;
    [|exists "cache"; cbn; auto 10].
  destruct (T2 v2 eq_refl) as [c ->].
  destruct (sd !! "history") as [v3|] eqn:E3;
    [|exists "history"; cbn; auto 10].
  destruct (T3 v3 eq_refl) as [h ->].
  destruct (sd !! "best_f") as [v4|] eqn:E4;
    [|exists "best_f"; cbn; auto 10].
  assert (Hbf : exists bf, match v4 with
                           | CkFloat q => Ok (Some q)
                           | CkNone => Ok None
                           | _ => Raise TypeError
                           end = Ok bf).
  { destruct (T4 v4 eq_refl) as [->|[q ->]]; eauto. }
  destruct Hbf as [bf ->].
  destruct (sd !! "best_solution") as [v5|] eqn:E5;
    [|exists "best_solution"; cbn; auto 10].
  exfalso. cbn in Hk0.
  destruct Hk0 as [<-|[<-|[<-|[<-|[<-|[]]]]]]; congruence.
Qed.

(** ** [register_int] without bounds *)

Lemma clip_to_bounds_within l u v :
  l <= u -> l <= clip_to_bounds (Some l) (Some u) v <= u.
Proof. intros H. unfold clip_to_bounds. lia. Qed.

(** C10. For every call of [register_int] with [lb] and [ub] both
    [None]: the bounds handed to the sanitization, and kept by it, are the
    least and the largest 32-bit signed integer; they are the bounds
    handed to the constructor, and without [power_of] the call returns an
    IntParameter when the constructor accepts them; the parameter a call
    returns has these two bounds, and every value it samples or mutates
    to lies in that range, for the built-in strategies and for a
    [seeding_fn] or [mutation_fn] of the caller alike. *)
Theorem register_int_unbounded_is_int32
    int_check check default_sample default_mutate power_sample power_mutate
    init multiple_of power_of shape seeding_fn mutation_fn :
  sanitize_bounds (Some int32_min) (Some int32_max)
  = Ok (Some int32_min, Some int32_max)
  /\ (power_of = None ->
      int_check (Some int32_min) (Some int32_max) init multiple_of = Ok tt ->
      exists p,
        register_int int_check check None None init multiple_of power_of shape
          seeding_fn mutation_fn = Ok (IsInt p))
  /\ (forall r,
        register_int int_check check None None init multiple_of power_of shape
          seeding_fn mutation_fn = Ok r ->
        bounds_of r = (Some int32_min, Some int32_max)
        /\ (forall rnd,
              int32_min
              <= registered_sample default_sample power_sample r rnd
              <= int32_max)
        /\ (forall v t rnd,
              int32_min
              <= registered_mutate default_mutate power_mutate r v t rnd
              <= int32_max)).
Proof.
  assert (Hb : sanitize_bounds (Some int32_min) (Some int32_max)
               = Ok (Some int32_min, Some int32_max)) by reflexivity.
  assert (Hle : int32_min <= int32_max) by (vm_compute; discriminate).
  split; [exact Hb|]. unfold register_int. rewrite Hb. cbn [bind].
  split.
  - intros -> ->. eexists. reflexivity.
  - intros r. destruct power_of as [k|].
    + destruct (negb _); [discriminate|].
      destruct (check _ _ _ _ _) as [[]|e]; cbn [bind]; [|discriminate].
      intros [= <-]. split; [reflexivity|]. split.
      * intros rnd. cbn [registered_sample]. unfold PowerOfIntParameter_sample.
        cbn [pp_lb pp_ub]. now apply clip_to_bounds_within.
      * intros v t rnd. cbn [registered_mutate]. unfold PowerOfIntParameter_mutate.
        cbn [pp_lb pp_ub]. now apply clip_to_bounds_within.
    + destruct (int_check _ _ _ _) as [[]|e]; cbn [bind]; [|discriminate].
      intros [= <-]. split; [reflexivity|]. split.
      * intros rnd. cbn [registered_sample]. unfold IntParameter_sample.
        cbn [ip_lb ip_ub]. now apply clip_to_bounds_within.
      * intros v t rnd. cbn [registered_mutate]. unfold IntParameter_mutate.
        cbn [ip_lb ip_ub]. now apply clip_to_bounds_within.
Qed.

(** ** Instances *)

Lemma async_result_ready_replaces_best_witness :
  _run_context demo_mid_run = Some demo_ctx
  /\ _best_f demo_mid_run = Some 3%Q
  /\ _best_f (fst (_async_result_ready demo_mid_run demo_candidate demo_info
                     (constant_objective 5 demo_candidate))) = Some 5%Q.
Proof.
  split; [reflexivity|]. split; [reflexivity|].
  apply (async_result_ready_replaces_best_iff_strictly_better
           demo_mid_run demo_ctx demo_candidate demo_info
           (constant_objective 5 demo_candidate) eq_refl eq_refl eq_refl eq_refl).
  right. exists 3%Q. split; [reflexivity|]. left. split; reflexivity.
Defined.

Lemma error_result_aborts_once_witness :
  _run_context demo_search = Some demo_ctx
  /\ error demo_error = Some "ZeroDivisionError"
  /\ (aborts (snd (deliver demo_search
                     [(demo_candidate, demo_info, demo_error);
                      (demo_candidate, demo_info, demo_error)])) <= 1)%nat.
Proof.
  split; [reflexivity|]. split; [reflexivity|].
  apply (proj2 (proj2 (error_result_aborts_once demo_search demo_ctx demo_candidate
                         demo_info demo_error "ZeroDivisionError" eq_refl eq_refl))
           [(demo_candidate, demo_info, demo_error)]).
Defined.

Lemma nan_result_fatal_or_ignored_witness :
  _run_context demo_search = Some demo_ctx
  /\ error demo_nan = None /\ is_nan demo_nan = true
  /\ snd (_async_result_ready demo_search demo_candidate demo_info demo_nan) = Ok tt.
Proof.
  split; [reflexivity|]. split; [reflexivity|]. split; [reflexivity|].
  apply (proj2 (nan_result_fatal_or_ignored demo_search demo_ctx demo_candidate
                  demo_info demo_nan eq_refl eq_refl eq_refl) eq_refl).
Defined.

Lemma register_int_unbounded_is_int32_witness :
  register_int lenient_int_check lenient_check None None None None None None
    (Some (fun _ => 2 ^ 31)) None
  = Ok (IsInt demo_seeded_int)
  /\ IntParameter_sample lowest_draw demo_seeded_int 0 = int32_max
  /\ int32_min <= IntParameter_sample lowest_draw demo_seeded_int 0 <= int32_max.
Proof.
  split; [reflexivity|]. split; [reflexivity|].
  destruct (register_int_unbounded_is_int32 lenient_int_check lenient_check
              lowest_draw (fun _ _ v _ _ => v) (fun _ => lowest_draw)
              (fun _ _ _ v _ _ => v)
              None None None None (Some (fun _ => 2 ^ 31)) None)
    as (_ & _ & H).
  destruct (H (IsInt demo_seeded_int) eq_refl) as (_ & Hs & _). exact (Hs 0%nat).
Defined.

(** ** [mutate_from_best] and [sample_solution] *)

Lemma amount_to_mutate_pos t n : 1 <= amount_to_mutate t n.
Proof. unfold amount_to_mutate. lia. Qed.

(** A constant [None] in the tree is taken for the default [node=None]:
    the call starts over at the root, and so on until the interpreter
    gives up. *)
Lemma mutate_from_best_None_constant_no_result shuffle depth :
  forall rnd t best bitmask calls,
    is_ok (mutate_from_best shuffle depth (Search_init demo_space_none) rnd t
             (NConst SNone) best bitmask calls) = false.
Proof.
  induction depth as [|depth IH]; intros rnd t best bitmask calls; [reflexivity|].
  cbn [mutate_from_best is_None Search_init _params demo_space_none bind].
  cbn [mutate_items _best_solution _get_initial_solution py_getitem getitem dict_get
       String.eqb Ascii.eqb Bool.eqb bind initial_value demo_param].
  change (py_getitem (_best_solution (Search_init demo_space_none)) "x")
    with (Ok (VAtom (SInt 3))).
  change (py_getitem (_best_solution (Search_init demo_space_none)) "k")
    with (Ok (VAtom SNone)).
  cbn [bind].
  match goal with
  | |- context [bind (mutate_from_best ?sh ?d ?s ?r ?tt (NParam ?p) ?b ?m ?c) _] =>
      destruct (mutate_from_best sh d s r tt (NParam p) b m c) as [[[x m1] c1]|e];
        [|reflexivity]
  end.
  cbn [bind].
  match goal with
  | |- context [bind (mutate_from_best ?sh ?d ?s ?r ?tt (NConst SNone) ?b ?m ?c) _] =>
      pose proof (IH r tt b m c) as IH';
      destruct (mutate_from_best sh d s r tt (NConst SNone) b m c) as [[[x' m'] c']|e];
        [discriminate|reflexivity]
  end.
Qed.

Lemma fresh_bitmask_one t : fresh_bitmask t 1 = [true].
Proof.
  unfold fresh_bitmask. cbn [seq map]. change (Z.of_nat 0) with 0.
  pose proof (amount_to_mutate_pos t 1) as H.
  destruct (0 <? amount_to_mutate t 1) eqn:E; [reflexivity|].
  apply Z.ltb_ge in E. lia.
Qed.

(** one call at a parameter: a bit is popped and decides *)
Lemma mutate_from_best_param shuffle depth self rnd t p best mask calls :
  mutate_from_best shuffle (S depth) self rnd t (NParam p) best mask calls =
    (pb <-- pop mask ;;
     if fst pb
     then Ok (mutate p best t rnd, snd pb, S calls)
     else Ok (best, snd pb, calls)).
Proof.
  cbn [mutate_from_best is_None]. destruct (pop mask) as [[b m]|e]; [|reflexivity].
  cbn [bind fst snd]. destruct b; reflexivity.
Qed.

Lemma mutate_from_best_None_constant_recursion_error depth :
  forall rnd t best bitmask calls,
    mutate_from_best no_shuffle depth (Search_init demo_space_none) rnd t
      (NConst SNone) best bitmask calls = Raise RecursionError.
Proof.
  induction depth as [|depth IH]; intros rnd t best bitmask calls; [reflexivity|].
  cbn [mutate_from_best is_None Search_init _params demo_space_none bind].
  cbn [mutate_items _best_solution _get_initial_solution py_getitem getitem dict_get
       String.eqb Ascii.eqb Bool.eqb bind initial_value demo_param].
  change (py_getitem (_best_solution (Search_init demo_space_none)) "x")
    with (Ok (VAtom (SInt 3))).
  change (py_getitem (_best_solution (Search_init demo_space_none)) "k")
    with (Ok (VAtom SNone)).
  change (free_param_count (Search_init demo_space_none)) with 1%nat.
  rewrite fresh_bitmask_one. cbn [bind].
  destruct depth as [|depth]; [reflexivity|].
  rewrite mutate_from_best_param.
  change (pop (no_shuffle rnd [true])) with (Ok (true, @nil bool)).
  cbn [bind fst snd]. rewrite IH. reflexivity.
Qed.

Lemma sample_solution_None_constant_recursion_error depth :
  forall rnd,
    sample_solution depth (Search_init demo_space_none) rnd (NConst SNone)
    = Raise RecursionError.
Proof.
  induction depth as [|depth IH]; intros rnd; [reflexivity|].
  cbn [sample_solution is_None Search_init _params demo_space_none sample_items bind].
  rewrite IH. destruct depth; reflexivity.
Qed.

(** C4. The search space [{"x": <parameter>, "k":
    None}] has one free parameter. [mutate_from_best] at the root, at any
    temperature and with any shuffle, does not return a candidate: the
    recursive call for the constant [None] has [node=None] and starts over
    at the root, until the recursion limit is hit, whatever the limit
    (with the only possible shuffle of a one-bit mask the exception is the
    RecursionError): no parameter is mutated, no constant passed through. *)
Theorem mutate_from_best_None_constant_never_returns :
  free_param_count (Search_init demo_space_none) = 1%nat
  /\ (forall shuffle depth rnd t,
      is_ok (mutate_from_best shuffle depth (Search_init demo_space_none) rnd t
               (NConst SNone) VNone [] 0) = false)
  /\ (forall depth rnd t,
      mutate_from_best no_shuffle depth (Search_init demo_space_none) rnd t
        (NConst SNone) VNone [] 0 = Raise RecursionError).
Proof.
  split; [reflexivity|]. split.
  - intros. apply mutate_from_best_None_constant_no_result.
  - intros. apply mutate_from_best_None_constant_recursion_error.
Qed.

(** *** Trees without a constant [None] *)

Lemma pop_snoc pre b : pop (pre ++ [b]) = Ok (b, pre).
Proof. unfold pop. now rewrite last_snoc, removelast_last. Qed.

Lemma count_true_app a b : count_true (a ++ b) = (count_true a + count_true b)%nat.
Proof. unfold count_true. now rewrite List.filter_app, length_app. Qed.

Lemma height_pos nd : (1 <= height nd)%nat.
Proof. destruct nd; cbn; lia. Qed.

Lemma height_dict_children d depth :
  (height (NDict d) <= S depth)%nat ->
  Forall (fun kv : string * node => (height (snd kv) <= depth)%nat) d.
Proof.
  cbn [height]. intros H. apply le_S_n in H.
  induction d as [|kv d IH]; constructor; cbn [foldr] in H; [lia|].
  apply IH. lia.
Qed.

Lemma height_list_children l depth :
  (height (NList l) <= S depth)%nat ->
  Forall (fun v : node => (height v <= depth)%nat) l.
Proof.
  cbn [height]. intros H. apply le_S_n in H.
  induction l as [|v l IH]; constructor; cbn [foldr] in H; [lia|].
  apply IH. lia.
Qed.

Lemma split_bits (bits : list bool) (c r : nat) :
  length bits = (c + r)%nat ->
  exists bits_r bits_c,
    bits = bits_r ++ bits_c /\ length bits_c = c /\ length bits_r = r.
Proof.
  intros H. exists (take r bits), (drop r bits).
  rewrite take_drop, length_drop, length_take. repeat split; lia.
Qed.

Lemma mutate_items_ok f best d :
  Forall (fun kv => consumes f (snd kv)) d ->
  shape_ok (NDict d) best = true ->
  forall pre bits calls,
    length bits = _count_free_parameters_rec (NDict d) ->
    exists vs,
      mutate_items f best d (pre ++ bits) calls
      = Ok (vs, pre, (calls + count_true bits)%nat)
      /\ constants_kept (NDict d) (VDict vs).
Proof.
  induction d as [|[k v] rest IH]; intros HF Hs pre bits calls Hl.
  - destruct bits; [|discriminate]. exists []. cbn.
    now rewrite app_nil_r, Nat.add_0_r.
  - change (_count_free_parameters_rec (NDict ((k, v) :: rest)))
      with (_count_free_parameters_rec v + _count_free_parameters_rec (NDict rest))%nat
      in Hl.
    cbn [shape_ok forallb fst snd] in Hs. apply andb_true_iff in Hs as [Hv Hrest].
    destruct (py_getitem best k) as [bk|] eqn:Hk; [|discriminate].
    destruct (split_bits bits _ _ Hl) as (bits_r & bits_v & -> & Lv & Lr).
    inversion HF as [|? ? Hhead Htail]; subst. cbn [snd] in Hhead.
    destruct (Hhead bk (pre ++ bits_r) bits_v calls Hv Lv) as (x & Hx & Kx).
    destruct (IH Htail Hrest pre bits_r (calls + count_true bits_v)%nat Lr)
      as (xs & Hxs & Kxs).
    exists ((k, x) :: xs). split.
    + cbn [mutate_items]. rewrite Hk. cbn [bind].
      rewrite app_assoc, Hx. cbn [bind]. rewrite Hxs. cbn [bind].
      rewrite count_true_app. do 2 f_equal. lia.
    + split; [reflexivity|]. split; [exact Kx|exact Kxs].
Qed.

Lemma mutate_elems_ok f best l :
  Forall (consumes f) l ->
  forall i pre bits calls,
    forallb_i (fun i v => match py_index best i with
                          | Ok bi => shape_ok v bi
                          | Raise _ => false
                          end) i l = true ->
    length bits = _count_free_parameters_rec (NList l) ->
    exists vs,
      mutate_elems f best l i (pre ++ bits) calls
      = Ok (vs, pre, (calls + count_true bits)%nat)
      /\ constants_kept (NList l) (VList vs).
Proof.
  induction l as [|v rest IH]; intros HF i pre bits calls Hs Hl.
  - destruct bits; [|discriminate]. exists []. cbn.
    now rewrite app_nil_r, Nat.add_0_r.
  - change (_count_free_parameters_rec (NList (v :: rest)))
      with (_count_free_parameters_rec v + _count_free_parameters_rec (NList rest))%nat
      in Hl.
    cbn [forallb_i] in Hs. apply andb_true_iff in Hs as [Hv Hrest].
    destruct (py_index best i) as [bi|] eqn:Hi; [|discriminate].
    destruct (split_bits bits _ _ Hl) as (bits_r & bits_v & -> & Lv & Lr).
    inversion HF as [|? ? Hhead Htail]; subst.
    destruct (Hhead bi (pre ++ bits_r) bits_v calls Hv Lv) as (x & Hx & Kx).
    destruct (IH Htail (S i) pre bits_r (calls + count_true bits_v)%nat Hrest Lr)
      as (xs & Hxs & Kxs).
    exists (x :: xs). split.
    + cbn [mutate_elems]. rewrite Hi. cbn [bind].
      rewrite app_assoc, Hx. cbn [bind]. rewrite Hxs. cbn [bind].
      rewrite count_true_app. do 2 f_equal. lia.
    + split; [exact Kx|exact Kxs].
Qed.

(** Below the root, on a tree without [None]: the call returns, has
    consumed one bit per parameter from the end of the mask, has called
    [mutate] once per set bit, and has passed the constants through. *)
Lemma mutate_from_best_consumes shuffle self rnd t depth :
  forall nd,
    none_free nd = true -> (height nd <= depth)%nat ->
    consumes (mutate_from_best shuffle depth self rnd t) nd.
Proof.
  induction depth as [|depth IH]; intros nd Hnf Hh.
  { pose proof (height_pos nd). lia. }
  intros best pre bits calls Hs Hl. destruct nd as [p|d|l|a].
  - rewrite mutate_from_best_param.
    destruct bits as [|b [|]]; try discriminate.
    rewrite pop_snoc. cbn [bind fst snd].
    destruct b; eexists; cbn; rewrite ?Nat.add_1_r, ?Nat.add_0_r; split; reflexivity.
  - assert (HF : Forall (fun kv : string * node =>
                           consumes (mutate_from_best shuffle depth self rnd t) (snd kv)) d).
    { pose proof (height_dict_children d depth Hh) as Hc.
      cbn [none_free] in Hnf. rewrite forallb_forall in Hnf.
      apply List.Forall_forall. intros kv Hin. apply IH.
      - apply Hnf. exact Hin.
      - rewrite List.Forall_forall in Hc. apply Hc. exact Hin. }
    destruct (mutate_items_ok _ best d HF Hs pre bits calls Hl) as (vs & Hvs & Kvs).
    cbn [mutate_from_best is_None]. rewrite Hvs. cbn [bind]. eauto.
  - assert (HF : Forall (consumes (mutate_from_best shuffle depth self rnd t)) l).
    { pose proof (height_list_children l depth Hh) as Hc.
      cbn [none_free] in Hnf. rewrite forallb_forall in Hnf.
      apply List.Forall_forall. intros v Hin. apply IH.
      - apply Hnf. exact Hin.
      - rewrite List.Forall_forall in Hc. apply Hc. exact Hin. }
    destruct (mutate_elems_ok _ best l HF 0%nat pre bits calls Hs Hl)
      as (vs & Hvs & Kvs).
    cbn [mutate_from_best is_None]. rewrite Hvs. cbn [bind]. eauto.
  - destruct bits; [|discriminate].
    destruct a; try discriminate; cbn; rewrite app_nil_r, Nat.add_0_r; eauto.
Qed.

Lemma none_free_not_None nd : none_free nd = true -> is_None nd = false.
Proof. destruct nd as [| | |[]]; cbn; congruence. Qed.

(** The root call is a call for the registered tree with the clipped
    temperature and a freshly shuffled mask; the mask of the caller is
    left alone. *)
Lemma mutate_from_best_root_unfold shuffle depth self rnd t best bitmask calls :
  is_None (_params self) = false ->
  mutate_from_best shuffle (S depth) self rnd t (NConst SNone) best bitmask calls =
    (r <-- mutate_from_best shuffle (S depth) self rnd (clip01 t) (_params self)
             (_best_solution self)
             (shuffle rnd (fresh_bitmask (clip01 t) (free_param_count self))) calls ;;
     Ok (fst (fst r), bitmask, snd r)).
Proof.
  intros HN. cbn [mutate_from_best is_None]. rewrite HN. unfold bind.
  destruct (_params self) as [p|d|l|a];
    repeat match goal with
      | |- context [match ?X with Ok _ => _ | Raise _ => _ end] =>
          lazymatch X with
          | Ok _ => fail
          | Raise _ => fail
          | _ => destruct X as [[[? ?] ?]|?]
          end
      | |- context [if ?b then _ else _] => is_var b; destruct b
      end; reflexivity.
Qed.

Lemma count_true_perm (a b : list bool) : Permutation a b -> count_true a = count_true b.
Proof.
  unfold count_true.
  induction 1 as [|x l l' _ IH|x y l|l l' l'' _ IH1 _ IH2]; cbn.
  - reflexivity.
  - destruct x; cbn; now rewrite IH.
  - destruct x, y; reflexivity.
  - congruence.
Qed.

Lemma count_true_mask a n :
  0 <= a ->
  count_true (map (fun i => Z.of_nat i <? a) (seq 0 n)) = Nat.min (Z.to_nat a) n.
Proof.
  intros Ha. induction n as [|n IH]; [cbn; lia|].
  rewrite seq_S, map_app, count_true_app, IH. cbn [map Nat.add].
  unfold count_true. cbn [List.filter id].
  destruct (Z.of_nat n <? a) eqn:E; cbn [length].
  - apply Z.ltb_lt in E. lia.
  - apply Z.ltb_ge in E. lia.
Qed.

Lemma clip01_bounds t : (0 <= clip01 t <= 1)%Q.
Proof.
  unfold clip01. destruct (Qle_bool t 0) eqn:E0; [split; unfold Qle; cbn; lia|].
  destruct (Qle_bool 1 t) eqn:E1; [split; unfold Qle; cbn; lia|].
  split.
  - apply Qlt_le_weak, Qnot_le_lt. rewrite <- Qle_bool_iff. congruence.
  - apply Qlt_le_weak, Qnot_le_lt. rewrite <- Qle_bool_iff. congruence.
Qed.

Lemma py_round_le x n : (x <= inject_Z n)%Q -> py_round x <= n.
Proof.
  intros Hx. unfold py_round.
  assert (Hf : Qfloor x <= n).
  { rewrite <- (Qfloor_Z n). now apply Qfloor_resp_le. }
  assert (Hlt : Qfloor x = n -> Qcompare (x - inject_Z (Qfloor x)) (1 # 2) = Lt).
  { intros ->. apply Qlt_alt. apply Qle_lt_trans with 0%Q; [|reflexivity].
    apply (Qplus_le_l _ _ (inject_Z n)). ring_simplify. exact Hx. }
  destruct (Qcompare (x - inject_Z (Qfloor x)) (1 # 2)) eqn:E.
  - destruct (Z.even (Qfloor x)); [exact Hf|].
    destruct (Z.eq_dec (Qfloor x) n) as [En|Hn]; [discriminate (Hlt En)|lia].
  - exact Hf.
  - destruct (Z.eq_dec (Qfloor x) n) as [En|Hn]; [discriminate (Hlt En)|lia].
Qed.

Lemma py_round_Z x n : (x == inject_Z n)%Q -> py_round x = n.
Proof.
  intros Hx. unfold py_round.
  assert (Hf : Qfloor x = n) by (rewrite Hx; apply Qfloor_Z).
  rewrite Hf.
  assert (E : Qcompare (x - inject_Z n) (1 # 2) = Lt).
  { apply Qlt_alt. rewrite Hx. apply Qle_lt_trans with 0%Q; [|reflexivity].
    apply Qle_minus_iff. ring_simplify. discriminate. }
  now rewrite E.
Qed.

Lemma amount_to_mutate_le t n :
  (0 < n)%nat -> amount_to_mutate (clip01 t) n <= Z.of_nat n.
Proof.
  intros Hn. unfold amount_to_mutate. apply Z.max_lub; [|lia].
  apply py_round_le.
  apply Qle_trans with (1 * inject_Z (Z.of_nat n))%Q; [|rewrite Qmult_1_l; apply Qle_refl].
  apply Qmult_le_compat_r; [apply clip01_bounds|].
  change 0%Q with (inject_Z 0). rewrite <- Zle_Qle. lia.
Qed.

(** at temperature 0 one parameter, at temperature 1 all of them *)
Lemma amount_to_mutate_at_0 n : amount_to_mutate (clip01 0) n = 1.
Proof.
  unfold amount_to_mutate. change (clip01 0) with 0%Q.
  rewrite (py_round_Z _ 0); [reflexivity|]. ring.
Qed.

Lemma amount_to_mutate_at_1 n : (0 < n)%nat -> amount_to_mutate (clip01 1) n = Z.of_nat n.
Proof.
  intros Hn. unfold amount_to_mutate. change (clip01 1) with 1%Q.
  rewrite (py_round_Z _ (Z.of_nat n)); [lia|]. ring.
Qed.

(** On a search space without a constant [None]: the root call returns a
    candidate after exactly [max(round(t * n), 1)] calls of
    [Parameter.mutate], [t] the clipped temperature and [n] the number of
    free parameters; the constants of the tree are in the candidate as
    they are. *)
Lemma mutate_from_best_mutates_amount shuffle self rnd t depth best bitmask calls :
  (forall r l, Permutation l (shuffle r l)) ->
  none_free (_params self) = true ->
  shape_ok (_params self) (_best_solution self) = true ->
  (height (_params self) <= depth)%nat ->
  free_param_count self = _count_free_parameters_rec (_params self) ->
  (0 < free_param_count self)%nat ->
  exists v,
    mutate_from_best shuffle depth self rnd t (NConst SNone) best bitmask calls
    = Ok (v, bitmask,
          (calls + Z.to_nat (amount_to_mutate (clip01 t) (free_param_count self)))%nat)
    /\ constants_kept (_params self) v.
Proof.
  intros Hperm Hnf Hs Hh Hn Hpos.
  destruct depth as [|depth]; [pose proof (height_pos (_params self)); lia|].
  rewrite mutate_from_best_root_unfold by now apply none_free_not_None.
  set (mask := shuffle rnd (fresh_bitmask (clip01 t) (free_param_count self))).
  assert (Hlen : length mask = _count_free_parameters_rec (_params self)).
  { unfold mask. rewrite <- (Permutation_length (Hperm rnd _)).
    unfold fresh_bitmask. now rewrite length_map, length_seq. }
  destruct (mutate_from_best_consumes shuffle self rnd (clip01 t) (S depth)
              (_params self) Hnf Hh (_best_solution self) [] mask calls Hs Hlen)
    as (v & Hv & Kv).
  cbn [app] in Hv. rewrite Hv. cbn [bind fst snd]. exists v. split; [|exact Kv].
  do 3 f_equal.
  unfold mask. rewrite <- (count_true_perm _ _ (Hperm rnd _)).
  unfold fresh_bitmask. rewrite count_true_mask.
  - pose proof (amount_to_mutate_le t _ Hpos). lia.
  - pose proof (amount_to_mutate_pos (clip01 t) (free_param_count self)). lia.
Qed.

(** ** The search loop on a constant objective *)

Lemma sample_items_ok f d :
  Forall (fun kv : string * node => exists v, f (snd kv) = Ok v) d ->
  exists vs, sample_items f d = Ok vs.
Proof.
  induction 1 as [|[k v] rest [x Hx] _ [xs Hxs]]; [now exists []|].
  cbn [snd] in Hx. cbn [sample_items]. rewrite Hx. cbn [bind]. rewrite Hxs.
  cbn [bind]. eauto.
Qed.

Lemma sample_elems_ok f l :
  Forall (fun v : node => exists x, f v = Ok x) l ->
  exists vs, sample_elems f l = Ok vs.
Proof.
  induction 1 as [|v rest [x Hx] _ [xs Hxs]]; [now exists []|].
  cbn [sample_elems]. rewrite Hx. cbn [bind]. rewrite Hxs. cbn [bind]. eauto.
Qed.

Lemma sample_solution_ok self rnd depth :
  forall nd, none_free nd = true -> (height nd <= depth)%nat ->
  exists v, sample_solution depth self rnd nd = Ok v.
Proof.
  induction depth as [|depth IH]; intros nd Hnf Hh.
  { pose proof (height_pos nd). lia. }
  cbn [sample_solution]. rewrite (none_free_not_None nd Hnf).
  destruct nd as [p|d|l|a]; [eauto| | |eauto].
  - destruct (sample_items_ok (sample_solution depth self rnd) d) as [vs Hvs].
    { pose proof (height_dict_children d depth Hh) as Hc.
      cbn [none_free] in Hnf. rewrite forallb_forall in Hnf.
      apply List.Forall_forall. intros kv Hin. apply IH.
      - apply Hnf. exact Hin.
      - rewrite List.Forall_forall in Hc. apply Hc. exact Hin. }
    rewrite Hvs. cbn [bind]. eauto.
  - destruct (sample_elems_ok (sample_solution depth self rnd) l) as [vs Hvs].
    { pose proof (height_list_children l depth Hh) as Hc.
      cbn [none_free] in Hnf. rewrite forallb_forall in Hnf.
      apply List.Forall_forall. intros v Hin. apply IH.
      - apply Hnf. exact Hin.
      - rewrite List.Forall_forall in Hc. apply Hc. exact Hin. }
    rewrite Hvs. cbn [bind]. eauto.
Qed.

Lemma sample_solution_root_ok self rnd depth :
  none_free (_params self) = true -> (height (_params self) <= depth)%nat ->
  exists v, sample_solution depth self rnd (NConst SNone) = Ok v.
Proof.
  intros Hnf Hh.
  destruct (sample_solution_ok self rnd depth (_params self) Hnf Hh) as [v Hv].
  exists v. rewrite <- Hv.
  destruct depth as [|depth]; [reflexivity|].
  cbn [sample_solution is_None]. now rewrite (none_free_not_None _ Hnf).
Qed.

(** One inline evaluation of a constant objective. *)
Lemma submit_constant v self ctx candidate_type candidate :
  _run_context self = Some ctx -> task_executor ctx = None ->
  exists self',
    _submit_candidate (constant_objective v) self candidate_type candidate
      = (self', Ok tt)
    /\ _params self' = _params self
    /\ _free_param_count self' = _free_param_count self
    /\ _manually_queued_candidates self' = _manually_queued_candidates self
    /\ cache_enabled (_f_cache self') = cache_enabled (_f_cache self)
    /\ evaluations self' = S (evaluations self)
    /\ (exists ctx', _run_context self' = Some ctx'
                     /\ task_executor ctx' = None /\ schedule ctx' = schedule ctx)
    /\ (_best_solution self', _best_f self')
       = if improves (_best_f self) (direction ctx) v
         then (candidate, Some v)
         else (_best_solution self, _best_f self).
Proof.
  intros Hctx Hte. unfold _submit_candidate. rewrite Hctx, Hte.
  set (info := mkParamInfo candidate_type false false).
  set (s0 := set_f_cache _ _).
  pose proof (async_admissible s0 ctx candidate info (constant_objective v candidate)
                Hctx eq_refl eq_refl eq_refl) as Heq.
  cbv zeta in Heq. rewrite Heq. clear Heq.
  change (_best_f s0) with (_best_f self).
  change (value (constant_objective v candidate)) with v.
  destruct (ctx_told_same ctx (constant_objective v candidate)) as (_ & _ & Hte' & Hsch).
  destruct (improves (_best_f self) (direction ctx) v);
    eexists; (split; [reflexivity|]);
    unfold record_history; destruct (existsb _ _); cbn;
    repeat split; eauto using eq_trans.
Qed.

Lemma loop_inv_reject params v en max k self candidate :
  loop_inv params v en max k self ->
  Cache.contains (_f_cache self) candidate = true ->
  loop_inv params v en max (S k) (step_schedule self).
Proof.
  intros (H1 & H2 & H3 & H4 & H5 & H6 & He & H7 & ctx & Hctx & Hte & Hm & Hk & Hi) Hc.
  unfold step_schedule. rewrite Hctx. unfold loop_inv, evaluations in *. cbn.
  repeat split; try assumption; try lia.
  - intros Hen. unfold Cache.contains in Hc. rewrite He, Hen in Hc. discriminate.
  - eexists. split; [reflexivity|]. cbn. repeat split; try assumption.
    now rewrite Hk.
Qed.

Lemma loop_inv_submit params v en max k self candidate_type candidate :
  loop_inv params v en max k self ->
  exists self',
    _submit_candidate (constant_objective v) self candidate_type candidate
      = (self', Ok tt)
    /\ (exists ctx', _run_context self' = Some ctx')
    /\ loop_inv params v en max (S k) (step_schedule self').
Proof.
  intros (H1 & H2 & H3 & H4 & H5 & H6 & He & H7 & ctx & Hctx & Hte & Hm & Hk & Hi).
  destruct (submit_constant v self ctx candidate_type candidate Hctx Hte)
    as (s & Hs & P1 & P2 & P3 & P4 & P5 & (ctx' & Hctx' & Hte' & Hsch) & Hbest).
  exists s. split; [exact Hs|]. split; [eauto|].
  rewrite H4, (improves_tie v (direction ctx) v) in Hbest by reflexivity.
  injection Hbest as Hb1 Hb2.
  unfold step_schedule. rewrite Hctx'. unfold loop_inv, evaluations in *. cbn.
  rewrite Hsch.
  repeat split; try congruence; try lia.
  - intros Hen. specialize (H7 Hen). lia.
  - eexists. split; [reflexivity|]. cbn. repeat split; try assumption.
    now rewrite Hk.
Qed.

(** The loop of a step-budgeted run on a constant objective ends after
    as many iterations as steps are left. *)
Lemma search_loop_constant shuffle depth params v en max :
  (forall r l, Permutation l (shuffle r l)) ->
  none_free params = true ->
  shape_ok params (_get_initial_solution params) = true ->
  (height params <= depth)%nat ->
  (0 < _count_free_parameters_rec params)%nat ->
  forall m k self t rnd fuel,
    loop_inv params v en max k self -> (k + m = max)%nat -> (m <= fuel)%nat ->
    exists self',
      search_loop shuffle depth (constant_objective v) fuel self t rnd
        = Some (self', Ok tt)
      /\ loop_inv params v en max max self'.
Proof.
  intros Hperm Hnf Hshape Hh Hpos.
  induction m as [|m IH]; intros k self t rnd fuel Hinv Hkm Hfuel.
  - assert (k = max) by lia. subst k. exists self. split; [|exact Hinv].
    destruct Hinv as (_ & _ & _ & _ & _ & _ & _ & _ & ctx & Hctx & _ & Hm & Hk & Hi).
    destruct fuel; cbn [search_loop]; rewrite Hctx; unfold Schedule.is_timeout;
      rewrite Hm, Hk, Hi, Nat.leb_refl; reflexivity.
  - destruct fuel as [|fuel]; [lia|].
    pose proof Hinv
      as (H1 & H2 & H3 & H4 & H5 & H6 & He & H7 & ctx & Hctx & Hte & Hm & Hk & Hi).
    cbn [search_loop]. rewrite Hctx. unfold Schedule.is_timeout.
    rewrite Hm, Hk, Hi. cbn [orb].
    replace (max <=? k)%nat with false by (symmetry; apply Nat.leb_gt; lia).
    unfold free_param_count. rewrite H2.
    replace (_count_free_parameters_rec params =? 0)%nat with false
      by (symmetry; apply Nat.eqb_neq; lia).
    cbn [andb].
    assert (Hnext : exists candidate candidate_type,
               next_candidate shuffle depth self ctx t rnd
               = Ok (self, candidate, candidate_type)).
    { assert (Hnf' : none_free (_params self) = true) by now rewrite H1.
      assert (Hh' : (height (_params self) <= depth)%nat) by now rewrite H1.
      assert (Hs' : shape_ok (_params self) (_best_solution self) = true)
        by now rewrite H1, H3.
      assert (Hn' : free_param_count self = _count_free_parameters_rec (_params self))
        by (unfold free_param_count; now rewrite H1, H2).
      assert (Hp' : (0 < free_param_count self)%nat)
        by (unfold free_param_count; now rewrite H2).
      unfold next_candidate. rewrite H5.
      destruct (Schedule.is_in_seeding_mode (schedule ctx)).
      - destruct (sample_solution_root_ok self rnd depth Hnf' Hh') as [c Hc].
        rewrite Hc. cbn [bind]. eauto.
      - destruct (mutate_from_best_mutates_amount shuffle self rnd t depth VNone [] 0
                    Hperm Hnf' Hs' Hh' Hn' Hp') as (c & Hc & _).
        rewrite Hc. cbn [bind fst]. eauto. }
    destruct Hnext as (candidate & candidate_type & ->).
    destruct (Cache.contains (_f_cache self) candidate) eqn:Hc; cbn [negb].
    + apply (IH (S k)); [|lia..].
      now apply loop_inv_reject with candidate.
    + destruct (loop_inv_submit params v en max k self candidate_type candidate Hinv)
        as (s & Hs & [ctx' Hctx'] & Hinv').
      rewrite Hs, Hctx'. apply (IH (S k)); [exact Hinv'|lia..].
Qed.

Lemma ScheduledRun_init_steps a max :
  arg_steps a = Some max -> arg_endless_mode a = false ->
  exists sched,
    ScheduledRun_init a = Ok sched
    /\ sched_step sched = 0%nat /\ sched_max_steps sched = Some max
    /\ sched_interrupted sched = false.
Proof.
  intros Hs He. unfold ScheduledRun_init. rewrite Hs, He.
  eexists. split; [reflexivity|]. repeat split.
Qed.

(** A run with a budget of [max] steps on a constant objective, from a
    fresh Search object without queued candidates: the baseline takes the
    first step and the loop the other [max - 1]; every step evaluates at
    most one candidate. *)
Lemma run_constant_objective shuffle depth params v a max fuel rnd dir :
  (forall r l, Permutation l (shuffle r l)) ->
  none_free params = true ->
  shape_ok params (_get_initial_solution params) = true ->
  (height params <= depth)%nat ->
  (0 < _count_free_parameters_rec params)%nat ->
  arg_steps a = Some (S max) -> arg_endless_mode a = false ->
  canonical_direction (arg_direction a) = Ok dir ->
  (max <= fuel)%nat ->
  exists self',
    run shuffle depth (constant_objective v) (Search_init params) a fuel rnd
      = Some (self', Ok (_get_initial_solution params))
    /\ _best_solution self' = _get_initial_solution params
    /\ _best_f self' = Some v
    /\ (1 <= evaluations self' <= S max)%nat
    /\ (arg_enable_rejection_cache a = false -> evaluations self' = S max).
Proof.
  intros Hperm Hnf Hshape Hh Hpos Hsteps Hend Hdir Hfuel.
  destruct (ScheduledRun_init_steps a (S max) Hsteps Hend)
    as (sched & Hsched & Hs0 & Hsm & Hsi).
  unfold run. rewrite Hsched, Hdir.
  set (ctx := mkRunContext dir _ _ sched _ None false).
  set (s1 := notify ctx OnSearchStart _).
  change (_best_f s1) with (@None Q).
  change (manual_queue_count s1) with 0%nat. cbn [Nat.eqb].
  change (_best_solution s1) with (_get_initial_solution params).
  destruct (submit_constant v s1 ctx INIT (_get_initial_solution params)
              eq_refl eq_refl)
    as (s2 & Hs2 & P1 & P2 & P3 & P4 & P5 & (ctx' & Hctx' & Hte' & Hsch) & Hbest).
  rewrite Hs2.
  change (improves (_best_f s1) (direction ctx) v) with true in Hbest.
  injection Hbest as Hb1 Hb2.
  assert (Hinv : loop_inv params v (arg_enable_rejection_cache a) (S max) 1
                    (step_schedule s2)).
  { unfold step_schedule. rewrite Hctx'.
    assert (He2 : evaluations s2 = 1%nat) by (rewrite P5; reflexivity).
    unfold loop_inv. cbn. rewrite Hsch. change (schedule ctx) with sched.
    change (evaluations (set_run_context _ s2)) with (evaluations s2).
    rewrite He2.
    split; [now rewrite P1|]. split; [now rewrite P2|].
    split; [exact Hb1|]. split; [exact Hb2|]. split; [now rewrite P3|].
    split; [lia|]. split; [now rewrite P4|]. split; [reflexivity|].
    eexists. split; [reflexivity|]. cbn. repeat split; try assumption.
    now rewrite Hs0. }
  assert (Hrc : exists c, _run_context (step_schedule s2) = Some c).
  { destruct Hinv as (_ & _ & _ & _ & _ & _ & _ & _ & c & Hc & _). eauto. }
  destruct Hrc as [c1 Hc1]. rewrite Hc1.
  destruct (search_loop_constant shuffle depth params v _ (S max) Hperm Hnf Hshape Hh
              Hpos max 1%nat (step_schedule s2) (Schedule.temperature (schedule c1))
              rnd fuel Hinv ltac:(lia) Hfuel)
    as (s3 & Hloop & H1 & H2 & H3 & H4 & H5 & H6 & He & H7 & c3 & Hc3 & _).
  rewrite Hloop, Hc3.
  eexists. split; [cbn; rewrite H3; reflexivity|].
  split; [exact H3|]. split; [exact H4|]. split; [exact H6|exact H7].
Qed.

(** [run(f, steps=5)] with the defaults otherwise, on a constant
    objective: five evaluations in all, the baseline among them, not six. *)
Lemma run_five_steps_evaluates_five_in_all :
  exists self',
    run no_shuffle 10 (constant_objective 3) (Search_init demo_space) (default_args 5)
      10 0 = Some (self', Ok (_get_initial_solution demo_space))
    /\ evaluations self' = 5%nat
    /\ evaluations self' <> 6%nat.
Proof.
  eexists. split; [vm_compute; reflexivity|]. split; [reflexivity|discriminate].
Qed.

(** C2. A run configured with [steps=5] and a constant
    objective, from a fresh Search object without queued candidates, on a
    search space with at least one free parameter and no constant [None]:
    the run terminates, the baseline evaluation takes the first of the
    five steps and the loop makes the other four, each of which evaluates
    one candidate or rejects a duplicate; so between one and five
    candidates are evaluated in all, the baseline included (exactly five
    when the rejection cache is disabled), and the returned best solution
    is the initial guess. *)
Theorem run_five_steps_constant_objective shuffle depth params v a fuel rnd dir :
  (forall r l, Permutation l (shuffle r l)) ->
  none_free params = true ->
  shape_ok params (_get_initial_solution params) = true ->
  (height params <= depth)%nat ->
  (0 < _count_free_parameters_rec params)%nat ->
  arg_steps a = Some 5%nat -> arg_endless_mode a = false ->
  canonical_direction (arg_direction a) = Ok dir ->
  (4 <= fuel)%nat ->
  exists self',
    run shuffle depth (constant_objective v) (Search_init params) a fuel rnd
      = Some (self', Ok (_get_initial_solution params))
    /\ _best_solution self' = _get_initial_solution params
    /\ _best_f self' = Some v
    /\ (1 <= evaluations self' <= 5)%nat
    /\ (arg_enable_rejection_cache a = false -> evaluations self' = 5%nat).
Proof.
  intros Hperm Hnf Hshape Hh Hpos Hsteps Hend Hdir Hfuel.
  exact (run_constant_objective shuffle depth params v a 4 fuel rnd dir
           Hperm Hnf Hshape Hh Hpos Hsteps Hend Hdir Hfuel).
Qed.

Lemma run_five_steps_constant_objective_witness :
  exists self',
    run no_shuffle 10 (constant_objective 3) (Search_init demo_space) (default_args 5)
      4 0 = Some (self', Ok (_get_initial_solution demo_space))
    /\ (1 <= evaluations self' <= 5)%nat.
Proof.
  destruct (run_five_steps_constant_objective no_shuffle 10 demo_space 3
              (default_args 5) 4 0 "max") as (s & H1 & _ & _ & H2 & _).
  - intros r l. apply Permutation_refl.
  - reflexivity.
  - reflexivity.
  - cbn. lia.
  - cbn. lia.
  - reflexivity.
  - reflexivity.
  - reflexivity.
  - lia.
  - exists s. split; assumption.
Defined.

(** ** The manual queue *)

Lemma enqueue_items_fill f dc db items :
  enqueue_items f dc db = Ok items ->
  Forall2 (fun kb kx : string * pyval =>
             fst kx = fst kb
             /\ match dict_get dc (fst kb) with
                | None => snd kx = snd kb
                | Some c => f (snd kb) c = Ok (snd kx)
                end) db items.
Proof.
  revert items. induction db as [|[k b] rest IH]; intros items H.
  - cbn in H. injection H as <-. constructor.
  - cbn [enqueue_items] in H. destruct (dict_get dc k) as [c|] eqn:Hk.
    + destruct (f b c) as [r|] eqn:Hr; [|discriminate]. cbn [bind] in H.
      destruct (enqueue_items f dc rest) as [rs|]; [|discriminate].
      cbn [bind] in H. injection H as <-. constructor; [|now apply IH].
      cbn [fst snd]. rewrite Hk. split; [reflexivity|exact Hr].
    + destruct (enqueue_items f dc rest) as [rs|]; [|discriminate].
      cbn [bind] in H. injection H as <-. constructor; [|now apply IH].
      cbn [fst snd]. rewrite Hk. split; reflexivity.
Qed.

Lemma enqueue_items_ok f dc db :
  (forall k b c, In (k, b) db -> dict_get dc k = Some c -> is_ok (f b c) = true) ->
  is_ok (enqueue_items f dc db) = true.
Proof.
  induction db as [|[k b] rest IH]; intros H; [reflexivity|].
  cbn [enqueue_items].
  assert (Hrest : is_ok (enqueue_items f dc rest) = true).
  { apply IH. intros k' b' c' Hin. apply H. now right. }
  destruct (enqueue_items f dc rest) as [rs|]; [|discriminate].
  destruct (dict_get dc k) as [c|] eqn:Hk; [|reflexivity].
  specialize (H k b c (or_introl eq_refl) Hk).
  destruct (f b c); [reflexivity|discriminate].
Qed.

Lemma find_unregistered (db : list (string * pyval)) keys :
  match List.find (fun k => negb (key_in k db)) keys with
  | Some k0 => In k0 keys /\ key_in k0 db = false
  | None => forall k, In k keys -> key_in k db = true
  end.
Proof.
  destruct (List.find _ keys) as [k0|] eqn:E.
  - apply List.find_some in E as [Hin Hk]. split; [exact Hin|].
    now apply negb_true_iff in Hk.
  - intros k Hin. pose proof (List.find_none _ _ E k Hin) as Hk. cbn in Hk.
    now apply negb_false_iff in Hk.
Qed.

(** membership of a key looks at the keys only *)
Lemma key_in_same_keys {A B} (d1 : list (string * A)) (d2 : list (string * B)) k :
  map fst d1 = map fst d2 -> key_in k d1 = key_in k d2.
Proof.
  unfold key_in. revert d2.
  induction d1 as [|[k1 v1] r1 IH]; intros [|[k2 v2] r2] H; try discriminate;
    [reflexivity|].
  cbn [map fst] in H. injection H as -> H. cbn [dict_get].
  destruct (String.eqb k2 k); [reflexivity|]. now apply IH.
Qed.

(** A guess that is already in the cache is popped and rejected: in the
    second run nothing queued by hand is evaluated, a drawn candidate is. *)
Lemma enqueued_duplicate_is_not_evaluated :
  exists s1 s2 s3 r1 r3,
    demo_after_first_run = Some (s1, r1)
    /\ enqueue s1 (VDict [("x", VAtom (SInt 3))]) = Ok s2
    /\ _manually_queued_candidates s2 = [_best_solution s1]
    /\ demo_after_second_run = Some (s3, r3)
    /\ _manually_queued_candidates s3 = []
    /\ evaluations s1 = 1%nat /\ evaluations s3 = 2%nat
    /\ existsb is_manual_start (trace s3) = false
    /\ existsb is_drawn_start (trace s3) = true.
Proof.
  do 5 eexists. split; [vm_compute; reflexivity|].
  split; [vm_compute; reflexivity|]. split; [reflexivity|].
  split; [vm_compute; reflexivity|]. repeat split.
Qed.

Lemma enqueue_dict self db dc :
  _best_solution self = VDict db ->
  enqueue self (VDict dc) =
    match List.find (fun k => negb (key_in k db)) (map fst dc) with
    | Some k => Raise (ValueError (MsgGuessNotRegistered k))
    | None =>
        added <-- enqueue_items _enqueue_rec dc db ;;
        Ok (set_queue (_manually_queued_candidates self ++ [VDict added]) self)
    end.
Proof.
  intros Hb. unfold enqueue. rewrite Hb. cbn [_enqueue_rec].
  destruct (List.find _ _); [reflexivity|].
  destruct (enqueue_items _enqueue_rec dc db); reflexivity.
Qed.

(** With a queued candidate [run] evaluates no baseline: after the
    set-up the loop starts right away. *)
Lemma run_with_queue shuffle depth objective_function self a sched dir fuel rnd :
  _manually_queued_candidates self <> [] ->
  ScheduledRun_init a = Ok sched ->
  canonical_direction (arg_direction a) = Ok dir ->
  run shuffle depth objective_function self a fuel rnd =
    match search_loop shuffle depth objective_function fuel
            (run_prepared self a sched dir) (Schedule.temperature sched) rnd with
    | None => None
    | Some (s, Raise e) => Some (s, Raise e)
    | Some (s, Ok _) => Some (run_finished s, Ok (_best_solution (run_finished s)))
    end.
Proof.
  intros Hq Hs Hd. unfold run. rewrite Hs, Hd. fold (run_prepared self a sched dir).
  assert (Hc : (manual_queue_count (run_prepared self a sched dir) =? 0)%nat = false).
  { unfold manual_queue_count. cbn.
    destruct (_manually_queued_candidates self); [contradiction|reflexivity]. }
  rewrite Hc.
  replace (match _best_f (run_prepared self a sched dir) with
           | Some _ | _ => (run_prepared self a sched dir, Ok tt)
           end) with (run_prepared self a sched dir, Ok tt : result unit)
    by (destruct (_best_f _); reflexivity).
  cbn [_run_context run_prepared notify emit set_f_cache set_run_context schedule].
  destruct (search_loop _ _ _ _ _ _ _) as [[s [u|e]]|]; [|reflexivity..].
  unfold run_finished. destruct (_run_context s); reflexivity.
Qed.

(** One iteration of the loop with a candidate in the queue and budget
    left: the front of the queue is taken, nothing is drawn. *)
Lemma search_loop_takes_queue_front
    shuffle depth objective_function fuel self ctx t rnd candidate rest :
  _manually_queued_candidates self = candidate :: rest ->
  _run_context self = Some ctx -> Schedule.is_timeout (schedule ctx) = false ->
  next_candidate shuffle depth self ctx t rnd
    = Ok (set_queue rest self, candidate, MANUALLY_ADDED)
  /\ search_loop shuffle depth objective_function (S fuel) self t rnd =
       if Cache.contains (_f_cache self) candidate
       then search_loop shuffle depth objective_function fuel
              (step_schedule (set_queue rest self)) (reject_temperature t) (S rnd)
       else
         match _submit_candidate objective_function (set_queue rest self)
                 MANUALLY_ADDED candidate with
         | (s, Raise e) => Some (s, Raise e)
         | (s, Ok _) =>
             search_loop shuffle depth objective_function fuel (step_schedule s)
               match _run_context s with
               | Some c => Schedule.temperature (schedule c)
               | None => t
               end (S rnd)
         end.
Proof.
  intros Hq Hctx Ht.
  assert (Hn : next_candidate shuffle depth self ctx t rnd
               = Ok (set_queue rest self, candidate, MANUALLY_ADDED)).
  { unfold next_candidate. now rewrite Hq. }
  split; [exact Hn|].
  cbn [search_loop]. rewrite Hctx, Ht, Hn.
  unfold manual_queue_count. rewrite Hq. cbn [length Nat.eqb andb].
  rewrite andb_false_r.
  change (_f_cache (set_queue rest self)) with (_f_cache self).
  destruct (Cache.contains (_f_cache self) candidate); cbn [negb]; [reflexivity|].
  destruct (_submit_candidate _ _ _ _) as [s [u|e]]; reflexivity.
Qed.

(** C7. On a Search object whose tree of parameters is a dict and whose
    best solution has an entry exactly for the keys registered in that
    tree (as after [Search.__init__], after an assignment before the first
    evaluation and after evaluations of its candidates). What [enqueue]
    appends for a guess that is a dict: it has the registered keys, with
    the value of the best solution wherever the guess has no entry, and
    the (recursive) merge where it has one; a key of the guess that is not
    registered in the tree raises the configuration error at once, and a
    guess with registered keys whose nested merges go through is
    accepted. In the next run no baseline is
    evaluated, and as long as the queue is not empty an iteration of the
    loop takes the front of the queue, tagged as manually added, and draws
    no seeded or mutated candidate; the candidate taken is evaluated,
    unless it is already in the evaluation cache: then it is rejected as a
    duplicate like any other candidate. *)
Theorem enqueue_fills_from_best_and_is_taken_first self d db dc :
  _params self = NDict d ->
  _best_solution self = VDict db ->
  (forall k, key_in k db = key_in k d) ->
  (forall self', enqueue self (VDict dc) = Ok self' ->
     exists added,
       _manually_queued_candidates self'
         = _manually_queued_candidates self ++ [VDict added]
       /\ Forall2 (filled_from_best dc) db added
       /\ (forall k, key_in k added = key_in k d))
  /\ ((forall k, In k (map fst dc) -> key_in k d = true) ->
      (forall k b c, In (k, b) db -> dict_get dc k = Some c ->
                     is_ok (_enqueue_rec b c) = true) ->
      is_ok (enqueue self (VDict dc)) = true)
  /\ (forall k, In k (map fst dc) -> key_in k d = false ->
      exists k0, In k0 (map fst dc) /\ key_in k0 d = false
        /\ enqueue self (VDict dc) = Raise (ValueError (MsgGuessNotRegistered k0)))
  /\ (forall shuffle depth objective_function a sched dir fuel rnd,
      _manually_queued_candidates self <> [] ->
      ScheduledRun_init a = Ok sched ->
      canonical_direction (arg_direction a) = Ok dir ->
      run shuffle depth objective_function self a fuel rnd =
        match search_loop shuffle depth objective_function fuel
                (run_prepared self a sched dir) (Schedule.temperature sched) rnd with
        | None => None
        | Some (s, Raise e) => Some (s, Raise e)
        | Some (s, Ok _) => Some (run_finished s, Ok (_best_solution (run_finished s)))
        end)
  /\ (forall shuffle depth objective_function fuel s ctx t rnd candidate rest,
      _manually_queued_candidates s = candidate :: rest ->
      _run_context s = Some ctx -> Schedule.is_timeout (schedule ctx) = false ->
      next_candidate shuffle depth s ctx t rnd
        = Ok (set_queue rest s, candidate, MANUALLY_ADDED)
      /\ search_loop shuffle depth objective_function (S fuel) s t rnd =
           if Cache.contains (_f_cache s) candidate
           then search_loop shuffle depth objective_function fuel
                  (step_schedule (set_queue rest s)) (reject_temperature t) (S rnd)
           else
             match _submit_candidate objective_function (set_queue rest s)
                     MANUALLY_ADDED candidate with
             | (s', Raise e) => Some (s', Raise e)
             | (s', Ok _) =>
                 search_loop shuffle depth objective_function fuel (step_schedule s')
                   match _run_context s' with
                   | Some c => Schedule.temperature (schedule c)
                   | None => t
                   end (S rnd)
             end).
Proof.
  intros _ Hb Hkeys. pose proof (enqueue_dict self db dc Hb) as He.
  pose proof (find_unregistered db (map fst dc)) as Hf.
  split; [|split; [|split; [|split]]].
  - intros self' H. rewrite He in H.
    destruct (List.find _ _); [discriminate|].
    destruct (enqueue_items _enqueue_rec dc db) as [added|] eqn:Ha; [|discriminate].
    cbn [bind] in H. injection H as <-. exists added. split; [reflexivity|].
    pose proof (enqueue_items_fill _ _ _ _ Ha) as Hfill.
    split; [exact Hfill|].
    intros k. rewrite <- Hkeys. apply key_in_same_keys.
    clear -Hfill. induction Hfill as [|kb kx ? ? [E _] _ IH]; [reflexivity|].
    cbn [map]. now rewrite E, IH.
  - intros Hk Hm. rewrite He.
    destruct (List.find _ _) as [k0|].
    + destruct Hf as [Hin Hk0]. rewrite Hkeys, (Hk k0 Hin) in Hk0. discriminate.
    + pose proof (enqueue_items_ok _enqueue_rec dc db Hm) as Hok.
      destruct (enqueue_items _enqueue_rec dc db); [reflexivity|discriminate].
  - intros k Hin Hk. rewrite He.
    destruct (List.find _ _) as [k0|].
    + exists k0. destruct Hf as [Hin0 Hk0]. rewrite Hkeys in Hk0.
      repeat split; assumption.
    + rewrite <- Hkeys, (Hf k Hin) in Hk. discriminate.
  - intros. now apply run_with_queue.
  - intros. now apply search_loop_takes_queue_front.
Qed.

Lemma enqueue_fills_from_best_witness :
  _params (Search_init demo_space)
    = NDict [("x", NParam demo_param); ("c", NConst (SInt 7))]
  /\ _best_solution (Search_init demo_space)
     = VDict [("x", VAtom (SInt 3)); ("c", VAtom (SInt 7))]
  /\ is_ok (enqueue (Search_init demo_space) (VDict [("x", VAtom (SInt 5))])) = true.
Proof.
  split; [reflexivity|]. split; [reflexivity|].
  refine (proj1 (proj2 (enqueue_fills_from_best_and_is_taken_first
                          (Search_init demo_space)
                          [("x", NParam demo_param); ("c", NConst (SInt 7))]
                          [("x", VAtom (SInt 3)); ("c", VAtom (SInt 7))]
                          [("x", VAtom (SInt 5))] eq_refl eq_refl _)) _ _).
  - intros k. apply key_in_same_keys. reflexivity.
  - intros k [<-|[]]. reflexivity.
  - intros k b c [[= <- <-]|[[= <- <-]|[]]] _; reflexivity.
Defined.

(** *** The initial solution has the shape of the tree *)

Lemma initial_solution_dict d :
  _get_initial_solution (NDict d)
  = VDict (map (fun kv => (fst kv, _get_initial_solution (snd kv))) d).
Proof.
  induction d as [|[k v] rest IH]; [reflexivity|].
  change (_get_initial_solution (NDict ((k, v) :: rest)))
    with (VDict ((k, _get_initial_solution v)
                   :: match _get_initial_solution (NDict rest) with
                      | VDict r => r
                      | _ => []
                      end)).
  now rewrite IH.
Qed.

Lemma initial_solution_list l :
  _get_initial_solution (NList l) = VList (map _get_initial_solution l).
Proof.
  induction l as [|v rest IH]; [reflexivity|].
  change (_get_initial_solution (NList (v :: rest)))
    with (VList (_get_initial_solution v
                   :: match _get_initial_solution (NList rest) with
                      | VList r => r
                      | _ => []
                      end)).
  now rewrite IH.
Qed.

Lemma dict_get_distinct {A} (d : list (string * A)) k v :
  distinct (map fst d) = true -> In (k, v) d -> dict_get d k = Some v.
Proof.
  induction d as [|[k' v'] rest IH]; intros Hd Hin; [destruct Hin|].
  cbn [map fst distinct] in Hd. apply andb_true_iff in Hd as [Hk Hrest].
  cbn [dict_get]. destruct Hin as [[= -> ->]|Hin].
  - now rewrite String.eqb_refl.
  - destruct (String.eqb k' k) eqn:E; [|now apply IH].
    apply String.eqb_eq in E. subst k'. exfalso.
    apply negb_true_iff in Hk. apply not_true_iff_false in Hk. apply Hk.
    apply existsb_exists. exists k. split; [|apply String.eqb_refl].
    apply (in_map fst) in Hin. exact Hin.
Qed.

Lemma forallb_i_lookup {A} (f : nat -> A -> bool) (l : list A) i :
  (forall j x, l !! j = Some x -> f (i + j)%nat x = true) ->
  forallb_i f i l = true.
Proof.
  revert i. induction l as [|x rest IH]; intros i H; [reflexivity|].
  cbn [forallb_i]. apply andb_true_iff. split.
  - rewrite <- (Nat.add_0_r i). now apply H.
  - apply IH. intros j y Hj. rewrite Nat.add_succ_comm. now apply H.
Qed.

Lemma initial_solution_shape_ok depth :
  forall nd, (height nd <= depth)%nat -> keys_unique nd = true ->
  shape_ok nd (_get_initial_solution nd) = true.
Proof.
  induction depth as [|depth IH]; intros nd Hh Hu.
  { pose proof (height_pos nd). lia. }
  destruct nd as [p|d|l|a]; [reflexivity| | |reflexivity].
  - rewrite initial_solution_dict. cbn [shape_ok keys_unique] in *.
    apply andb_true_iff in Hu as [Hd Hc]. rewrite forallb_forall in Hc.
    pose proof (height_dict_children d depth Hh) as Hch.
    rewrite List.Forall_forall in Hch.
    apply forallb_forall. intros [k v] Hin. cbn [fst snd py_getitem].
    unfold getitem.
    rewrite (dict_get_distinct _ k (_get_initial_solution v)).
    + apply IH; [apply (Hch _ Hin)|apply (Hc _ Hin)].
    + rewrite map_map. cbn [fst]. exact Hd.
    + apply (in_map (fun kv => (fst kv, _get_initial_solution (snd kv)))) in Hin.
      exact Hin.
  - rewrite initial_solution_list. cbn [shape_ok keys_unique] in *.
    rewrite forallb_forall in Hu.
    pose proof (height_list_children l depth Hh) as Hch.
    rewrite List.Forall_forall in Hch.
    apply forallb_i_lookup. intros j v Hj. cbn [Nat.add py_index].
    rewrite list_lookup_fmap, Hj. cbn.
    assert (Hin : In v l).
    { apply list_elem_of_In. apply list_elem_of_lookup. eauto. }
    apply IH; [apply (Hch _ Hin)|apply (Hu _ Hin)].
Qed.

(** With distinct keys in every dict, the initial solution has an entry
    wherever the tree has a child. *)
Lemma initial_solution_shape nd :
  keys_unique nd = true -> shape_ok nd (_get_initial_solution nd) = true.
Proof. apply (initial_solution_shape_ok (height nd)). lia. Qed.

(** * Further properties *)

(** ** Drawing candidates *)

Lemma sample_items_map f g d :
  Forall (fun kv : string * node => f (snd kv) = Ok (g (snd kv))) d ->
  sample_items f d = Ok (map (fun kv => (fst kv, g (snd kv))) d).
Proof.
  induction 1 as [|[k v] rest Hx _ IH]; [reflexivity|].
  cbn [snd] in Hx. cbn [sample_items map fst snd]. rewrite Hx. cbn [bind].
  rewrite IH. reflexivity.
Qed.

Lemma sample_elems_map f g l :
  Forall (fun v : node => f v = Ok (g v)) l ->
  sample_elems f l = Ok (map g l).
Proof.
  induction 1 as [|v rest Hx _ IH]; [reflexivity|].
  cbn [sample_elems map]. rewrite Hx. cbn [bind]. rewrite IH. reflexivity.
Qed.

Lemma sample_solution_sampled self rnd depth :
  forall nd, none_free nd = true -> (height nd <= depth)%nat ->
  sample_solution depth self rnd nd = Ok (sampled rnd nd).
Proof.
  induction depth as [|depth IH]; intros nd Hnf Hh.
  { pose proof (height_pos nd). lia. }
  cbn [sample_solution]. rewrite (none_free_not_None nd Hnf).
  destruct nd as [p|d|l|a]; [reflexivity| | |reflexivity].
  - rewrite (sample_items_map _ (sampled rnd)); [reflexivity|].
    pose proof (height_dict_children d depth Hh) as Hc.
    cbn [none_free] in Hnf. rewrite forallb_forall in Hnf.
    apply List.Forall_forall. intros kv Hin. apply IH.
    + apply Hnf. exact Hin.
    + rewrite List.Forall_forall in Hc. apply Hc. exact Hin.
  - rewrite (sample_elems_map _ (sampled rnd)); [reflexivity|].
    pose proof (height_list_children l depth Hh) as Hc.
    cbn [none_free] in Hnf. rewrite forallb_forall in Hnf.
    apply List.Forall_forall. intros v Hin. apply IH.
    + apply Hnf. exact Hin.
    + rewrite List.Forall_forall in Hc. apply Hc. exact Hin.
Qed.

(** the entries of a dict that keeps the constants, one by one *)
Lemma constants_kept_dict_entries d vs :
  constants_kept (NDict d) (VDict vs) ->
  Forall2 (fun (kv : string * node) (kx : string * pyval) =>
             fst kx = fst kv /\ constants_kept (snd kv) (snd kx)) d vs.
Proof.
  revert vs. induction d as [|[k c] d IH]; intros [|[k' x] vs] H.
  - constructor.
  - destruct H.
  - destruct H.
  - destruct H as (Hk & Hc & Hrest). constructor; [split; assumption|].
    apply IH. exact Hrest.
Qed.

Lemma constants_kept_list_entries l vs :
  constants_kept (NList l) (VList vs) -> Forall2 constants_kept l vs.
Proof.
  revert vs. induction l as [|c l IH]; intros [|x vs] H.
  - constructor.
  - destruct H.
  - destruct H.
  - destruct H as (Hc & Hrest). constructor; [assumption|].
    apply IH. exact Hrest.
Qed.

(** A candidate that has the shape of a tree with distinct keys has an
    entry wherever the tree has a child: it can serve as best solution. *)
Lemma constants_kept_shape_ok depth :
  forall nd v, (height nd <= depth)%nat -> keys_unique nd = true ->
  constants_kept nd v -> shape_ok nd v = true.
Proof.
  induction depth as [|depth IH]; intros nd v Hh Hu Hk.
  { pose proof (height_pos nd). lia. }
  destruct nd as [p|d|l|a]; [reflexivity| | |reflexivity].
  - destruct v as [|?|vs]; try (now destruct Hk).
    apply constants_kept_dict_entries in Hk.
    cbn [shape_ok keys_unique] in *.
    apply andb_true_iff in Hu as [Hd Hc]. rewrite forallb_forall in Hc.
    pose proof (height_dict_children d depth Hh) as Hch.
    rewrite List.Forall_forall in Hch.
    assert (Hkeys : map fst vs = map fst d).
    { clear -Hk. induction Hk as [|? ? ? ? [E _] _ IH']; [reflexivity|].
      cbn [map]. now rewrite E, IH'. }
    apply forallb_forall. intros [k c] Hin. cbn [fst snd py_getitem]. unfold getitem.
    assert (Hx : exists x, In (k, x) vs /\ constants_kept c x).
    { clear -Hk Hin. induction Hk as [|[k1 c1] [k2 x2] ? ? [E Hc1] _ IH'];
        [destruct Hin|].
      cbn [fst snd] in *. destruct Hin as [[= -> ->]|Hin].
      - exists x2. subst k2. split; [now left|assumption].
      - destruct (IH' Hin) as (x & Hx & Hcx). exists x. split; [now right|assumption]. }
    destruct Hx as (x & Hinx & Hcx).
    rewrite (dict_get_distinct vs k x); [|now rewrite Hkeys|exact Hinx].
    apply IH; [apply (Hch _ Hin)|apply (Hc _ Hin)|exact Hcx].
  - destruct v as [|vs|?]; try (now destruct Hk).
    apply constants_kept_list_entries in Hk.
    cbn [shape_ok keys_unique] in *. rewrite forallb_forall in Hu.
    pose proof (height_list_children l depth Hh) as Hch.
    rewrite List.Forall_forall in Hch.
    apply forallb_i_lookup. intros j c Hj. cbn [Nat.add py_index].
    destruct (Forall2_lookup_l _ _ _ _ _ Hk Hj) as (x & Hjx & Hcx).
    rewrite Hjx.
    assert (Hin : In c l).
    { apply list_elem_of_In. apply list_elem_of_lookup. eauto. }
    apply IH; [apply (Hch _ Hin)|apply (Hu _ Hin)|exact Hcx].
Qed.

Lemma sampled_constants_kept rnd depth :
  forall nd, (height nd <= depth)%nat -> constants_kept nd (sampled rnd nd).
Proof.
  induction depth as [|depth IH]; intros nd Hh.
  { pose proof (height_pos nd). lia. }
  destruct nd as [p|d|l|a]; [exact I| | |reflexivity].
  - pose proof (height_dict_children d depth Hh) as Hch. clear Hh.
    induction d as [|[k c] d IHd]; [exact I|].
    inversion Hch as [|? ? Hc Hrest]; subst.
    split; [reflexivity|]. split; [now apply IH|]. now apply IHd.
  - pose proof (height_list_children l depth Hh) as Hch. clear Hh.
    induction l as [|c l IHl]; [exact I|].
    inversion Hch as [|? ? Hc Hrest]; subst.
    split; [now apply IH|]. now apply IHl.
Qed.

(** X1. On a search space without a constant [None] and with a recursion
    limit above its nesting depth, [sample_solution()] returns the
    candidate that has a fresh draw of [sample()] at every parameter and
    every constant of the tree at its place, whatever the best solution,
    the cache or the queue of the Search object are; with distinct keys
    in every dict the candidate has an entry wherever the tree has a
    child. *)
Theorem sample_solution_draws_every_parameter self rnd depth :
  none_free (_params self) = true ->
  (height (_params self) <= depth)%nat ->
  sample_solution depth self rnd (NConst SNone) = Ok (sampled rnd (_params self))
  /\ constants_kept (_params self) (sampled rnd (_params self))
  /\ (keys_unique (_params self) = true ->
      shape_ok (_params self) (sampled rnd (_params self)) = true).
Proof.
  intros Hnf Hh. split; [|split].
  - rewrite <- (sample_solution_sampled self rnd depth _ Hnf Hh).
    destruct depth as [|depth]; [reflexivity|].
    cbn [sample_solution is_None]. now rewrite (none_free_not_None _ Hnf).
  - now apply (sampled_constants_kept rnd depth).
  - intros Hu. apply (constants_kept_shape_ok depth); [exact Hh|exact Hu|].
    now apply (sampled_constants_kept rnd depth).
Qed.

Lemma py_round_bounds x : Qfloor x <= py_round x <= Qfloor x + 1.
Proof.
  unfold py_round. destruct (Qcompare _ _); [destruct (Z.even _)| |]; lia.
Qed.

Lemma py_round_mono x y : (x <= y)%Q -> py_round x <= py_round y.
Proof.
  intros H. pose proof (Qfloor_resp_le x y H) as Hf.
  destruct (Z.eq_dec (Qfloor x) (Qfloor y)) as [E|N].
  - unfold py_round. rewrite E.
    destruct (Qcompare (x - inject_Z (Qfloor y)) (1 # 2)) eqn:Cx;
      destruct (Qcompare (y - inject_Z (Qfloor y)) (1 # 2)) eqn:Cy;
      try (destruct (Z.even (Qfloor y)); lia); try lia; exfalso;
      repeat match goal with
        | C : Qcompare _ _ = Eq |- _ => apply (proj2 (Qeq_alt _ _)) in C
        | C : Qcompare _ _ = Lt |- _ => apply (proj2 (Qlt_alt _ _)) in C
        | C : Qcompare _ _ = Gt |- _ => apply (proj2 (Qgt_alt _ _)) in C
        end; lra.
  - pose proof (py_round_bounds x). pose proof (py_round_bounds y). lia.
Qed.

Lemma clip01_mono s t : (s <= t)%Q -> (clip01 s <= clip01 t)%Q.
Proof.
  intros H. unfold clip01.
  destruct (Qle_bool s 0) eqn:S0; destruct (Qle_bool t 0) eqn:T0;
    destruct (Qle_bool 1 s) eqn:S1; destruct (Qle_bool 1 t) eqn:T1;
    repeat match goal with
      | E : Qle_bool _ _ = true |- _ => apply Qle_bool_iff in E
      | E : Qle_bool _ _ = false |- _ =>
          apply not_true_iff_false in E; rewrite Qle_bool_iff in E;
          apply Qnot_le_lt in E
      end; lra.
Qed.

(** X3. "With decreasing temperature we resample/mutate fewer
    parameters": the number of parameters [mutate_from_best] mutates
    never grows when the temperature falls, for every number of free
    parameters; it is 1 for every temperature up to 0 and all of them
    for every temperature from 1 on. *)
Theorem amount_to_mutate_follows_temperature s t n :
  (s <= t)%Q ->
  amount_to_mutate (clip01 s) n <= amount_to_mutate (clip01 t) n
  /\ ((t <= 0)%Q -> amount_to_mutate (clip01 t) n = 1)
  /\ ((1 <= s)%Q -> (0 < n)%nat -> amount_to_mutate (clip01 s) n = Z.of_nat n).
Proof.
  intros H. split; [|split].
  - unfold amount_to_mutate. apply Z.max_le_compat_r. apply py_round_mono.
    apply Qmult_le_compat_r; [now apply clip01_mono|].
    change 0%Q with (inject_Z 0). rewrite <- Zle_Qle. lia.
  - intros Ht. unfold clip01. apply Qle_bool_iff in Ht. rewrite Ht.
    change 0%Q with (clip01 0). apply amount_to_mutate_at_0.
  - intros Hs Hn. unfold clip01.
    assert (H0 : Qle_bool s 0 = false).
    { apply not_true_iff_false. rewrite Qle_bool_iff. lra. }
    apply Qle_bool_iff in Hs. rewrite H0, Hs.
    change 1%Q with (clip01 1). now apply amount_to_mutate_at_1.
Qed.

(** ** Merging a guess into the best solution *)

Lemma key_in_keys {A} (d : list (string * A)) k :
  In k (map fst d) -> key_in k d = true.
Proof.
  unfold key_in. induction d as [|[k' v] rest IH]; intros Hin; [destruct Hin|].
  cbn [dict_get]. destruct (String.eqb k' k) eqn:E; [reflexivity|].
  destruct Hin as [Hk|Hin]; [|now apply IH].
  cbn in Hk. subst k'. now rewrite String.eqb_refl in E.
Qed.

Lemma find_all_false {A} (f : A -> bool) l :
  (forall x, In x l -> f x = false) -> List.find f l = None.
Proof.
  induction l as [|x l IH]; intros H; [reflexivity|].
  cbn. rewrite (H x (or_introl eq_refl)). apply IH. intros y Hy. apply H. now right.
Qed.

Lemma enqueue_items_same f dc d :
  (forall k v, In (k, v) d -> dict_get dc k = Some v /\ f v v = Ok v) ->
  enqueue_items f dc d = Ok d.
Proof.
  induction d as [|[k v] rest IH]; intros H; [reflexivity|].
  cbn [enqueue_items]. destruct (H k v (or_introl eq_refl)) as [Hk Hv].
  rewrite Hk, Hv. cbn [bind]. rewrite IH; [reflexivity|].
  intros k' v' Hin. apply H. now right.
Qed.

Lemma enqueue_items_empty f d : enqueue_items f [] d = Ok d.
Proof.
  induction d as [|[k v] rest IH]; [reflexivity|].
  cbn [enqueue_items dict_get]. now rewrite IH.
Qed.

Lemma enqueue_elems_same f lb :
  forall suf i,
    (forall j b, suf !! j = Some b -> lb !! (i + j)%nat = Some b /\ f b b = Ok b) ->
    enqueue_elems f (VList lb) suf i = Ok suf.
Proof.
  induction suf as [|b rest IH]; intros i H; [reflexivity|].
  destruct (H 0%nat b eq_refl) as [Hb Hf]. rewrite Nat.add_0_r in Hb.
  cbn [enqueue_elems py_len bind].
  pose proof (lookup_lt_Some _ _ _ Hb) as Hlt.
  apply Nat.ltb_lt in Hlt. rewrite Hlt. cbn [py_index]. rewrite Hb. cbn [bind].
  rewrite Hf. cbn [bind]. rewrite IH; [reflexivity|].
  intros j c Hj. rewrite Nat.add_succ_comm. now apply H.
Qed.

Lemma pyval_height_pos v : (1 <= pyval_height v)%nat.
Proof. destruct v; cbn; lia. Qed.

Lemma pyval_height_list l n x :
  (pyval_height (VList l) <= S n)%nat -> In x l -> (pyval_height x <= n)%nat.
Proof.
  cbn [pyval_height]. intros H Hin. apply le_S_n in H.
  induction l as [|y l IH]; [destruct Hin|]. cbn [foldr] in H.
  destruct Hin as [->|Hin]; [lia|]. apply IH; [lia|exact Hin].
Qed.

Lemma pyval_height_dict d n k x :
  (pyval_height (VDict d) <= S n)%nat -> In (k, x) d -> (pyval_height x <= n)%nat.
Proof.
  cbn [pyval_height]. intros H Hin. apply le_S_n in H.
  induction d as [|y d IH]; [destruct Hin|]. cbn [foldr] in H.
  destruct Hin as [->|Hin]; [cbn [snd] in H; lia|]. apply IH; [lia|exact Hin].
Qed.

Lemma _enqueue_rec_same n :
  forall b, (pyval_height b <= n)%nat -> pyval_keys_unique b = true ->
  _enqueue_rec b b = Ok b.
Proof.
  induction n as [|n IH]; intros b Hh Hu.
  { pose proof (pyval_height_pos b). lia. }
  destruct b as [a|l|d]; [reflexivity| |].
  - cbn [_enqueue_rec]. cbn [pyval_keys_unique] in Hu. rewrite forallb_forall in Hu.
    rewrite (enqueue_elems_same _enqueue_rec l l 0%nat); [reflexivity|].
    intros j b Hj. split; [exact Hj|].
    assert (Hin : In b l).
    { apply list_elem_of_In. apply list_elem_of_lookup. eauto. }
    apply IH; [now apply (pyval_height_list l n)|now apply Hu].
  - cbn [_enqueue_rec]. cbn [pyval_keys_unique] in Hu.
    apply andb_true_iff in Hu as [Hd Hc]. rewrite forallb_forall in Hc.
    rewrite find_all_false.
    + rewrite (enqueue_items_same _enqueue_rec d d); [reflexivity|].
      intros k v Hin. split; [now apply dict_get_distinct|].
      apply IH; [now apply (pyval_height_dict d n k)|apply (Hc _ Hin)].
    + intros k Hin. now rewrite key_in_keys.
Qed.

(** X5. [_enqueue_rec] of the best solution with the empty guess [{}]
    gives the best solution back, and so does the merge of a candidate
    with itself (distinct keys in its dicts): [search += {}] and
    [search += search.best] queue a copy of the best solution. *)
Theorem enqueue_rec_empty_or_same_guess_is_best db b :
  _enqueue_rec (VDict db) (VDict []) = Ok (VDict db)
  /\ (pyval_keys_unique b = true -> _enqueue_rec b b = Ok b)
  /\ (forall self, _best_solution self = VDict db ->
      enqueue self (VDict [])
      = Ok (set_queue (_manually_queued_candidates self ++ [VDict db]) self)).
Proof.
  assert (H : _enqueue_rec (VDict db) (VDict []) = Ok (VDict db)).
  { cbn [_enqueue_rec map List.find]. now rewrite enqueue_items_empty. }
  split; [exact H|]. split.
  - apply (_enqueue_rec_same (pyval_height b)). lia.
  - intros self Hb. unfold enqueue. now rewrite Hb, H.
Qed.




(** ** Extending the search space: [__setitem__] *)

Lemma map_dict_set {A B} (g : A -> B) (d : list (string * A)) k v :
  map (fun kv => (fst kv, g (snd kv))) (dict_set d k v)
  = dict_set (map (fun kv => (fst kv, g (snd kv))) d) k (g v).
Proof.
  induction d as [|[k' v'] rest IH]; [reflexivity|].
  cbn [dict_set map fst snd]. destruct (String.eqb k' k); [reflexivity|].
  cbn [map fst snd]. now rewrite IH.
Qed.

Lemma dict_set_new {A} (d : list (string * A)) k v :
  key_in k d = false -> dict_set d k v = d ++ [(k, v)].
Proof.
  unfold key_in. induction d as [|[k' v'] rest IH]; intros H; [reflexivity|].
  cbn [dict_get] in H. cbn [dict_set]. destruct (String.eqb k' k); [discriminate|].
  cbn [app]. now rewrite IH.
Qed.

Lemma dict_get_set {A} (d : list (string * A)) k v k' :
  dict_get (dict_set d k v) k' = if String.eqb k k' then Some v else dict_get d k'.
Proof.
  induction d as [|[k0 v0] rest IH]; [reflexivity|].
  cbn [dict_set dict_get]. destruct (String.eqb k0 k) eqn:E.
  - apply String.eqb_eq in E. subst k0. cbn [dict_get].
    destruct (String.eqb k k'); reflexivity.
  - cbn [dict_get]. destruct (String.eqb k0 k') eqn:E'; [|exact IH].
    apply String.eqb_eq in E'. subst k0. now rewrite String.eqb_sym, E.
Qed.

(** X7. Before the first evaluation [search[key] = value] keeps the
    Search object in step with its tree: on an object whose best solution
    is the initial solution of its tree, the tree gets the entry (in place
    for a key that is there, appended for a new one), the count of free
    parameters is the count of the new tree and the best solution is the
    initial solution of the new tree; the queue, the cache and the best
    value are left alone. On a fresh object the result is the object
    [Search.__init__] builds for the extended dict. *)
Theorem setitem_before_run_keeps_in_step self d key value :
  _params self = NDict d -> _best_f self = None ->
  _best_solution self = _get_initial_solution (NDict d) ->
  exists self',
    __setitem__ self key value = (self', Ok tt)
    /\ _params self' = NDict (dict_set d key value)
    /\ (forall k, dict_get (dict_set d key value) k
                  = if String.eqb key k then Some value else dict_get d k)
    /\ _free_param_count self' = _count_free_parameters_rec (_params self')
    /\ _best_solution self' = _get_initial_solution (_params self')
    /\ _best_f self' = None
    /\ _manually_queued_candidates self' = _manually_queued_candidates self
    /\ _f_cache self' = _f_cache self
    /\ (self = Search_init (NDict d) ->
        self' = Search_init (NDict (dict_set d key value))).
Proof.
  intros Hp Hf Hb.
  assert (Hinit : VDict (dict_set (map (fun kv => (fst kv, _get_initial_solution (snd kv))) d)
                           key (_get_initial_solution value))
                  = _get_initial_solution (NDict (dict_set d key value))).
  { rewrite initial_solution_dict. now rewrite map_dict_set. }
  assert (E : __setitem__ self key value
              = (set_best (_get_initial_solution (NDict (dict_set d key value))) None
                   (set_free_param_count
                      (_count_free_parameters_rec (NDict (dict_set d key value)))
                      (set_params (NDict (dict_set d key value)) self)), Ok tt)).
  { unfold __setitem__. rewrite Hp.
    cbn [_best_f _best_solution set_params set_free_param_count].
    rewrite Hf, Hb, initial_solution_dict, Hinit. reflexivity. }
  eexists. split; [exact E|].
  split; [reflexivity|]. split; [intros k; apply dict_get_set|].
  split; [reflexivity|]. split; [reflexivity|]. split; [reflexivity|].
  split; [reflexivity|]. split; [reflexivity|].
  intros ->. reflexivity.
Qed.

Lemma mutate_items_app f best d1 d2 mask calls :
  mutate_items f best (d1 ++ d2) mask calls =
    (r <-- mutate_items f best d1 mask calls ;;
     r2 <-- mutate_items f best d2 (snd (fst r)) (snd r) ;;
     Ok (fst (fst r) ++ fst (fst r2), snd (fst r2), snd r2)).
Proof.
  revert mask calls. induction d1 as [|[k v] rest IH]; intros mask calls.
  - cbn [app mutate_items bind fst snd].
    destruct (mutate_items f best d2 mask calls) as [[[xs m] c]|e]; reflexivity.
  - cbn [app mutate_items]. destruct (py_getitem best k) as [bk|e]; [|reflexivity].
    cbn [bind]. destruct (f v bk mask calls) as [[[x m] c]|e]; [|reflexivity].
    cbn [bind]. rewrite IH.
    destruct (mutate_items f best rest m c) as [[[xs m'] c']|e]; [|reflexivity].
    cbn [bind fst snd].
    destruct (mutate_items f best d2 m' c') as [[[ys m''] c'']|e]; reflexivity.
Qed.

Lemma count_dict_app d1 d2 :
  _count_free_parameters_rec (NDict (d1 ++ d2))
  = (_count_free_parameters_rec (NDict d1) + _count_free_parameters_rec (NDict d2))%nat.
Proof.
  induction d1 as [|[k v] rest IH]; [reflexivity|].
  change (_count_free_parameters_rec (NDict (((k, v) :: rest) ++ d2)))
    with (_count_free_parameters_rec v + _count_free_parameters_rec (NDict (rest ++ d2)))%nat.
  change (_count_free_parameters_rec (NDict ((k, v) :: rest)))
    with (_count_free_parameters_rec v + _count_free_parameters_rec (NDict rest))%nat.
  rewrite IH. lia.
Qed.

Lemma dict_children_consume shuffle self rnd t depth d :
  none_free (NDict d) = true -> (height (NDict d) <= S depth)%nat ->
  Forall (fun kv : string * node =>
            consumes (mutate_from_best shuffle depth self rnd t) (snd kv)) d.
Proof.
  intros Hnf Hh. pose proof (height_dict_children d depth Hh) as Hc.
  cbn [none_free] in Hnf. rewrite forallb_forall in Hnf.
  apply List.Forall_forall. intros kv Hin. apply mutate_from_best_consumes.
  - apply Hnf. exact Hin.
  - rewrite List.Forall_forall in Hc. apply Hc. exact Hin.
Qed.

(** X8. After a first evaluation [search[key] = value] for a new key
    extends the tree and the count of free parameters but not the best
    solution: the next [mutate_from_best] goes through the entries that
    were there and then raises the KeyError of [best_node[key]], for every
    temperature and shuffle. *)
Theorem setitem_after_evaluation_breaks_mutate_from_best
    shuffle self d db bf key value rnd t depth best bitmask calls :
  (forall r l, Permutation l (shuffle r l)) ->
  _params self = NDict d -> _best_f self = Some bf ->
  _best_solution self = VDict db ->
  key_in key d = false -> key_in key db = false ->
  none_free (NDict d) = true -> shape_ok (NDict d) (VDict db) = true ->
  (height (NDict d) <= depth)%nat ->
  snd (__setitem__ self key value) = Ok tt
  /\ _params (fst (__setitem__ self key value)) = NDict (d ++ [(key, value)])
  /\ _best_solution (fst (__setitem__ self key value)) = VDict db
  /\ mutate_from_best shuffle depth (fst (__setitem__ self key value)) rnd t
       (NConst SNone) best bitmask calls = Raise (KeyError key).
Proof.
  intros Hperm Hp Hf Hb Hkd Hkb Hnf Hs Hh.
  assert (E : __setitem__ self key value
              = (set_free_param_count
                   (_count_free_parameters_rec (NDict (d ++ [(key, value)])))
                   (set_params (NDict (d ++ [(key, value)])) self), Ok tt)).
  { unfold __setitem__. rewrite Hp.
    cbn [_best_f set_params set_free_param_count]. rewrite Hf.
    now rewrite (dict_set_new d key value Hkd). }
  rewrite E. cbn [fst snd].
  split; [reflexivity|]. split; [reflexivity|]. split; [exact Hb|].
  set (s' := set_free_param_count _ _).
  destruct depth as [|depth]; [pose proof (height_pos (NDict d)); lia|].
  rewrite mutate_from_best_root_unfold by reflexivity.
  change (_params s') with (NDict (d ++ [(key, value)])).
  change (_best_solution s') with (_best_solution self). rewrite Hb.
  change (free_param_count s')
    with (_count_free_parameters_rec (NDict (d ++ [(key, value)]))).
  set (mask := shuffle rnd _).
  assert (Hlen : length mask
                 = (_count_free_parameters_rec (NDict [(key, value)])
                    + _count_free_parameters_rec (NDict d))%nat).
  { unfold mask. rewrite <- (Permutation_length (Hperm rnd _)).
    unfold fresh_bitmask. rewrite length_map, length_seq, count_dict_app. lia. }
  destruct (split_bits mask (_count_free_parameters_rec (NDict d))
              (_count_free_parameters_rec (NDict [(key, value)])))
    as (pre' & bits' & Hm' & Lb' & Lp'); [lia|].
  pose proof (dict_children_consume shuffle s' rnd (clip01 t) depth d Hnf Hh) as HF.
  destruct (mutate_items_ok _ (VDict db) d HF Hs pre' bits' calls Lb')
    as (vs & Hvs & _).
  cbn [mutate_from_best is_None]. rewrite mutate_items_app, Hm', Hvs.
  cbn [bind fst snd mutate_items py_getitem]. unfold getitem.
  unfold key_in in Hkb. destruct (dict_get db key); [discriminate|]. reflexivity.
Qed.

(** ** The best solution over a sequence of results *)

(** One call of [_async_result_ready] inside a run: the run context stays
    in place with its direction, and the best pair either stays or becomes
    the candidate with its value, which then improves on the old best. *)
Lemma async_result_ready_best_step self ctx candidate info cr :
  _run_context self = Some ctx ->
  let out := _async_result_ready self candidate info cr in
  (exists ctx', _run_context (fst out) = Some ctx' /\ direction ctx' = direction ctx)
  /\ ((_best_solution (fst out) = _best_solution self
       /\ _best_f (fst out) = _best_f self)
      \/ (_best_solution (fst out) = candidate
          /\ _best_f (fst out) = Some (value cr)
          /\ improves (_best_f self) (direction ctx) (value cr) = true
          /\ error cr = None /\ is_nan cr = false /\ was_pruned cr = false)).
Proof.
  intros Hctx. cbv zeta.
  destruct (error cr) as [err|] eqn:He.
  - destruct (_caught_exception self) eqn:Hc.
    + rewrite (async_error_later self candidate info cr err He Hc). cbn [fst].
      split; [eauto|]. left. split; reflexivity.
    + destruct (async_error_first self ctx candidate info cr err Hctx He Hc)
        as (s' & -> & _ & Hctx' & _ & Hf & Hs).
      cbn [fst]. split; [eexists; split; [exact Hctx'|reflexivity]|].
      left. split; assumption.
  - destruct (is_nan cr) eqn:Hn.
    + unfold _async_result_ready. rewrite He, Hctx. fold (ctx_told ctx cr). rewrite Hn.
      destruct (ignore_nans ctx); cbn [andb negb].
      * destruct (was_pruned cr); cbn [fst];
          (split; [eexists; split; [reflexivity|apply ctx_told_same]
                  |left; split; reflexivity]).
      * cbn [fst]. split; [exists ctx; split; [exact Hctx|reflexivity]|].
        left. split; reflexivity.
    + destruct (was_pruned cr) eqn:Hp.
      * unfold _async_result_ready. rewrite He, Hctx. fold (ctx_told ctx cr).
        rewrite Hn, Hp. cbn [andb fst].
        split; [eexists; split; [reflexivity|apply ctx_told_same]|left; split; reflexivity].
      * pose proof (async_admissible self ctx candidate info cr Hctx He Hn Hp) as Heq.
        cbv zeta in Heq. rewrite Heq.
        destruct (improves (_best_f self) (direction ctx) (value cr)) eqn:Hi; cbn [fst].
        -- split; [eexists; split; [|apply ctx_told_same]|].
           ++ unfold record_history. destruct (existsb _ _); reflexivity.
           ++ right. repeat split.
        -- split; [eexists; split; [|apply ctx_told_same]|].
           ++ unfold record_history. destruct (existsb _ _); reflexivity.
           ++ left. unfold record_history. destruct (existsb _ _); split; reflexivity.
Qed.

Lemma no_worse_refl dir a : no_worse dir a a.
Proof. split; intros _; apply Qle_refl. Qed.

Lemma no_worse_trans dir a b c : no_worse dir a b -> no_worse dir b c -> no_worse dir a c.
Proof.
  intros [H1 H2] [H3 H4]. split; intros Hd.
  - apply Qle_trans with b; auto.
  - apply Qle_trans with b; auto.
Qed.

Lemma improves_no_worse bf dir v : improves (Some bf) dir v = true -> no_worse dir v bf.
Proof.
  intros H. apply improves_spec in H as [H|(bf' & [= <-] & H)]; [discriminate|].
  split; intros Hd; destruct H as [[Hm Hlt]|[Hm Hlt]]; subst dir;
    try discriminate; now apply Qlt_le_weak.
Qed.

Lemma deliver_best_never_worse done :
  forall self ctx bf,
    _run_context self = Some ctx -> _best_f self = Some bf ->
    exists bf', _best_f (fst (deliver self done)) = Some bf'
                /\ no_worse (direction ctx) bf' bf.
Proof.
  induction done as [|[[candidate info] cr] rest IH]; intros self ctx bf Hctx Hbf.
  { exists bf. split; [exact Hbf|apply no_worse_refl]. }
  rewrite deliver_cons. cbv zeta. cbn [fst].
  pose proof (async_result_ready_best_step self ctx candidate info cr Hctx) as Hstep.
  cbv zeta in Hstep. destruct Hstep as [(ctx' & Hctx' & Hdir) Hbest].
  destruct Hbest as [[_ Hf]|(_ & Hf & Hi & _)].
  - destruct (IH _ ctx' bf Hctx' (eq_trans Hf Hbf)) as (bf' & H1 & H2).
    exists bf'. split; [exact H1|]. now rewrite <- Hdir.
  - destruct (IH _ ctx' (value cr) Hctx' Hf) as (bf' & H1 & H2).
    exists bf'. split; [exact H1|]. rewrite Hdir in H2.
    apply no_worse_trans with (value cr); [exact H2|].
    rewrite Hbf in Hi. now apply improves_no_worse.
Qed.

(** X9. Inside a run, once there is a best value it never gets lost and
    never gets worse: whatever results are handed to
    [_async_result_ready] afterwards (errors, NaNs, pruned and completed
    evaluations, in any order), the best value at the end is at least the
    old one in a maximising run and at most the old one in a minimising
    run. *)
Theorem best_value_never_gets_worse self ctx bf done :
  _run_context self = Some ctx -> _best_f self = Some bf ->
  exists bf',
    _best_f (fst (deliver self done)) = Some bf'
    /\ (direction ctx = "max" -> (bf <= bf')%Q)
    /\ (direction ctx = "min" -> (bf' <= bf)%Q).
Proof.
  intros Hctx Hbf.
  destruct (deliver_best_never_worse done self ctx bf Hctx Hbf) as (bf' & H1 & H2 & H3).
  exists bf'. repeat split; assumption.
Qed.

(** X10. A pruned evaluation never becomes the best solution, however
    good its last value is: inside a run, for a result without error that
    is flagged pruned (and is not NaN, or NaNs are ignored) the call
    returns, the candidate is committed to the cache, every observer hears
    [on_evaluate_pruned] with [is_pruned] set, and the best solution and
    the best value stay what they were; the pruner is told about the
    result unless it is NaN. *)
Theorem pruned_result_never_becomes_best self ctx candidate info cr :
  _run_context self = Some ctx -> error cr = None -> was_pruned cr = true ->
  is_nan cr && negb (ignore_nans ctx) = false ->
  let out := _async_result_ready self candidate info cr in
  snd out = Ok tt
  /\ _best_solution (fst out) = _best_solution self
  /\ _best_f (fst out) = _best_f self
  /\ _f_cache (fst out) = Cache.commit (_f_cache self) candidate (value cr)
  /\ _run_context (fst out) = Some (ctx_told ctx cr)
  /\ trace (fst out)
     = trace self
       ++ map (fun c => OnEvaluatePruned c candidate
                          (mkParamInfo (info_type info) true (info_is_nan info)))
            (callbacks ctx).
Proof.
  intros Hctx He Hp Hn out. subst out. unfold _async_result_ready.
  rewrite He, Hctx. fold (ctx_told ctx cr). rewrite Hn, Hp. cbn [fst snd].
  destruct (ctx_told_same ctx cr) as (_ & Hcb & _).
  repeat split. unfold notify. cbn. now rewrite Hcb.
Qed.

(** ** What a run leaves behind *)

Lemma submit_ok_keeps_caught objective_function self candidate_type candidate s2 :
  _submit_candidate objective_function self candidate_type candidate = (s2, Ok tt) ->
  _caught_exception s2 = _caught_exception self.
Proof.
  unfold _submit_candidate. destruct (_run_context self) as [ctx|] eqn:Hctx;
    [|discriminate].
  set (info := mkParamInfo candidate_type false false).
  set (s0 := set_f_cache _ _).
  destruct (task_executor ctx).
  { intros [= <-]. reflexivity. }
  intros H. change (_caught_exception self) with (_caught_exception s0).
  assert (Hctx0 : _run_context s0 = Some ctx) by exact Hctx.
  destruct (error (objective_function candidate)) as [err|] eqn:He.
  - destruct (_caught_exception s0) eqn:Hc.
    + rewrite (async_error_later s0 candidate info _ err He Hc) in H.
      injection H as <-. exact Hc.
    + destruct (async_error_first s0 ctx candidate info _ err Hctx0 He Hc)
        as (s' & Heq & _). rewrite Heq in H. discriminate.
  - pose proof (async_no_error s0 ctx candidate info _ Hctx0 He) as Hn.
    cbv zeta in Hn. rewrite H in Hn. cbn [fst] in Hn. apply Hn.
Qed.

Lemma next_candidate_keeps_caught shuffle depth self ctx t rnd s1 candidate ty :
  next_candidate shuffle depth self ctx t rnd = Ok (s1, candidate, ty) ->
  _caught_exception s1 = _caught_exception self.
Proof.
  unfold next_candidate. destruct (_manually_queued_candidates self).
  - destruct (Schedule.is_in_seeding_mode (schedule ctx)).
    + destruct (sample_solution _ _ _ _); [|discriminate]. now intros [= <- _ _].
    + destruct (mutate_from_best _ _ _ _ _ _ _ _ _); [|discriminate].
      now intros [= <- _ _].
  - now intros [= <- _ _].
Qed.

Lemma step_schedule_keeps_caught self :
  _caught_exception (step_schedule self) = _caught_exception self.
Proof. unfold step_schedule. destruct (_run_context self); reflexivity. Qed.

Lemma search_loop_ok_keeps_caught shuffle depth objective_function fuel :
  forall self t rnd s',
    search_loop shuffle depth objective_function fuel self t rnd = Some (s', Ok tt) ->
    _caught_exception s' = _caught_exception self.
Proof.
  induction fuel as [|fuel IH]; intros self t rnd s' H.
  - cbn [search_loop] in H. destruct (_run_context self); [|discriminate].
    destruct (Schedule.is_timeout _); [|discriminate]. now injection H as <-.
  - cbn [search_loop] in H. destruct (_run_context self) as [ctx|]; [|discriminate].
    destruct (Schedule.is_timeout _); [now injection H as <-|].
    destruct (_ && _); [discriminate|].
    destruct (next_candidate shuffle depth self ctx t rnd) as [[[s1 c] ty]|] eqn:Hn;
      [|discriminate].
    apply next_candidate_keeps_caught in Hn.
    destruct (negb _).
    + destruct (_submit_candidate objective_function s1 ty c) as [s2 [[]|e]] eqn:Hs;
        [|discriminate].
      apply submit_ok_keeps_caught in Hs. apply IH in H.
      rewrite H, step_schedule_keeps_caught. congruence.
    + apply IH in H. rewrite H, step_schedule_keeps_caught. exact Hn.
Qed.

(** X11. A call of [run] that returns normally returns the best solution
    the Search object holds at that moment, has removed its run context
    ([_run_context] is [None] again) and has caught no exception of the
    objective function, for every objective function, schedule and
    arguments. *)
Theorem run_returns_stored_best_and_cleans_up
    shuffle depth objective_function self a fuel rnd s' v :
  run shuffle depth objective_function self a fuel rnd = Some (s', Ok v) ->
  v = _best_solution s' /\ _run_context s' = None /\ _caught_exception s' = false.
Proof.
  unfold run.
  destruct (ScheduledRun_init a) as [sched|];
    destruct (canonical_direction (arg_direction a)) as [dir|]; try discriminate.
  set (ctx := mkRunContext dir _ _ sched _ None false).
  set (s1 := notify ctx OnSearchStart _).
  assert (Hc1 : _caught_exception s1 = false) by reflexivity.
  assert (Hfin : forall s2 : Search,
             _caught_exception s2 = false ->
             match
               search_loop shuffle depth objective_function fuel s2
                 match _run_context s2 with
                 | Some c => Schedule.temperature (schedule c)
                 | None => 0%Q
                 end rnd
             with
             | Some (s, Ok _) =>
                 Some (set_run_context None
                         match _run_context s with
                         | Some c => notify c OnSearchEnd
                                       (set_run_context (Some (ctx_set_terminate true c)) s)
                         | None => s
                         end,
                       Ok (_best_solution
                             (set_run_context None
                                match _run_context s with
                                | Some c => notify c OnSearchEnd
                                              (set_run_context
                                                 (Some (ctx_set_terminate true c)) s)
                                | None => s
                                end)))
             | Some (s, Raise e) => Some (s, Raise e)
             | None => None
             end = Some (s', Ok v) ->
             v = _best_solution s' /\ _run_context s' = None
             /\ _caught_exception s' = false).
  { intros s2 Hc2 H.
    destruct (search_loop _ _ _ _ _ _ _) as [[s3 [[]|e]]|] eqn:Hl; try discriminate.
    apply search_loop_ok_keeps_caught in Hl.
    injection H as <- <-. split; [reflexivity|]. split; [reflexivity|].
    destruct (_run_context s3); cbn; congruence. }
  destruct (_best_f s1).
  - apply Hfin. exact Hc1.
  - destruct (manual_queue_count s1 =? 0)%nat.
    + destruct (_submit_candidate objective_function s1 INIT (_best_solution s1))
        as [s2 [[]|e]] eqn:Hs; [|discriminate].
      apply submit_ok_keeps_caught in Hs. apply Hfin.
      rewrite step_schedule_keeps_caught. congruence.
    + apply Hfin. exact Hc1.
Qed.

(** The start of a run on a fresh Search object with a constant
    objective: the baseline is evaluated and takes the first step. *)
Lemma run_baseline_constant shuffle depth params v a max fuel rnd dir :
  arg_steps a = Some max -> arg_endless_mode a = false ->
  canonical_direction (arg_direction a) = Ok dir ->
  exists s2 c2,
    loop_inv params v (arg_enable_rejection_cache a) max 1 s2
    /\ _run_context s2 = Some c2
    /\ run shuffle depth (constant_objective v) (Search_init params) a fuel rnd =
         match search_loop shuffle depth (constant_objective v) fuel s2
                 (Schedule.temperature (schedule c2)) rnd with
         | None => None
         | Some (s, Raise e) => Some (s, Raise e)
         | Some (s, Ok _) => Some (run_finished s, Ok (_best_solution (run_finished s)))
         end.
Proof.
  intros Hsteps Hend Hdir.
  destruct (ScheduledRun_init_steps a max Hsteps Hend)
    as (sched & Hsched & Hs0 & Hsm & Hsi).
  unfold run. rewrite Hsched, Hdir.
  set (ctx := mkRunContext dir _ _ sched _ None false).
  set (s1 := notify ctx OnSearchStart _).
  change (_best_f s1) with (@None Q).
  change (manual_queue_count s1) with 0%nat. cbn [Nat.eqb].
  change (_best_solution s1) with (_get_initial_solution params).
  destruct (submit_constant v s1 ctx INIT (_get_initial_solution params)
              eq_refl eq_refl)
    as (s2 & Hs2 & P1 & P2 & P3 & P4 & P5 & (ctx' & Hctx' & Hte' & Hsch) & Hbest).
  rewrite Hs2.
  change (improves (_best_f s1) (direction ctx) v) with true in Hbest.
  injection Hbest as Hb1 Hb2.
  assert (Hinv : loop_inv params v (arg_enable_rejection_cache a) max 1
                    (step_schedule s2)).
  { unfold step_schedule. rewrite Hctx'.
    assert (He2 : evaluations s2 = 1%nat) by (rewrite P5; reflexivity).
    unfold loop_inv. cbn. rewrite Hsch. change (schedule ctx) with sched.
    change (evaluations (set_run_context _ s2)) with (evaluations s2).
    rewrite He2.
    split; [now rewrite P1|]. split; [now rewrite P2|].
    split; [exact Hb1|]. split; [exact Hb2|]. split; [now rewrite P3|].
    split; [lia|]. split; [now rewrite P4|]. split; [reflexivity|].
    eexists. split; [reflexivity|]. cbn. repeat split; try assumption.
    now rewrite Hs0. }
  pose proof Hinv as (_ & _ & _ & _ & _ & _ & _ & _ & c2 & Hc2 & _).
  exists (step_schedule s2), c2. split; [exact Hinv|]. split; [exact Hc2|].
  rewrite Hc2.
  destruct (search_loop _ _ _ _ _ _ _) as [[s [u|e]]|]; [|reflexivity..].
  unfold run_finished. destruct (_run_context s); reflexivity.
Qed.

Lemma run_finished_keeps s :
  _best_solution (run_finished s) = _best_solution s
  /\ _best_f (run_finished s) = _best_f s
  /\ _f_cache (run_finished s) = _f_cache s.
Proof. unfold run_finished. destruct (_run_context s); repeat split. Qed.

(** X12. A search space without a free parameter (constants only): a
    first [run] with a budget of one step evaluates the baseline and
    returns it; with a budget of two steps or more it evaluates the
    baseline, sets the best value, and then raises the ValueError "no
    parameters to tune" in the first iteration of the loop, leaving its
    run context in place. *)
Theorem run_without_free_parameters shuffle depth params v a fuel rnd dir :
  _count_free_parameters_rec params = 0%nat ->
  arg_endless_mode a = false ->
  canonical_direction (arg_direction a) = Ok dir ->
  (arg_steps a = Some 1%nat ->
   exists s',
     run shuffle depth (constant_objective v) (Search_init params) a fuel rnd
       = Some (s', Ok (_get_initial_solution params))
     /\ evaluations s' = 1%nat /\ _best_f s' = Some v)
  /\ (forall m, arg_steps a = Some (S (S m)) -> (1 <= fuel)%nat ->
      exists s',
        run shuffle depth (constant_objective v) (Search_init params) a fuel rnd
          = Some (s', Raise (ValueError MsgNoParameters))
        /\ evaluations s' = 1%nat /\ _best_f s' = Some v
        /\ _best_solution s' = _get_initial_solution params
        /\ is_Some (_run_context s')).
Proof.
  intros Hcount Hend Hdir. split.
  - intros Hsteps.
    destruct (run_baseline_constant shuffle depth params v a 1 fuel rnd dir
                Hsteps Hend Hdir) as (s2 & c2 & Hinv & Hc2 & ->).
    pose proof Hinv
      as (H1 & H2 & H3 & H4 & H5 & H6 & He & H7 & ctx & Hctx & Hte & Hm & Hk & Hi).
    assert (Hl : search_loop shuffle depth (constant_objective v) fuel s2
                   (Schedule.temperature (schedule c2)) rnd = Some (s2, Ok tt)).
    { destruct fuel; cbn [search_loop]; rewrite Hctx; unfold Schedule.is_timeout;
        rewrite Hm, Hk, Hi; reflexivity. }
    rewrite Hl. exists (run_finished s2).
    destruct (run_finished_keeps s2) as (K1 & K2 & K3).
    split; [now rewrite K1, H3|]. split; [|now rewrite K2].
    unfold evaluations in *. rewrite K3. lia.
  - intros m Hsteps Hfuel.
    destruct (run_baseline_constant shuffle depth params v a (S (S m)) fuel rnd dir
                Hsteps Hend Hdir) as (s2 & c2 & Hinv & Hc2 & ->).
    pose proof Hinv
      as (H1 & H2 & H3 & H4 & H5 & H6 & He & H7 & ctx & Hctx & Hte & Hm & Hk & Hi).
    assert (Hl : search_loop shuffle depth (constant_objective v) fuel s2
                   (Schedule.temperature (schedule c2)) rnd
                 = Some (s2, Raise (ValueError MsgNoParameters))).
    { destruct fuel as [|fuel]; [lia|]. cbn [search_loop]. rewrite Hctx.
      unfold Schedule.is_timeout. rewrite Hm, Hk, Hi. cbn [orb Nat.leb].
      unfold free_param_count, manual_queue_count. rewrite H2, Hcount, H5.
      reflexivity. }
    rewrite Hl. exists s2. split; [reflexivity|].
    unfold evaluations in *. repeat split; try assumption; try lia. eauto.
Qed.

(** ** More on checkpoints *)

(** X13. A checkpoint written by [save] from a Search object outside a
    run (or after its run has terminated) is read back by [load] on any
    Search object without an error, and that object then has the best
    value, the best solution, the history and the cache of the saved
    one. *)
Theorem checkpoint_round_trip_outside_run self fs path other :
  match _run_context self with
  | None => True
  | Some ctx => terminate ctx = true
  end ->
  exists fs',
    save self fs path None = Ok (fs', path)
    /\ snd (load other fs' path None) = Ok tt
    /\ _best_f (fst (fst (load other fs' path None))) = _best_f self
    /\ _best_solution (fst (fst (load other fs' path None))) = _best_solution self
    /\ _history (fst (fst (load other fs' path None))) = _history self
    /\ _f_cache (fst (fst (load other fs' path None))) = _f_cache self.
Proof.
  intros H. apply save_load_round_trip.
  destruct (_run_context self); [now left|exact I].
Qed.

(** X14. [load] of a checkpoint record without run-context state in which
    a required key is missing raises the ValueError that names the
    checkpoint file and a required key that is missing, whatever the
    Search object and the pruner handed to it are. *)
Theorem load_names_file_and_missing_key self fs path sd pr :
  fs !! path = Some sd -> well_typed sd ->
  sd !! "run_context" = Some CkNone ->
  (exists k, In k required_keys /\ sd !! k = None) ->
  exists k,
    In k required_keys /\ sd !! k = None
    /\ snd (load self fs path pr)
       = Raise (ValueError (MsgCouldNotParseFile path (str_KeyError k))).
Proof.
  intros Hfs Hwt Hrc Hmiss.
  apply (load_missing_key_wrapped self fs path sd pr Hfs Hwt Hmiss). auto.
Qed.

(** X15. [load] is not atomic: the cache and the history of the file are
    already in place when a later key turns out to be missing. For a
    record with cache and history but without [best_f], the call raises
    the error that names the file, the Search object has the cache and
    the history of the file, and its best value and best solution are the
    old ones. *)
Theorem load_restores_cache_and_history_before_failing self fs path sd pr c h :
  fs !! path = Some sd ->
  sd !! "run_context" = Some CkNone ->
  sd !! "cache" = Some (CkCache c) ->
  sd !! "history" = Some (CkHistory h) ->
  sd !! "best_f" = None ->
  load self fs path pr
  = (set_history h (set_f_cache c self), pr,
     Raise (ValueError (MsgCouldNotParseFile path "'best_f'"))).
Proof.
  intros Hfs H1 H2 H3 H4. unfold load, load_dict. rewrite Hfs.
  unfold load_body, sd_get. rewrite H1, H2, H3, H4. reflexivity.
Qed.

(** X16. [load] never touches the registered search space: whatever the
    file holds and whether the call returns or raises, the tree of
    parameters, the count of free parameters and the manual queue of the
    Search object are the same after the call. *)
Theorem load_keeps_search_space self fs path pr :
  _params (fst (fst (load self fs path pr))) = _params self
  /\ _free_param_count (fst (fst (load self fs path pr))) = _free_param_count self
  /\ _manually_queued_candidates (fst (fst (load self fs path pr)))
     = _manually_queued_candidates self.
Proof.
  unfold load, load_dict. destruct (fs !! path) as [sd|]; [|repeat split].
  unfold load_body, sd_get.
  destruct (sd !! "run_context") as [rc|]; [|repeat split].
  set (step := match rc with CkNone => Ok self | _ => _ end).
  assert (Hstep : forall s1, step = Ok s1 ->
            _params s1 = _params self
            /\ _free_param_count s1 = _free_param_count self
            /\ _manually_queued_candidates s1 = _manually_queued_candidates self).
  { unfold step. intros s1.
    destruct rc; try (intros [= <-]; repeat split);
      (destruct (_run_context self); [|discriminate]);
      cbn; intros [= <-]; repeat split. }
  destruct step as [s1|e]; [|destruct e; repeat split].
  destruct (Hstep s1 eq_refl) as (A & B & C). clear Hstep.
  repeat match goal with
    | |- context [match ?X with _ => _ end] =>
        lazymatch X with
        | context [match _ with _ => _ end] => fail
        | _ => destruct X
        end
    end; cbn; auto.
Qed.

(** ** A fresh Search object *)

Lemma initial_constants_kept depth :
  forall nd, (height nd <= depth)%nat -> constants_kept nd (_get_initial_solution nd).
Proof.
  induction depth as [|depth IH]; intros nd Hh.
  { pose proof (height_pos nd). lia. }
  destruct nd as [p|d|l|a]; [exact I| | |reflexivity].
  - pose proof (height_dict_children d depth Hh) as Hch. clear Hh.
    rewrite initial_solution_dict.
    induction d as [|[k c] d IHd]; [exact I|].
    inversion Hch as [|? ? Hc Hrest]; subst.
    split; [reflexivity|]. split; [now apply IH|]. now apply IHd.
  - pose proof (height_list_children l depth Hh) as Hch. clear Hh.
    rewrite initial_solution_list.
    induction l as [|c l IHl]; [exact I|].
    inversion Hch as [|? ? Hc Hrest]; subst.
    split; [now apply IH|]. now apply IHl.
Qed.

(** ** [register_int] and [register_float] *)


(** X19. [register_float] returns a LogSpaceFloatParameter only with a
    lower and an upper bound that are both there and strictly positive
    (after [sanitize_bounds]), and only when logarithmic mode was asked
    for: [log=True] without a format string, or a format string that ends
    with "g" without [log]. This holds whatever [sanitize_bounds],
    [infer_shape] and [int] do. *)
Theorem register_float_log_space_has_positive_bounds
    sanitize_float_bounds infer_float_shape py_int
    lb ub fmt init log precision shape mutation_fn seeding_fn p :
  register_float sanitize_float_bounds infer_float_shape py_int
    lb ub fmt init log precision shape mutation_fn seeding_fn
  = inr (IsLogSpaceFloat p) ->
  (exists l u,
     sanitize_float_bounds lb ub = Ok (Some l, Some u)
     /\ fp_lb p = Some l /\ fp_ub p = Some u /\ (0 < l)%Q /\ (0 < u)%Q)
  /\ ((log = Some true /\ fmt = None)
      \/ (log = None /\ precision = None
          /\ exists f, fmt = Some f /\ endswith f "g"%char = true)).
Proof.
  unfold register_float.
  destruct (sanitize_float_bounds lb ub) as [[lb' ub']|e]; [|discriminate].
  destruct (not_None log && not_None fmt) eqn:E1; [discriminate|].
  destruct (not_None precision && not_None fmt) eqn:E2; [discriminate|].
  set (parsed := match fmt with Some _ => _ | None => _ end).
  assert (Hparsed : forall lg pr, parsed = inr (lg, pr) -> truthy lg = true ->
            (log = Some true /\ fmt = None)
            \/ (log = None /\ precision = None
                /\ exists f, fmt = Some f /\ endswith f "g"%char = true)).
  { unfold parsed. intros lg pr H Ht. destruct fmt as [f|].
    - right. destruct log; [discriminate|]. destruct precision; [discriminate|].
      split; [reflexivity|]. split; [reflexivity|]. exists f. split; [reflexivity|].
      destruct (py_int (strip_format f)); [discriminate|]. injection H as <- _.
      destruct (endswith f "g"%char); [reflexivity|discriminate].
    - left. injection H as <- _. destruct log as [[]|]; try discriminate. auto. }
  destruct parsed as [e|[lg pr]]; [discriminate|].
  specialize (Hparsed lg pr eq_refl).
  destruct (truthy lg) eqn:Ht; cbn [andb].
  - destruct lb' as [l|], ub' as [u|]; cbn [not_None negb orb]; try discriminate.
    destruct (Qle_bool l 0) eqn:El; [discriminate|].
    destruct (Qle_bool u 0) eqn:Eu; [discriminate|]. cbn [orb].
    intros [= <-]. split; [|now apply Hparsed].
    exists l, u. cbn. repeat split.
    + apply Qnot_le_lt. intros H. apply Qle_bool_iff in H. congruence.
    + apply Qnot_le_lt. intros H. apply Qle_bool_iff in H. congruence.
  - discriminate.
Qed.

(** X20. A format string excludes [log] and [precision]: with either of
    them the call raises the ValueError about [log] and [fmt] (the same
    message for [precision]). Otherwise the format string counts only
    through its last character and through what is left of it without
    the characters ":", ".", "g" and "f", wherever they stand: two format
    strings that agree on both give the same result, and a string that
    [int] refuses is reported in its stripped form. *)
Theorem register_float_format_string
    sanitize_float_bounds infer_float_shape py_int
    lb ub f init log precision shape mutation_fn seeding_fn b :
  sanitize_float_bounds lb ub = Ok b ->
  (not_None log || not_None precision = true ->
   register_float sanitize_float_bounds infer_float_shape py_int
     lb ub (Some f) init log precision shape mutation_fn seeding_fn
   = inl ErrLogAndFmt)
  /\ (forall detail, py_int (strip_format f) = inl detail ->
      register_float sanitize_float_bounds infer_float_shape py_int
        lb ub (Some f) init None None shape mutation_fn seeding_fn
      = inl (ErrFormat (strip_format f) detail))
  /\ (forall f', strip_format f' = strip_format f ->
      endswith f' "g"%char = endswith f "g"%char ->
      register_float sanitize_float_bounds infer_float_shape py_int
        lb ub (Some f') init None None shape mutation_fn seeding_fn
      = register_float sanitize_float_bounds infer_float_shape py_int
          lb ub (Some f) init None None shape mutation_fn seeding_fn).
Proof.
  intros Hb. destruct b as [lb' ub']. unfold register_float. rewrite Hb.
  split; [|split].
  - destruct log, precision; cbn; try reflexivity; discriminate.
  - intros detail Hd. cbn [not_None andb]. rewrite Hd. reflexivity.
  - intros f' Hs Hg. cbn [not_None andb]. rewrite Hs, Hg. reflexivity.
Qed.

(** ** The budget of a run *)

(** One call of [_async_result_ready] leaves the schedule alone and
    commits at most one candidate to the cache. *)
Lemma async_result_ready_schedule_evaluations self candidate info cr :
  let out := _async_result_ready self candidate info cr in
  option_map schedule (_run_context (fst out)) = option_map schedule (_run_context self)
  /\ (evaluations self <= evaluations (fst out) <= S (evaluations self))%nat.
Proof.
  cbv zeta.
  unfold _async_result_ready, _shutdown_worker_processes, notify, record_history,
    evaluations.
  destruct self as [p b n f c rc q h cp ce tr]; cbn.
  repeat first
    [ match goal with
      | |- context [match ?X with _ => _ end] =>
          lazymatch X with
          | context [match _ with _ => _ end] => fail
          | _ => destruct X
          end
      end
    | destruct (existsb _ (callbacks _))
    | match goal with
      | |- context [improves ?x ?y ?z] => destruct (improves x y z)
      end ];
    cbn; (split; [reflexivity|lia]).
Qed.

Lemma submit_schedule_evaluations objective_function self candidate_type candidate :
  let out := _submit_candidate objective_function self candidate_type candidate in
  option_map schedule (_run_context (fst out)) = option_map schedule (_run_context self)
  /\ (evaluations self <= evaluations (fst out) <= S (evaluations self))%nat.
Proof.
  cbv zeta. unfold _submit_candidate.
  destruct (_run_context self) as [ctx|] eqn:Hctx;
    [|cbn; rewrite Hctx; split; [reflexivity|lia]].
  set (info := mkParamInfo candidate_type false false).
  set (s0 := set_f_cache _ _).
  destruct (task_executor ctx).
  - subst s0. unfold evaluations. cbn. rewrite Hctx. split; [reflexivity|lia].
  - pose proof (async_result_ready_schedule_evaluations s0 candidate info
                  (objective_function candidate)) as H.
    cbv zeta in H. change (_run_context s0) with (_run_context self) in H.
    change (evaluations s0) with (evaluations self) in H. rewrite Hctx in H. exact H.
Qed.

Lemma next_candidate_keeps_context shuffle depth self ctx t rnd s1 candidate ty :
  next_candidate shuffle depth self ctx t rnd = Ok (s1, candidate, ty) ->
  _run_context s1 = _run_context self /\ _f_cache s1 = _f_cache self.
Proof.
  unfold next_candidate. destruct (_manually_queued_candidates self).
  - destruct (Schedule.is_in_seeding_mode (schedule ctx)).
    + destruct (sample_solution _ _ _ _); [|discriminate]. now intros [= <- _ _].
    + destruct (mutate_from_best _ _ _ _ _ _ _ _ _); [|discriminate].
      now intros [= <- _ _].
  - now intros [= <- _ _].
Qed.

(** The loop of a run with a step budget: from step [k] of [m] on it
    commits at most [m - k] further candidates, and it forgets none. *)
Lemma search_loop_evaluations shuffle depth objective_function fuel :
  forall self t rnd s' r ctx m,
    search_loop shuffle depth objective_function fuel self t rnd = Some (s', r) ->
    _run_context self = Some ctx -> sched_max_steps (schedule ctx) = Some m ->
    (evaluations self <= evaluations s'
     <= evaluations self + (m - sched_step (schedule ctx)))%nat.
Proof.
  induction fuel as [|fuel IH]; intros self t rnd s' r ctx m H Hctx Hm.
  - cbn [search_loop] in H. rewrite Hctx in H.
    destruct (Schedule.is_timeout _); [|discriminate]. injection H as <- _. lia.
  - cbn [search_loop] in H. rewrite Hctx in H.
    destruct (Schedule.is_timeout (schedule ctx)) eqn:Ht; [injection H as <- _; lia|].
    assert (Hk : (sched_step (schedule ctx) < m)%nat).
    { unfold Schedule.is_timeout in Ht. rewrite Hm in Ht.
      apply orb_false_iff in Ht as [_ Ht]. now apply Nat.leb_gt in Ht. }
    destruct (_ && _); [injection H as <- _; lia|].
    destruct (next_candidate shuffle depth self ctx t rnd) as [[[s1 c] ty]|e] eqn:Hn;
      [|injection H as <- _; lia].
    apply next_candidate_keeps_context in Hn as [Hc1 Hf1].
    assert (He1 : evaluations s1 = evaluations self) by (unfold evaluations; now rewrite Hf1).
    rewrite Hctx in Hc1.
    destruct (negb _).
    + pose proof (submit_schedule_evaluations objective_function s1 ty c) as Hs.
      cbv zeta in Hs.
      destruct (_submit_candidate objective_function s1 ty c) as [s2 r2].
      cbn [fst] in Hs. destruct Hs as [Hsch He2]. rewrite Hc1 in Hsch.
      destruct r2 as [[]|e]; [|injection H as <- _; lia].
      destruct (_run_context s2) as [ctx2|] eqn:Hc2; [|discriminate].
      cbn in Hsch. injection Hsch as Hsch.
      apply (IH _ _ _ _ _
               (ctx_set_schedule (Schedule.increment_step (schedule ctx2)) ctx2) m) in H.
      * unfold step_schedule in H. rewrite Hc2 in H. cbn in H. rewrite Hsch in H.
        change (evaluations (set_run_context _ s2)) with (evaluations s2) in H. lia.
      * unfold step_schedule. now rewrite Hc2.
      * cbn. now rewrite Hsch.
    + apply (IH _ _ _ _ _
               (ctx_set_schedule (Schedule.increment_step (schedule ctx)) ctx) m) in H.
      * unfold step_schedule in H. rewrite Hc1 in H. cbn in H.
        change (evaluations (set_run_context _ s1)) with (evaluations s1) in H. lia.
      * unfold step_schedule. now rewrite Hc1.
      * exact Hm.
Qed.

(** When a run with a budget of [m] steps has ended, the cache holds at
    most [max(m, 1)] more committed evaluations than before and has lost
    none. *)
Lemma run_evaluations_within_budget
    shuffle depth objective_function self a fuel rnd m s' r :
  run shuffle depth objective_function self a fuel rnd = Some (s', r) ->
  arg_steps a = Some m ->
  (evaluations self <= evaluations s' <= evaluations self + Nat.max m 1)%nat.
Proof.
  unfold run. intros H Hsteps.
  destruct (ScheduledRun_init a) as [sched|e] eqn:Hsched.
  2:{ injection H as <- _. change (evaluations (set_caught_exception false self))
        with (evaluations self). lia. }
  assert (Hs0 : sched_step sched = 0%nat /\ sched_max_steps sched = Some m).
  { unfold ScheduledRun_init in Hsched. rewrite Hsteps in Hsched.
    destruct (arg_endless_mode a); [discriminate|]. injection Hsched as <-. now split. }
  destruct Hs0 as [Hs0 Hsm].
  destruct (canonical_direction (arg_direction a)) as [dir|e].
  2:{ injection H as <- _. change (evaluations (set_caught_exception false self))
        with (evaluations self). lia. }
  set (ctx := mkRunContext dir _ _ sched _ None false) in H.
  set (s1 := notify ctx OnSearchStart _) in H.
  assert (Hc1 : _run_context s1 = Some ctx) by reflexivity.
  assert (He1 : evaluations s1 = evaluations self) by reflexivity.
  assert (Hfin : forall (s2 : Search) ctx2 k,
             _run_context s2 = Some ctx2 -> sched_max_steps (schedule ctx2) = Some m ->
             sched_step (schedule ctx2) = k ->
             match
               search_loop shuffle depth objective_function fuel s2
                 match _run_context s2 with
                 | Some c => Schedule.temperature (schedule c)
                 | None => 0%Q
                 end rnd
             with
             | Some (s, Ok _) =>
                 Some (set_run_context None
                         match _run_context s with
                         | Some c => notify c OnSearchEnd
                                       (set_run_context (Some (ctx_set_terminate true c)) s)
                         | None => s
                         end,
                       Ok (_best_solution
                             (set_run_context None
                                match _run_context s with
                                | Some c => notify c OnSearchEnd
                                              (set_run_context
                                                 (Some (ctx_set_terminate true c)) s)
                                | None => s
                                end)))
             | Some (s, Raise e) => Some (s, Raise e)
             | None => None
             end = Some (s', r) ->
             (evaluations s2 <= evaluations s' <= evaluations s2 + (m - k))%nat).
  { intros s2 ctx2 k Hc2 Hm2 Hk2 H2.
    destruct (search_loop _ _ _ _ _ _ _) as [[s3 r3]|] eqn:Hl; [|discriminate].
    apply (search_loop_evaluations _ _ _ _ _ _ _ _ _ ctx2 m) in Hl; [|assumption..].
    rewrite Hk2 in Hl.
    destruct r3 as [[]|e]; injection H2 as <- _; [|exact Hl].
    destruct (run_finished_keeps s3) as (_ & _ & K3).
    unfold run_finished in K3. unfold evaluations in *. rewrite K3. exact Hl. }
  destruct (_best_f s1).
  - apply (Hfin s1 ctx 0%nat Hc1 Hsm Hs0) in H. lia.
  - destruct (manual_queue_count s1 =? 0)%nat.
    + pose proof (submit_schedule_evaluations objective_function s1 INIT
                    (_best_solution s1)) as Hs.
      cbv zeta in Hs.
      destruct (_submit_candidate objective_function s1 INIT (_best_solution s1))
        as [s2 r2].
      cbn [fst] in Hs. destruct Hs as [Hsch He2]. rewrite Hc1 in Hsch.
      destruct r2 as [[]|e]; [|injection H as <- _; lia].
      destruct (_run_context s2) as [ctx2|] eqn:Hc2; [|discriminate].
      cbn in Hsch. injection Hsch as Hsch.
      apply (Hfin (step_schedule s2)
               (ctx_set_schedule (Schedule.increment_step (schedule ctx2)) ctx2) 1%nat)
        in H.
      * unfold step_schedule in H. rewrite Hc2 in H.
        change (evaluations (set_run_context _ s2)) with (evaluations s2) in H. lia.
      * unfold step_schedule. now rewrite Hc2.
      * cbn. now rewrite Hsch.
      * cbn. now rewrite Hsch, Hs0.
    + apply (Hfin s1 ctx 0%nat Hc1 Hsm Hs0) in H. lia.
Qed.

(** A candidate whose result has no error and is no fatal NaN is
    committed to the cache by [_submit_candidate] (evaluation inline). *)
Lemma submit_commits objective_function self ctx candidate_type candidate :
  _run_context self = Some ctx -> task_executor ctx = None ->
  error (objective_function candidate) = None ->
  is_nan (objective_function candidate) && negb (ignore_nans ctx) = false ->
  let out := _submit_candidate objective_function self candidate_type candidate in
  snd out = Ok tt /\ evaluations (fst out) = S (evaluations self).
Proof.
  intros Hctx Hte He Hn. cbv zeta. unfold _submit_candidate. rewrite Hctx, Hte.
  unfold _async_result_ready. rewrite He.
  cbn [_run_context notify emit set_f_cache]. rewrite Hctx, Hn.
  unfold evaluations, record_history, notify.
  destruct (was_pruned _); [cbn; split; reflexivity|].
  destruct (is_nan _); [cbn; split; reflexivity|].
  destruct (existsb _ (callbacks _));
    match goal with
    | |- context [improves ?x ?y ?z] => destruct (improves x y z)
    end; cbn; split; reflexivity.
Qed.

(** The baseline of a first run is evaluated before the budget is looked
    at. *)
Lemma run_evaluates_baseline
    shuffle depth objective_function self a fuel rnd m s' r :
  run shuffle depth objective_function self a fuel rnd = Some (s', r) ->
  arg_steps a = Some m -> arg_endless_mode a = false ->
  is_ok (canonical_direction (arg_direction a)) = true ->
  _best_f self = None -> _manually_queued_candidates self = [] ->
  error (objective_function (_best_solution self)) = None ->
  is_nan (objective_function (_best_solution self)) && negb (arg_ignore_nans a) = false ->
  (S (evaluations self) <= evaluations s')%nat.
Proof.
  unfold run. intros H Hsteps Hend Hdir Hbf Hq He Hn.
  destruct (ScheduledRun_init_steps a m Hsteps Hend) as (sched & Hsched & _ & Hsm & _).
  rewrite Hsched in H.
  destruct (canonical_direction (arg_direction a)) as [dir|e]; [|discriminate].
  set (ctx := mkRunContext dir _ _ sched _ None false) in H.
  set (s1 := notify ctx OnSearchStart _) in H.
  change (_best_f s1) with (_best_f self) in H. rewrite Hbf in H.
  change (manual_queue_count s1) with (length (_manually_queued_candidates self)) in H.
  rewrite Hq in H. cbn [length Nat.eqb] in H.
  change (_best_solution s1) with (_best_solution self) in H.
  pose proof (submit_commits objective_function s1 ctx INIT (_best_solution self)
                eq_refl eq_refl He Hn) as Hc.
  pose proof (submit_schedule_evaluations objective_function s1 INIT
                (_best_solution self)) as Hs.
  cbv zeta in Hc, Hs.
  destruct (_submit_candidate objective_function s1 INIT (_best_solution self))
    as [s2 r2].
  cbn [fst snd] in Hc, Hs. destruct Hc as [-> He2]. destruct Hs as [Hsch _].
  change (evaluations s1) with (evaluations self) in He2.
  destruct (_run_context s2) as [ctx2|] eqn:Hc2; [|discriminate].
  cbn in Hsch. injection Hsch as Hsch.
  destruct (search_loop _ _ _ _ _ _ _) as [[s3 r3]|] eqn:Hl; [|discriminate].
  apply (search_loop_evaluations _ _ _ _ _ _ _ _ _
           (ctx_set_schedule (Schedule.increment_step (schedule ctx2)) ctx2) m) in Hl.
  - unfold step_schedule in Hl. rewrite Hc2 in Hl.
    change (evaluations (set_run_context _ s2)) with (evaluations s2) in Hl.
    destruct r3 as [[]|e]; injection H as <- _; [|lia].
    destruct (run_finished_keeps s3) as (_ & _ & K3).
    unfold run_finished in K3. unfold evaluations in *. rewrite K3. lia.
  - unfold step_schedule. now rewrite Hc2.
  - cbn. now rewrite Hsch.
Qed.

(** X21. A run with a budget of [m] steps respects it for every objective
    function, search space and queue: when the call has ended (it returned
    or raised), the cache holds at most [max(m, 1)] more committed
    evaluations than before and has lost none. The baseline of a first run
    (no best value yet, nothing queued; a result without error that is no
    fatal NaN) is evaluated whatever the budget is, also with a budget of
    0 steps: the cache holds at least one more committed evaluation. *)
Theorem run_respects_step_budget
    shuffle depth objective_function self a fuel rnd m s' r :
  run shuffle depth objective_function self a fuel rnd = Some (s', r) ->
  arg_steps a = Some m ->
  (evaluations self <= evaluations s' <= evaluations self + Nat.max m 1)%nat
  /\ (arg_endless_mode a = false ->
      is_ok (canonical_direction (arg_direction a)) = true ->
      _best_f self = None -> _manually_queued_candidates self = [] ->
      error (objective_function (_best_solution self)) = None ->
      is_nan (objective_function (_best_solution self)) && negb (arg_ignore_nans a)
      = false ->
      (S (evaluations self) <= evaluations s')%nat).
Proof.
  intros H Hsteps. split.
  - exact (run_evaluations_within_budget _ _ _ _ _ _ _ _ _ _ H Hsteps).
  - intros Hend Hdir Hbf Hq He Hn.
    exact (run_evaluates_baseline _ _ _ _ _ _ _ _ _ _ H Hsteps Hend Hdir Hbf Hq He Hn).
Qed.

(** * Instances of the further properties *)

Lemma sample_solution_draws_every_parameter_witness :
  sample_solution 10 (Search_init demo_space) 0 (NConst SNone)
  = Ok (sampled 0 demo_space).
Proof.
  apply (sample_solution_draws_every_parameter (Search_init demo_space) 0 10);
    [reflexivity|cbn; lia].
Defined.

Lemma amount_to_mutate_follows_temperature_witness :
  amount_to_mutate (clip01 (1 # 4)) 4 <= amount_to_mutate (clip01 (1 # 2)) 4.
Proof.
  apply (amount_to_mutate_follows_temperature (1 # 4) (1 # 2) 4).
  unfold Qle; cbn; lia.
Defined.

Lemma setitem_before_run_keeps_in_step_witness :
  exists self',
    __setitem__ (Search_init demo_space) "y" (NParam demo_param) = (self', Ok tt)
    /\ _free_param_count self' = 2%nat
    /\ _best_solution self'
       = VDict [("x", VAtom (SInt 3)); ("c", VAtom (SInt 7)); ("y", VAtom (SInt 3))].
Proof.
  destruct (setitem_before_run_keeps_in_step (Search_init demo_space)
              [("x", NParam demo_param); ("c", NConst (SInt 7))] "y" (NParam demo_param)
              eq_refl eq_refl eq_refl)
    as (self' & H1 & H2 & _ & H4 & H5 & _).
  exists self'. split; [exact H1|]. rewrite H4, H5, H2. split; reflexivity.
Defined.

Lemma setitem_after_evaluation_breaks_mutate_from_best_witness :
  mutate_from_best no_shuffle 10 (fst (__setitem__ demo_evaluated "y" (NParam demo_param)))
    0 (1 # 2) (NConst SNone) VNone [] 0 = Raise (KeyError "y").
Proof.
  apply (setitem_after_evaluation_breaks_mutate_from_best no_shuffle demo_evaluated
           [("x", NParam demo_param); ("c", NConst (SInt 7))]
           [("x", VAtom (SInt 4)); ("c", VAtom (SInt 7))] 3%Q "y" (NParam demo_param)
           0%nat (1 # 2) 10%nat VNone [] 0%nat);
    [intros r l; apply Permutation_refl|reflexivity..|cbn; lia].
Defined.

Lemma best_value_never_gets_worse_witness :
  exists bf',
    _best_f (fst (deliver demo_mid_run demo_results)) = Some bf' /\ (3 <= bf')%Q.
Proof.
  destruct (best_value_never_gets_worse demo_mid_run demo_ctx 3%Q demo_results
              eq_refl eq_refl) as (bf' & H1 & H2 & _).
  exists bf'. split; [exact H1|apply H2; reflexivity].
Defined.

Lemma pruned_result_never_becomes_best_witness :
  _best_f (fst (_async_result_ready demo_mid_run demo_candidate demo_info demo_pruned))
  = Some 3%Q.
Proof.
  pose proof (pruned_result_never_becomes_best demo_mid_run demo_ctx demo_candidate
                demo_info demo_pruned eq_refl eq_refl eq_refl eq_refl) as H.
  cbv zeta in H. destruct H as (_ & _ & H & _). exact H.
Defined.

Lemma run_returns_stored_best_and_cleans_up_witness :
  exists s' v,
    run no_shuffle 10 (constant_objective 3) (Search_init demo_space) (default_args 1)
      5 0 = Some (s', Ok v)
    /\ v = _best_solution s' /\ _run_context s' = None /\ _caught_exception s' = false.
Proof.
  destruct (run no_shuffle 10 (constant_objective 3) (Search_init demo_space)
              (default_args 1) 5 0) as [[s' [v|e]]|] eqn:E.
  - exists s', v. split; [reflexivity|].
    apply (run_returns_stored_best_and_cleans_up no_shuffle 10 (constant_objective 3)
             (Search_init demo_space) (default_args 1) 5%nat 0%nat s' v E).
  - vm_compute in E. discriminate.
  - vm_compute in E. discriminate.
Defined.

Lemma run_without_free_parameters_witness :
  exists s',
    run no_shuffle 10 (constant_objective 3) (Search_init demo_constants)
      (default_args 2) 5 0 = Some (s', Raise (ValueError MsgNoParameters))
    /\ evaluations s' = 1%nat /\ _best_f s' = Some 3%Q
    /\ _best_solution s' = _get_initial_solution demo_constants
    /\ is_Some (_run_context s').
Proof.
  destruct (run_without_free_parameters no_shuffle 10 demo_constants 3 (default_args 2)
              5 0 "max" eq_refl eq_refl eq_refl) as [_ H].
  apply (H 0%nat eq_refl). lia.
Defined.

Lemma checkpoint_round_trip_outside_run_witness :
  exists fs',
    save demo_evaluated ∅ "run.ckpt" None = Ok (fs', "run.ckpt")
    /\ _best_f (fst (fst (load (Search_init demo_space) fs' "run.ckpt" None)))
       = Some 3%Q
    /\ _best_solution (fst (fst (load (Search_init demo_space) fs' "run.ckpt" None)))
       = demo_candidate.
Proof.
  destruct (checkpoint_round_trip_outside_run demo_evaluated ∅ "run.ckpt"
              (Search_init demo_space) I) as (fs' & H1 & _ & H3 & H4 & _).
  exists fs'. split; [exact H1|]. split; [exact H3|exact H4].
Defined.

Lemma demo_record_without_best_f_well_typed : well_typed demo_record_without_best_f.
Proof.
  unfold well_typed, demo_record_without_best_f.
  repeat split; intros v Hv; simplify_map_eq; eauto.
Qed.

Lemma load_names_file_and_missing_key_witness :
  exists k,
    In k required_keys /\ demo_record_without_best_f !! k = None
    /\ snd (load (Search_init demo_space) demo_fs_without_best_f "run.ckpt" None)
       = Raise (ValueError (MsgCouldNotParseFile "run.ckpt" (str_KeyError k))).
Proof.
  apply (load_names_file_and_missing_key (Search_init demo_space)
           demo_fs_without_best_f "run.ckpt" demo_record_without_best_f None).
  - apply lookup_insert_eq.
  - exact demo_record_without_best_f_well_typed.
  - apply lookup_insert_eq.
  - exists "best_f". split; [cbn; auto|].
    unfold demo_record_without_best_f. by simplify_map_eq.
Defined.

Lemma load_restores_cache_and_history_before_failing_witness :
  load demo_evaluated demo_fs_without_best_f "run.ckpt" None
  = (set_history [] (set_f_cache Cache.empty demo_evaluated), None,
     Raise (ValueError (MsgCouldNotParseFile "run.ckpt" "'best_f'"))).
Proof.
  apply (load_restores_cache_and_history_before_failing demo_evaluated
           demo_fs_without_best_f "run.ckpt" demo_record_without_best_f None
           Cache.empty []).
  - apply lookup_insert_eq.
  - apply lookup_insert_eq.
  - unfold demo_record_without_best_f. by simplify_map_eq.
  - unfold demo_record_without_best_f. by simplify_map_eq.
  - unfold demo_record_without_best_f. by simplify_map_eq.
Defined.

Lemma register_float_log_space_has_positive_bounds_witness :
  exists l u,
    fp_lb demo_log_float = Some l /\ fp_ub demo_log_float = Some u
    /\ (0 < l)%Q /\ (0 < u)%Q.
Proof.
  destruct (register_float_log_space_has_positive_bounds bounds_as_given no_shape
              int_is_one (Some (1 # 10)) (Some 10%Q) None None (Some true) None None
              None None demo_log_float eq_refl) as [(l & u & _ & H) _].
  exists l, u. exact H.
Defined.

Lemma register_float_format_string_witness :
  register_float bounds_as_given no_shape int_is_one (Some (1 # 10)) (Some 10%Q)
    (Some "0.1g") None None (Some 2) None None None = inl ErrLogAndFmt.
Proof.
  destruct (register_float_format_string bounds_as_given no_shape int_is_one
              (Some (1 # 10)) (Some 10%Q) "0.1g" None None (Some 2) None None None
              (Some (1 # 10), Some 10%Q) eq_refl) as [H _].
  apply H. reflexivity.
Defined.

Lemma run_respects_step_budget_witness :
  exists s' r,
    run no_shuffle 10 (constant_objective 3) (Search_init demo_space) (default_args 0)
      10 0 = Some (s', r)
    /\ evaluations s' = 1%nat.
Proof.
  destruct (run no_shuffle 10 (constant_objective 3) (Search_init demo_space)
              (default_args 0) 10 0) as [[s' r]|] eqn:E.
  - exists s', r. split; [reflexivity|].
    destruct (run_respects_step_budget no_shuffle 10 (constant_objective 3)
                (Search_init demo_space) (default_args 0) 10%nat 0%nat 0%nat s' r E
                eq_refl) as [[_ Hhi] Hlo].
    specialize (Hlo eq_refl eq_refl eq_refl eq_refl eq_refl eq_refl).
    cbn in Hhi. change (evaluations (Search_init demo_space)) with 0%nat in Hlo. lia.
  - vm_compute in E. discriminate.
Defined.

Lemma enqueue_rec_empty_or_same_guess_is_best_witness :
  _enqueue_rec demo_candidate demo_candidate = Ok demo_candidate.
Proof.
  destruct (enqueue_rec_empty_or_same_guess_is_best [] demo_candidate) as (_ & H & _).
  apply H. reflexivity.
Defined.



(** ** Which parameters [mutate_from_best] mutates *)

Lemma masked_items_ok f t rnd best d :
  Forall (fun kv => consumes_masked t rnd f (snd kv)) d ->
  shape_ok (NDict d) best = true ->
  forall pre bits calls,
    length bits = _count_free_parameters_rec (NDict d) ->
    mutate_items f best d (pre ++ bits) calls
    = Ok (masked_items (masked t rnd) best d (rev bits), pre,
          (calls + count_true bits)%nat).
Proof.
  induction d as [|[k v] rest IH]; intros HF Hs pre bits calls Hl.
  - destruct bits; [|discriminate]. cbn. now rewrite app_nil_r, Nat.add_0_r.
  - change (_count_free_parameters_rec (NDict ((k, v) :: rest)))
      with (_count_free_parameters_rec v + _count_free_parameters_rec (NDict rest))%nat
      in Hl.
    cbn [shape_ok forallb fst snd] in Hs. apply andb_true_iff in Hs as [Hv Hrest].
    destruct (py_getitem best k) as [bk|] eqn:Hk; [|discriminate].
    destruct (split_bits bits _ _ Hl) as (bits_r & bits_v & -> & Lv & Lr).
    inversion HF as [|? ? Hhead Htail]; subst. cbn [snd] in Hhead.
    pose proof (Hhead bk (pre ++ bits_r) bits_v calls Hv Lv) as Hx.
    pose proof (IH Htail Hrest pre bits_r (calls + count_true bits_v)%nat Lr) as Hxs.
    cbn [mutate_items masked_items]. rewrite Hk. cbn [bind].
    rewrite app_assoc, Hx. cbn [bind]. rewrite Hxs. cbn [bind].
    rewrite rev_app_distr.
    rewrite take_app_length' by now rewrite length_rev.
    rewrite drop_app_length' by now rewrite length_rev.
    rewrite count_true_app. do 2 f_equal. lia.
Qed.

Lemma masked_elems_ok f t rnd best l :
  Forall (consumes_masked t rnd f) l ->
  forall i pre bits calls,
    forallb_i (fun i v => match py_index best i with
                          | Ok bi => shape_ok v bi
                          | Raise _ => false
                          end) i l = true ->
    length bits = _count_free_parameters_rec (NList l) ->
    mutate_elems f best l i (pre ++ bits) calls
    = Ok (masked_elems (masked t rnd) best l i (rev bits), pre,
          (calls + count_true bits)%nat).
Proof.
  induction l as [|v rest IH]; intros HF i pre bits calls Hs Hl.
  - destruct bits; [|discriminate]. cbn. now rewrite app_nil_r, Nat.add_0_r.
  - change (_count_free_parameters_rec (NList (v :: rest)))
      with (_count_free_parameters_rec v + _count_free_parameters_rec (NList rest))%nat
      in Hl.
    cbn [forallb_i] in Hs. apply andb_true_iff in Hs as [Hv Hrest].
    destruct (py_index best i) as [bi|] eqn:Hi; [|discriminate].
    destruct (split_bits bits _ _ Hl) as (bits_r & bits_v & -> & Lv & Lr).
    inversion HF as [|? ? Hhead Htail]; subst.
    pose proof (Hhead bi (pre ++ bits_r) bits_v calls Hv Lv) as Hx.
    pose proof (IH Htail (S i) pre bits_r (calls + count_true bits_v)%nat Hrest Lr)
      as Hxs.
    cbn [mutate_elems masked_elems]. rewrite Hi. cbn [bind].
    rewrite app_assoc, Hx. cbn [bind]. rewrite Hxs. cbn [bind].
    rewrite rev_app_distr.
    rewrite take_app_length' by now rewrite length_rev.
    rewrite drop_app_length' by now rewrite length_rev.
    rewrite count_true_app. do 2 f_equal. lia.
Qed.

(** Below the root, on a tree without [None]: the call returns the
    candidate described by the bits it pops, read in the order of the
    pops. *)
Lemma mutate_from_best_masked shuffle self rnd t depth :
  forall nd,
    none_free nd = true -> (height nd <= depth)%nat ->
    consumes_masked t rnd (mutate_from_best shuffle depth self rnd t) nd.
Proof.
  induction depth as [|depth IH]; intros nd Hnf Hh.
  { pose proof (height_pos nd). lia. }
  intros best pre bits calls Hs Hl. destruct nd as [p|d|l|a].
  - rewrite mutate_from_best_param.
    destruct bits as [|b [|]]; try discriminate.
    rewrite pop_snoc. cbn [bind fst snd].
    destruct b; cbn; rewrite ?Nat.add_1_r, ?Nat.add_0_r; reflexivity.
  - assert (HF : Forall (fun kv : string * node =>
                           consumes_masked t rnd
                             (mutate_from_best shuffle depth self rnd t) (snd kv)) d).
    { pose proof (height_dict_children d depth Hh) as Hc.
      cbn [none_free] in Hnf. rewrite forallb_forall in Hnf.
      apply List.Forall_forall. intros kv Hin. apply IH.
      - apply Hnf. exact Hin.
      - rewrite List.Forall_forall in Hc. apply Hc. exact Hin. }
    cbn [mutate_from_best is_None].
    rewrite (masked_items_ok _ t rnd best d HF Hs pre bits calls Hl). reflexivity.
  - assert (HF : Forall (consumes_masked t rnd
                           (mutate_from_best shuffle depth self rnd t)) l).
    { pose proof (height_list_children l depth Hh) as Hc.
      cbn [none_free] in Hnf. rewrite forallb_forall in Hnf.
      apply List.Forall_forall. intros v Hin. apply IH.
      - apply Hnf. exact Hin.
      - rewrite List.Forall_forall in Hc. apply Hc. exact Hin. }
    cbn [mutate_from_best is_None].
    rewrite (masked_elems_ok _ t rnd best l HF 0%nat pre bits calls Hs Hl). reflexivity.
  - destruct bits; [|discriminate].
    destruct a; try discriminate; cbn; rewrite app_nil_r, Nat.add_0_r; reflexivity.
Qed.

Lemma count_true_rev l : count_true (rev l) = count_true l.
Proof. apply count_true_perm. symmetry. apply Permutation_rev. Qed.

Lemma count_true_le l : (count_true l <= length l)%nat.
Proof.
  unfold count_true. induction l as [|[] l IH]; cbn [List.filter id length]; lia.
Qed.

Lemma count_true_full l : count_true l = length l -> l = repeat true (length l).
Proof.
  induction l as [|b l IH]; [reflexivity|]. intros H.
  pose proof (count_true_le l) as Hle. unfold count_true in *.
  destruct b; cbn [List.filter id length repeat] in *.
  - f_equal. apply IH. lia.
  - lia.
Qed.

(** The root call on a tree without [None]: the candidate is the one
    described by the shuffled mask, read from its end. *)
Lemma mutate_from_best_root_masked shuffle self rnd t depth best bitmask calls :
  (forall r l, Permutation l (shuffle r l)) ->
  none_free (_params self) = true ->
  shape_ok (_params self) (_best_solution self) = true ->
  (height (_params self) <= depth)%nat ->
  free_param_count self = _count_free_parameters_rec (_params self) ->
  (0 < free_param_count self)%nat ->
  exists bits,
    mutate_from_best shuffle depth self rnd t (NConst SNone) best bitmask calls
    = Ok (masked (clip01 t) rnd (_params self) (_best_solution self) bits, bitmask,
          (calls + count_true bits)%nat)
    /\ length bits = free_param_count self
    /\ Z.of_nat (count_true bits) = amount_to_mutate (clip01 t) (free_param_count self)
    /\ constants_kept (_params self)
         (masked (clip01 t) rnd (_params self) (_best_solution self) bits).
Proof.
  intros Hperm Hnf Hs Hh Hn Hpos.
  destruct (mutate_from_best_mutates_amount shuffle self rnd t depth best bitmask calls
              Hperm Hnf Hs Hh Hn Hpos) as (v & Hv & Kv).
  destruct depth as [|depth]; [pose proof (height_pos (_params self)); lia|].
  set (mask := shuffle rnd (fresh_bitmask (clip01 t) (free_param_count self))).
  assert (Hlen : length mask = _count_free_parameters_rec (_params self)).
  { unfold mask. rewrite <- (Permutation_length (Hperm rnd _)).
    unfold fresh_bitmask. now rewrite length_map, length_seq. }
  assert (Hcount : Z.of_nat (count_true mask)
                   = amount_to_mutate (clip01 t) (free_param_count self)).
  { pose proof (amount_to_mutate_le t _ Hpos) as Hle.
    pose proof (amount_to_mutate_pos (clip01 t) (free_param_count self)) as Hge.
    unfold mask. rewrite <- (count_true_perm _ _ (Hperm rnd _)).
    unfold fresh_bitmask. rewrite count_true_mask; lia. }
  pose proof (mutate_from_best_masked shuffle self rnd (clip01 t) (S depth)
                (_params self) Hnf Hh (_best_solution self) [] mask calls Hs Hlen)
    as Hm.
  cbn [app] in Hm.
  assert (E : mutate_from_best shuffle (S depth) self rnd t (NConst SNone) best
                bitmask calls
              = Ok (masked (clip01 t) rnd (_params self) (_best_solution self)
                      (rev mask), bitmask, (calls + count_true (rev mask))%nat)).
  { rewrite mutate_from_best_root_unfold by now apply none_free_not_None.
    fold mask. rewrite Hm. cbn [bind fst snd]. now rewrite count_true_rev. }
  exists (rev mask). split; [exact E|].
  split; [rewrite length_rev; congruence|].
  split; [now rewrite count_true_rev|].
  rewrite Hv in E. injection E as <- _. exact Kv.
Qed.

Lemma amount_to_mutate_near t n :
  (0 <= t)%Q ->
  (t * inject_Z (Z.of_nat n) - 1 <= inject_Z (amount_to_mutate t n)
   <= t * inject_Z (Z.of_nat n) + 1)%Q.
Proof.
  intros Ht. unfold amount_to_mutate.
  set (x := (t * inject_Z (Z.of_nat n))%Q).
  assert (Hx : (0 <= x)%Q).
  { unfold x. apply Qmult_le_0_compat; [exact Ht|].
    change 0%Q with (inject_Z 0). rewrite <- Zle_Qle. lia. }
  pose proof (py_round_bounds x) as [Hlo Hhi].
  pose proof (Qfloor_le x) as Hf1. pose proof (Qlt_floor x) as Hf2.
  rewrite inject_Z_plus in Hf2. change (inject_Z 1) with 1%Q in Hf2.
  rewrite Zle_Qle in Hlo, Hhi.
  rewrite inject_Z_plus in Hhi. change (inject_Z 1) with 1%Q in Hhi.
  destruct (Z.max_spec (py_round x) 1) as [[Hlt ->]|[Hge ->]].
  - change (inject_Z 1) with 1%Q.
    assert (H0 : (inject_Z (py_round x) <= 0)%Q).
    { change 0%Q with (inject_Z 0). rewrite <- Zle_Qle. lia. }
    split; lra.
  - split; lra.
Qed.

(** X2. On a Search object whose tree has no constant [None] and distinct
    keys, whose best solution has an entry wherever the tree has a child
    and whose count of free parameters [n] is that of the tree and not
    zero: [mutate_from_best] at the root returns a candidate and leaves
    the bitmask of its caller alone. The candidate is described by one bit
    per parameter: a parameter whose bit is set holds the value of its
    [mutate] for the entry of the best solution and the clipped
    temperature [t], every other parameter holds the entry of the best
    solution, the constants are those of the tree. The number of set
    bits, the parameters mutated, is at least one and at most [n], within
    one of [t * n], one for a temperature up to 0 and [n] for a
    temperature from 1 on. The candidate can serve as best solution in
    turn. *)
Theorem mutate_from_best_mutates_between_one_and_all
    shuffle self rnd t depth best bitmask calls :
  (forall r l, Permutation l (shuffle r l)) ->
  none_free (_params self) = true ->
  keys_unique (_params self) = true ->
  shape_ok (_params self) (_best_solution self) = true ->
  (height (_params self) <= depth)%nat ->
  free_param_count self = _count_free_parameters_rec (_params self) ->
  (0 < free_param_count self)%nat ->
  exists bits,
    mutate_from_best shuffle depth self rnd t (NConst SNone) best bitmask calls
    = Ok (masked (clip01 t) rnd (_params self) (_best_solution self) bits, bitmask,
          (calls + count_true bits)%nat)
    /\ length bits = free_param_count self
    /\ (1 <= count_true bits <= free_param_count self)%nat
    /\ (clip01 t * inject_Z (Z.of_nat (free_param_count self)) - 1
        <= inject_Z (Z.of_nat (count_true bits))
        <= clip01 t * inject_Z (Z.of_nat (free_param_count self)) + 1)%Q
    /\ ((t <= 0)%Q -> count_true bits = 1%nat)
    /\ ((1 <= t)%Q -> count_true bits = free_param_count self)
    /\ constants_kept (_params self)
         (masked (clip01 t) rnd (_params self) (_best_solution self) bits)
    /\ shape_ok (_params self)
         (masked (clip01 t) rnd (_params self) (_best_solution self) bits) = true.
Proof.
  intros Hperm Hnf Hu Hs Hh Hn Hpos.
  destruct (mutate_from_best_root_masked shuffle self rnd t depth best bitmask calls
              Hperm Hnf Hs Hh Hn Hpos) as (bits & E & Hlen & Hc & Kv).
  pose proof (amount_to_mutate_pos (clip01 t) (free_param_count self)) as H1.
  pose proof (amount_to_mutate_le t (free_param_count self) Hpos) as H2.
  exists bits. split; [exact E|]. split; [exact Hlen|]. split; [lia|].
  split; [rewrite Hc; apply amount_to_mutate_near, clip01_bounds|].
  split; [|split; [|split]].
  - intros Ht. apply Nat2Z.inj. rewrite Hc. unfold clip01.
    apply Qle_bool_iff in Ht. rewrite Ht.
    change 0%Q with (clip01 0). apply amount_to_mutate_at_0.
  - intros Ht. apply Nat2Z.inj. rewrite Hc. unfold clip01.
    assert (H0 : Qle_bool t 0 = false).
    { apply not_true_iff_false. rewrite Qle_bool_iff. lra. }
    apply Qle_bool_iff in Ht. rewrite H0, Ht.
    change 1%Q with (clip01 1). now apply amount_to_mutate_at_1.
  - exact Kv.
  - now apply (constants_kept_shape_ok depth).
Qed.

(** X4. The temperature the loop keeps after rejecting a duplicate is at
    least 1, so the next call of [mutate_from_best] clips it to 1 and
    returns the candidate in which every parameter holds the value of its
    [mutate] for the entry of the best solution at temperature 1 (every
    bit is set), whatever the temperature was before the rejection and
    whatever the shuffle. *)
Theorem mutate_from_best_after_rejection_mutates_all
    shuffle self rnd t depth best bitmask calls :
  (forall r l, Permutation l (shuffle r l)) ->
  none_free (_params self) = true ->
  shape_ok (_params self) (_best_solution self) = true ->
  (height (_params self) <= depth)%nat ->
  free_param_count self = _count_free_parameters_rec (_params self) ->
  (0 < free_param_count self)%nat ->
  clip01 (reject_temperature t) = 1%Q
  /\ mutate_from_best shuffle depth self rnd (reject_temperature t) (NConst SNone)
       best bitmask calls
     = Ok (masked 1 rnd (_params self) (_best_solution self)
             (repeat true (free_param_count self)),
           bitmask, (calls + free_param_count self)%nat).
Proof.
  intros Hperm Hnf Hs Hh Hn Hpos.
  assert (Hc : clip01 (reject_temperature t) = 1%Q).
  { pose proof (py_max_ge_r (t * (105 # 100)) 1) as Hge.
    fold (reject_temperature t) in Hge. unfold clip01.
    assert (H0 : Qle_bool (reject_temperature t) 0 = false).
    { apply not_true_iff_false. rewrite Qle_bool_iff. lra. }
    apply Qle_bool_iff in Hge. now rewrite H0, Hge. }
  split; [exact Hc|].
  destruct (mutate_from_best_root_masked shuffle self rnd (reject_temperature t) depth
              best bitmask calls Hperm Hnf Hs Hh Hn Hpos)
    as (bits & E & Hlen & Hcount & _).
  rewrite Hc in E, Hcount. change 1%Q with (clip01 1) in Hcount.
  rewrite (amount_to_mutate_at_1 _ Hpos) in Hcount. apply Nat2Z.inj in Hcount.
  assert (Hall : bits = repeat true (free_param_count self)).
  { rewrite <- Hlen. apply count_true_full. congruence. }
  rewrite E, Hcount, <- Hall. reflexivity.
Qed.

(** X17. The object [Search.__init__] builds is ready for the search: its
    best solution has the constants of the tree at their places and an
    entry wherever the tree has a child, its count of free parameters is
    that of the tree, and (no constant [None], at least one parameter) the
    first [mutate_from_best] returns the candidate in which at least one
    and at most all parameters hold the value of their [mutate] for their
    initial value and all others hold their initial value. *)
Theorem fresh_search_is_ready_to_mutate shuffle params rnd t depth :
  (forall r l, Permutation l (shuffle r l)) ->
  none_free params = true -> keys_unique params = true ->
  (height params <= depth)%nat ->
  (0 < _count_free_parameters_rec params)%nat ->
  constants_kept params (_best_solution (Search_init params))
  /\ shape_ok params (_best_solution (Search_init params)) = true
  /\ free_param_count (Search_init params) = _count_free_parameters_rec params
  /\ exists bits,
       mutate_from_best shuffle depth (Search_init params) rnd t (NConst SNone)
         VNone [] 0
       = Ok (masked (clip01 t) rnd params (_get_initial_solution params) bits, [],
             count_true bits)
       /\ length bits = _count_free_parameters_rec params
       /\ (1 <= count_true bits <= _count_free_parameters_rec params)%nat
       /\ constants_kept params
            (masked (clip01 t) rnd params (_get_initial_solution params) bits).
Proof.
  intros Hperm Hnf Hu Hh Hpos.
  pose proof (initial_solution_shape params Hu) as Hs.
  split; [now apply (initial_constants_kept depth)|].
  split; [exact Hs|]. split; [reflexivity|].
  destruct (mutate_from_best_root_masked shuffle (Search_init params) rnd t depth
              VNone [] 0%nat Hperm Hnf Hs Hh eq_refl Hpos)
    as (bits & E & Hlen & Hc & Kv).
  pose proof (amount_to_mutate_pos (clip01 t) (_count_free_parameters_rec params)) as H1.
  pose proof (amount_to_mutate_le t (_count_free_parameters_rec params) Hpos) as H2.
  change (free_param_count (Search_init params))
    with (_count_free_parameters_rec params) in *.
  exists bits. split; [exact E|]. split; [exact Hlen|]. split; [lia|exact Kv].
Qed.

(** Instances on a search space with three parameters: at temperature
    1/2 two of them are mutated, after a rejection all three. *)
Lemma mutate_from_best_mutates_between_one_and_all_witness :
  mutate_from_best no_shuffle 10 (Search_init demo_space3) 0 (1 # 2) (NConst SNone)
    VNone [] 0
  = Ok (VDict [("x", VAtom (SInt 3)); ("y", VAtom (SInt 100)); ("c", VAtom (SInt 7));
               ("z", VAtom (SInt 100))], [], 2%nat)
  /\ exists bits,
       mutate_from_best no_shuffle 10 (Search_init demo_space3) 0 (1 # 2)
         (NConst SNone) VNone [] 0
       = Ok (masked (clip01 (1 # 2)) 0 demo_space3
               (_best_solution (Search_init demo_space3)) bits, [],
             (0 + count_true bits)%nat)
       /\ length bits = 3%nat /\ (1 <= count_true bits <= 3)%nat.
Proof.
  split; [reflexivity|].
  destruct (mutate_from_best_mutates_between_one_and_all no_shuffle
              (Search_init demo_space3) 0 (1 # 2) 10 VNone [] 0%nat)
    as (bits & H1 & H2 & H3 & _);
    [intros r l; apply Permutation_refl|reflexivity|reflexivity|reflexivity
    |cbn; lia|reflexivity|cbn; lia|].
  exists bits. split; [exact H1|]. split; [exact H2|exact H3].
Defined.

Lemma mutate_from_best_after_rejection_mutates_all_witness :
  mutate_from_best no_shuffle 10 (Search_init demo_space3) 0
    (reject_temperature (1 # 10)) (NConst SNone) VNone [] 0
  = Ok (VDict [("x", VAtom (SInt 100)); ("y", VAtom (SInt 100));
               ("c", VAtom (SInt 7)); ("z", VAtom (SInt 100))], [], 3%nat).
Proof.
  apply (mutate_from_best_after_rejection_mutates_all no_shuffle
           (Search_init demo_space3) 0 (1 # 10) 10 VNone [] 0%nat);
    [intros r l; apply Permutation_refl|reflexivity|reflexivity|cbn; lia
    |reflexivity|cbn; lia].
Defined.

Lemma fresh_search_is_ready_to_mutate_witness :
  exists bits,
    mutate_from_best no_shuffle 10 (Search_init demo_space3) 0 (1 # 2) (NConst SNone)
      VNone [] 0
    = Ok (masked (clip01 (1 # 2)) 0 demo_space3 (_get_initial_solution demo_space3)
            bits, [], count_true bits)
    /\ length bits = 3%nat /\ (1 <= count_true bits <= 3)%nat.
Proof.
  destruct (fresh_search_is_ready_to_mutate no_shuffle demo_space3 0 (1 # 2) 10)
    as (_ & _ & _ & bits & H1 & H2 & H3 & _);
    [intros r l; apply Permutation_refl|reflexivity|reflexivity|cbn; lia|cbn; lia|].
  exists bits. split; [exact H1|]. split; [exact H2|exact H3].
Defined.
